(** * docker_orchestrator.py: a shallow embedding and its verified properties

    The development follows the layout of the module:
    - [Py]: the Python [str] methods the orchestrator calls;
    - [Pathlib]: POSIX [pathlib] paths, the file system and [Path.resolve];
    - the world (file system, Docker daemon), the state-and-exception monad
      in which methods run, and the methods of [DockerOrchestrator];
    - the theorems, one group per part of the orchestrator: the path
      guard, the decorator, reading and writing, block replacement, the
      annotated rendering, listing, the session, the life cycle, moving;
    - further theorems on the same methods and on those not met before:
      searching, provisioning and reuse of the container, the constructor,
      and what the guard lets through exactly.

    Python [str] values are modelled by [string]; text files hold a [string]
    (UTF-8 encoding and decoding are taken as inverse to each other, which
    holds for every [str] without lone surrogates). *)

From Stdlib Require Import Ascii.
From stdpp Require Import base tactics option list strings gmap fin_maps pretty sorting.

Set Default Proof Using "Type".

(* ===================================================================== *)
(** * Python strings                                                      *)
(* ===================================================================== *)

Module Py.

(** [len(s)] *)
Abbreviation len := String.length.

(** [s[n:]] *)
Fixpoint sdrop (n : nat) (s : string) : string :=
  match n, s with
  | 0, _ => s
  | S _, "" => ""
  | S n', String _ s' => sdrop n' s'
  end.

(** [s.startswith(p)] *)
Fixpoint startswith (s p : string) {struct p} : bool :=
  match p, s with
  | "", _ => true
  | String _ _, "" => false
  | String c p', String d s' => if decide (c = d) then startswith s' p' else false
  end.

(** [s.split(sep)] for a one-character separator: never empty, and
    [len(result) = 1 + s.count(sep)]. *)
Fixpoint split (sep : ascii) (s : string) : list string :=
  match s with
  | "" => [""]
  | String c s' =>
      if decide (c = sep) then "" :: split sep s'
      else match split sep s' with
           | w :: ws => String c w :: ws
           | [] => [String c ""]
           end
  end.

(** [sep.join(l)] *)
Fixpoint join (sep : string) (l : list string) : string :=
  match l with
  | [] => ""
  | [x] => x
  | x :: l' => x +:+ sep +:+ join sep l'
  end.

(** [c in s] for a character. *)
Fixpoint contains_char (c : ascii) (s : string) : bool :=
  match s with
  | "" => false
  | String d s' => if decide (c = d) then true else contains_char c s'
  end.

(** The scanning loop shared by [str.count] and [str.replace] for a
    non-empty needle: walk the text from the left; on a match at the
    current position, take it and skip the [len sub - 1] characters that
    follow, so matches never overlap.  [skip] is the number of characters
    still to be passed over. *)
Fixpoint count_go (sub : string) (skip : nat) (s : string) : nat :=
  match s with
  | "" => 0
  | String _ s' =>
      match skip with
      | S k => count_go sub k s'
      | 0 => if startswith s sub
             then S (count_go sub (len sub - 1) s')
             else count_go sub 0 s'
      end
  end.

(** [s.count(sub)]: the number of non-overlapping occurrences; the empty
    needle is found between all characters, [len(s) + 1] times. *)
Definition count (s sub : string) : nat :=
  match sub with
  | "" => S (len s)
  | _ => count_go sub 0 s
  end.

(** [budget] is [None] for an unbounded replacement and [Some n] while
    [n] replacements may still be made. *)
Definition budget_left (budget : option nat) : bool :=
  match budget with Some 0 => false | _ => true end.
Definition budget_pred (budget : option nat) : option nat := pred <$> budget.

Fixpoint replace_go (old new : string) (budget : option nat) (skip : nat)
    (s : string) : string :=
  match s with
  | "" => ""
  | String c s' =>
      match skip with
      | S k => replace_go old new budget k s'
      | 0 => if budget_left budget && startswith s old
             then new +:+ replace_go old new (budget_pred budget) (len old - 1) s'
             else String c (replace_go old new budget 0 s')
      end
  end.

(** An empty [old] matches before every character and at the end. *)
Fixpoint interleave (new : string) (budget : option nat) (s : string) : string :=
  if budget_left budget then
    match s with
    | "" => new
    | String c s' => new +:+ String c (interleave new (budget_pred budget) s')
    end
  else s.

(** [s.replace(old, new)] ([budget = None]) and [s.replace(old, new, n)]
    ([budget = Some n]). *)
Definition replace (s old new : string) (budget : option nat) : string :=
  match old with
  | "" => interleave new budget s
  | _ => replace_go old new budget 0 s
  end.

(** [str.isspace] on one character, for code points below 256. *)
Definition isspace (c : ascii) : bool :=
  let n := nat_of_ascii c in
  bool_decide (9 ≤ n ≤ 13) || bool_decide (28 ≤ n ≤ 32)
  || bool_decide (n = 133) || bool_decide (n = 160).

(** [s.rstrip()] *)
Fixpoint rstrip (s : string) : string :=
  match s with
  | "" => ""
  | String c s' =>
      match rstrip s' with
      | "" => if isspace c then "" else String c ""
      | r => String c r
      end
  end.

(** [s.lstrip()] and [s.strip()] *)
Fixpoint lstrip (s : string) : string :=
  match s with
  | "" => ""
  | String c s' => if isspace c then lstrip s' else s
  end.
Definition strip (s : string) : string := rstrip (lstrip s).

(** [s.split(sep, maxsplit)] for a one-character separator. *)
Fixpoint split_max (sep : ascii) (maxsplit : nat) (s : string) : list string :=
  match maxsplit, s with
  | 0, _ => [s]
  | _, "" => [""]
  | S m, String c s' =>
      if decide (c = sep) then "" :: split_max sep m s'
      else match split_max sep maxsplit s' with
           | w :: ws => String c w :: ws
           | [] => [String c ""]
           end
  end.

(** [sorted(l, key=key)]: a stable sort that only asks whether one key is
    strictly below another.  The elements are inserted from the right, each
    one in front of the first element whose key is not below its own. *)
Section sorted.
Context {A K : Type} (lt : K → K → bool) (key : A → K).

Fixpoint insert_by (x : A) (l : list A) : list A :=
  match l with
  | [] => [x]
  | y :: l' => if lt (key y) (key x) then y :: insert_by x l' else x :: l
  end.

Definition sorted (l : list A) : list A := foldr insert_by [] l.
End sorted.

(** [<] on strings (by code point) and on pairs of a [bool] and a string. *)
Definition str_lt (a b : string) : bool :=
  match String.compare a b with Lt => true | _ => false end.
Definition bool_lt (a b : bool) : bool := negb a && b.
Definition tuple_lt (a b : bool * string) : bool :=
  bool_lt a.1 b.1 || (bool_decide (a.1 = b.1) && str_lt a.2 b.2).

End Py.


(* ===================================================================== *)
(** * Exceptions and results                                              *)
(* ===================================================================== *)

(** The exception classes that can reach the orchestrator, from the
    builtins, [shutil] and the Docker SDK ([NotFound] is a subclass of
    [APIError]). *)
Inductive exn_class :=
| PermissionError | FileNotFoundError | FileExistsError | NotADirectoryError
| IsADirectoryError | OSError | RuntimeError | ValueError | AttributeError
| KeyError | NotImplementedError | ShutilError | DockerNotFound | DockerAPIError
| PlainException.

Record exn := Exn { exn_class_of : exn_class; exn_msg : string }.

(** [str(e)] *)
Definition str_of_exn (e : exn) : string := exn_msg e.

Inductive outcome (A : Type) :=
| Ok (a : A)
| Raise (e : exn).
Arguments Ok {A} a.
Arguments Raise {A} e.

Global Instance exn_class_eq_dec : EqDecision exn_class.
Proof. solve_decision. Defined.

(* ===================================================================== *)
(** * pathlib on POSIX, and the file system                               *)
(* ===================================================================== *)

Module Pathlib.

(** A [PurePosixPath]: whether it is anchored at the root, and its
    components after the anchor.  Parsing drops empty and ["."] components
    and keeps [".."], as pathlib does. *)
Record Path := MkPath { absolute : bool; parts : list string }.

Definition is_plain_name (x : string) : Prop := x ≠ "" ∧ x ≠ ".".

(** [Path(s)] *)
Definition parse (s : string) : Path :=
  {| absolute := Py.startswith s "/";
     parts := filter is_plain_name (Py.split "/" s) |}.

(** [a / b]: an absolute right operand replaces the left one. *)
Definition joinpath (a b : Path) : Path :=
  if absolute b then b
  else {| absolute := absolute a; parts := parts a ++ parts b |}.

(** [str(p)] *)
Definition str (p : Path) : string :=
  if absolute p then "/" +:+ Py.join "/" (parts p)
  else match parts p with
       | [] => "."
       | _ => Py.join "/" (parts p)
       end.

(** [p.parent] *)
Definition parent (p : Path) : Path :=
  {| absolute := absolute p; parts := removelast (parts p) |}.

(** [p.name] *)
Definition name (p : Path) : string := List.last (parts p) "".

(** The absolute path with the given components. *)
Definition abs (q : list string) : Path := {| absolute := true; parts := q |}.

(** [p.relative_to(base)]: [ValueError] unless [base] is an ancestor of
    [p] (or [p] itself) with the same anchor. *)
Definition relative_to (p base : Path) : outcome Path :=
  if bool_decide (absolute p = absolute base ∧ parts base `prefix_of` parts p)
  then Ok {| absolute := false; parts := drop (length (parts base)) (parts p) |}
  else Raise (Exn ValueError
         ("'" +:+ str p +:+ "' is not in the subpath of '" +:+ str base +:+ "'")).

(** ** The file system: a tree of files, symbolic links and directories *)

#[warnings="-register-all"]
Inductive node :=
| File (content : string)
| Symlink (target : string)
| Dir (entries : gmap string node).

(** The node at a canonical location (a list of names below the root). *)
Fixpoint lookup_path (n : node) (p : list string) : option node :=
  match p with
  | [] => Some n
  | x :: p' =>
      match n with
      | Dir es => match es !! x with
                  | Some c => lookup_path c p'
                  | None => None
                  end
      | _ => None
      end
  end.

(** Change the entry at location [p] of the tree with [f] ([None] is an
    absent entry); nothing changes when the parent of [p] is not a
    directory, and the root itself is never replaced. *)
Fixpoint modify (f : option node → option node) (p : list string) (n : node) : node :=
  match p, n with
  | [x], Dir es => Dir (partial_alter f x es)
  | x :: p', Dir es => Dir (alter (modify f p') x es)
  | _, _ => n
  end.

Definition is_dir_node (o : option node) : bool :=
  match o with Some (Dir _) => true | _ => false end.
Definition is_file_node (o : option node) : bool :=
  match o with Some (File _) => true | _ => false end.

(** [os.readlink] at a canonical location. *)
Definition readlink (root : node) (p : list string) : option string :=
  match lookup_path root p with
  | Some (Symlink t) => Some t
  | _ => None
  end.

(** The number of symbolic links in the tree. *)
Fixpoint count_links (n : node) : nat :=
  match n with
  | File _ => 0
  | Symlink _ => 1
  | Dir es => map_fold (λ _ c acc, count_links c + acc) 0 es
  end.

(** ** [Path.resolve()]

    The walk of [os.path.realpath] (CPython 3.6 to 3.12, non-strict): the
    components are consumed from the left, [cur] being the canonical
    location reached so far.  [".."] drops the last name of [cur]; a name
    that is a symbolic link is replaced by the resolution of its target,
    started from [cur] (or from the root when the target is absolute); any
    other name, existing or not, is appended.  A link met again while it
    is being resolved is a loop, for which [resolve] raises [RuntimeError];
    since a chain of links without a loop is no deeper than the number of
    links, [fuel] bounds the depth of nested links.  A name with a NUL
    character makes [os.lstat] raise [ValueError]. *)

Definition symlink_loop (q : list string) : exn :=
  Exn RuntimeError ("Symlink loop from '" +:+ str (abs q) +:+ "'").
Definition embedded_null : exn := Exn ValueError "embedded null byte".

Fixpoint realpath_go (rl : list string → option string) (fuel : nat)
    {struct fuel} : list string → list string → outcome (list string) :=
  fix walk (cur rest : list string) {struct rest} : outcome (list string) :=
    match rest with
    | [] => Ok cur
    | x :: rest' =>
        if decide (x = "" ∨ x = ".") then walk cur rest'
        else if decide (x = "..") then walk (removelast cur) rest'
        else if Py.contains_char "000" x then Raise embedded_null
        else match rl (cur ++ [x]) with
             | None => walk (cur ++ [x]) rest'
             | Some target =>
                 match fuel with
                 | 0 => Raise (symlink_loop (cur ++ [x]))
                 | S fuel' =>
                     let t := parse target in
                     match realpath_go rl fuel'
                             (if absolute t then [] else cur) (parts t) with
                     | Ok cur' => walk cur' rest'
                     | Raise e => Raise e
                     end
                 end
             end
    end.

(** The components to walk from the root: those of [p], after those of the
    working directory when [p] is relative.  ([os.getcwd()] is canonical,
    and walking a canonical path leads to itself.) *)
Definition full_parts (cwd : list string) (p : Path) : list string :=
  if absolute p then parts p else cwd ++ parts p.

(** [p.resolve()] in the tree [root] with working directory [cwd]; the
    result is the canonical location, that is the absolute path [abs q]. *)
Definition resolve (root : node) (cwd : list string) (p : Path) : outcome (list string) :=
  realpath_go (readlink root) (S (count_links root)) [] (full_parts cwd p).

(** ** Path lookup as the kernel does it

    [os.stat] walks the path strictly: every component but the last must
    lead to a directory, links are followed (at most [fuel] of them, 40 on
    Linux), and a missing component is an error. *)

Definition enoent (q : list string) : exn :=
  Exn FileNotFoundError ("[Errno 2] No such file or directory: '" +:+ str (abs q) +:+ "'").
Definition enotdir (q : list string) : exn :=
  Exn NotADirectoryError ("[Errno 20] Not a directory: '" +:+ str (abs q) +:+ "'").
Definition eloop (q : list string) : exn :=
  Exn OSError ("[Errno 40] Too many levels of symbolic links: '" +:+ str (abs q) +:+ "'").

Fixpoint namei_go (root : node) (fuel : nat) {struct fuel}
    : list string → list string → outcome (list string) :=
  fix walk (cur rest : list string) {struct rest} : outcome (list string) :=
    match rest with
    | [] => Ok cur
    | x :: rest' =>
        match lookup_path root cur with
        | Some (Dir es) =>
            if decide (x = "" ∨ x = ".") then walk cur rest'
            else if decide (x = "..") then walk (removelast cur) rest'
            else match es !! x with
                 | None => Raise (enoent (cur ++ [x]))
                 | Some (Symlink target) =>
                     match fuel with
                     | 0 => Raise (eloop (cur ++ [x]))
                     | S fuel' =>
                         let t := parse target in
                         namei_go root fuel'
                           (if absolute t then [] else cur) (parts t ++ rest')
                     end
                 | Some _ => walk (cur ++ [x]) rest'
                 end
        | Some _ => Raise (enotdir cur)
        | None => Raise (enoent cur)
        end
    end.

(** [os.stat(p)]: the node the path leads to, links followed. *)
Definition stat (root : node) (cwd : list string) (p : Path) : outcome node :=
  match namei_go root 40 [] (full_parts cwd p) with
  | Ok q => match lookup_path root q with
            | Some n => Ok n
            | None => Raise (enoent q)
            end
  | Raise e => Raise e
  end.

(** [p.exists()], [p.is_file()], [p.is_dir()]: [os.stat] with every
    [OSError] read as "no". *)
Definition exists_ (root : node) (cwd : list string) (p : Path) : bool :=
  match stat root cwd p with Ok _ => true | Raise _ => false end.
Definition is_file (root : node) (cwd : list string) (p : Path) : bool :=
  match stat root cwd p with Ok (File _) => true | _ => false end.
Definition is_dir (root : node) (cwd : list string) (p : Path) : bool :=
  match stat root cwd p with Ok (Dir _) => true | _ => false end.

End Pathlib.

Import Pathlib.

(* ===================================================================== *)
(** * The world outside the orchestrator                                  *)
(* ===================================================================== *)

(** A container as the Docker daemon holds it.  [sb_port] is the host port
    published for 5173/tcp, present while the container runs; [sb_vite]
    tells whether a process matching [vite] is alive in it; [sb_log] is
    its output so far, line by line. *)
Record Sandbox := MkSandbox {
  sb_running : bool;
  sb_vite : bool;
  sb_port : option string;
  sb_log : list string
}.

(** The requests the Docker SDK sends to the daemon. *)
Inductive ApiCall :=
| ImagesGet (ref : string)
| ImagesCreate (ref : string)
| ContainersGet (id : string)
| ContainersRun (image cname command : string)
| ContainerStart (cname : string)
| ContainerReload (cname : string)
| ContainerExec (cname cmd : string) (detach : bool)
| ContainerLogs (cname : string) (tail : nat).

(** What a command does inside a sandbox is not decided by this module:
    [shell] maps a command line, the mounted tree and the liveness of the
    dev server to an exit code, the output, and the tree and liveness
    after the command. *)
Record World := MkWorld {
  fs : node;
  cwd : list string;
  images : list string;
  sandboxes : gmap string Sandbox;
  port_pool : list string;
  api_log : list ApiCall;
  shell : string → node → bool → (Z * string) * (node * bool)
}.

(** A [docker.models.containers.Container]: the attributes cached by the
    SDK when the object was fetched or last reloaded. *)
Record Container := MkContainer {
  c_name : string;
  c_status : string;
  c_host_port : option string
}.

(** The fields of a [DockerOrchestrator]. *)
Record Orchestrator := MkOrchestrator {
  run_id : string;
  workspace_root : Path;
  project_dir : Path;
  container : option Container
}.

Record State := MkState { self : Orchestrator; world : World }.

Definition set_fs (t : node) (w : World) : World :=
  MkWorld t (cwd w) (images w) (sandboxes w) (port_pool w) (api_log w) (shell w).
Definition set_sandboxes (m : gmap string Sandbox) (w : World) : World :=
  MkWorld (fs w) (cwd w) (images w) m (port_pool w) (api_log w) (shell w).
Definition set_images (l : list string) (w : World) : World :=
  MkWorld (fs w) (cwd w) l (sandboxes w) (port_pool w) (api_log w) (shell w).
Definition set_port_pool (l : list string) (w : World) : World :=
  MkWorld (fs w) (cwd w) (images w) (sandboxes w) l (api_log w) (shell w).
Definition log_call (c : ApiCall) (w : World) : World :=
  MkWorld (fs w) (cwd w) (images w) (sandboxes w) (port_pool w) (api_log w ++ [c]) (shell w).
Definition set_container (c : option Container) (o : Orchestrator) : Orchestrator :=
  MkOrchestrator (run_id o) (workspace_root o) (project_dir o) c.

(* ===================================================================== *)
(** * Computations with state and exceptions                              *)
(* ===================================================================== *)

(** A Python statement acts on the state and either yields a value or
    raises; the effects made before a [raise] stay. *)
Definition M (A : Type) : Type := State → outcome A * State.

Definition ret {A} (a : A) : M A := λ s, (Ok a, s).
Definition raise {A} (e : exn) : M A := λ s, (Raise e, s).
Definition bind {A B} (m : M A) (k : A → M B) : M B :=
  λ s, match m s with
       | (Ok a, s') => k a s'
       | (Raise e, s') => (Raise e, s')
       end.
(** [try: m  except <handled>: h] *)
Definition try_except {A} (m : M A) (handled : exn → bool) (h : exn → M A) : M A :=
  λ s, match m s with
       | (Raise e, s') => if handled e then h e s' else (Raise e, s')
       | r => r
       end.
Definition gets {A} (f : State → A) : M A := λ s, (Ok (f s), s).
Definition modify_world (f : World → World) : M unit :=
  λ s, (Ok (), MkState (self s) (f (world s))).
Definition modify_self (f : Orchestrator → Orchestrator) : M unit :=
  λ s, (Ok (), MkState (f (self s)) (world s)).
Definition lift_outcome {A} (o : outcome A) : M A := λ s, (o, s).

Global Instance M_ret : MRet M := @ret.
Global Instance M_bind : MBind M := λ A B k m, bind m k.

Definition is_class (c : exn_class) (e : exn) : bool := bool_decide (exn_class_of e = c).

(** [OSError] and its subclasses. *)
Definition is_oserror (e : exn) : bool :=
  match exn_class_of e with
  | PermissionError | FileNotFoundError | FileExistsError | NotADirectoryError
  | IsADirectoryError | OSError => true
  | _ => false
  end.

(** A first use of the notation: run [m] and keep only its effects. *)
Definition ignore {A} (m : M A) : M unit := _ ← m; ret ().

Global Instance outcome_ret : MRet outcome := @Ok.
Global Instance outcome_bind : MBind outcome := λ A B k o,
  match o with
  | Ok a => k a
  | Raise e => Raise e
  end.

(* ===================================================================== *)
(** * System calls on the tree                                            *)
(* ===================================================================== *)

Module OS.

Definition eexist (q : list string) : exn :=
  Exn FileExistsError ("[Errno 17] File exists: '" +:+ str (abs q) +:+ "'").
Definition eisdir (q : list string) : exn :=
  Exn IsADirectoryError ("[Errno 21] Is a directory: '" +:+ str (abs q) +:+ "'").
Definition einval (q : list string) : exn :=
  Exn OSError ("[Errno 22] Invalid argument: '" +:+ str (abs q) +:+ "'").
Definition enotempty (q : list string) : exn :=
  Exn OSError ("[Errno 39] Directory not empty: '" +:+ str (abs q) +:+ "'").

(** The directory that holds the last component of a path: all components
    before the last are walked as [os.stat] walks them. *)
Definition locate_parent (root : node) (dirs : list string) : outcome (list string) :=
  d ← namei_go root 40 [] dirs;
  match lookup_path root d with
  | Some (Dir _) => Ok d
  | Some _ => Raise (enotdir d)
  | None => Raise (enoent d)
  end.

(** Where the last component of [p] lives: [None] when [p] has no last
    name of its own (it is the root, the working directory, or ends in
    [".."]), and the place designated is then an existing directory or an
    error. *)
Definition locate (root : node) (cwd : list string) (p : Path)
    : outcome (option (list string)) :=
  match last (parts p) with
  | None => match stat root cwd p with Ok _ => Ok None | Raise e => Raise e end
  | Some x =>
      if decide (x = "..")
      then match stat root cwd p with Ok _ => Ok None | Raise e => Raise e end
      else d ← locate_parent root (removelast (full_parts cwd p));
           Ok (Some (d ++ [x]))
  end.

(** [os.mkdir(p)] *)
Definition mkdir (root : node) (cwd : list string) (p : Path) : outcome node :=
  l ← locate root cwd p;
  match l with
  | None => Raise (eexist (parts p))
  | Some q =>
      match lookup_path root q with
      | Some _ => Raise (eexist q)
      | None => Ok (modify (λ _, Some (Dir ∅)) q root)
      end
  end.

(** [Path.mkdir(parents=True, exist_ok=True)], and the inner call with
    [parents=False] of the same method. *)
Definition mkdir_exist_ok (root : node) (cwd : list string) (p : Path) : outcome node :=
  match mkdir root cwd p with
  | Ok root' => Ok root'
  | Raise e =>
      if is_oserror e && is_dir root cwd p then Ok root else Raise e
  end.

Fixpoint mkdir_parents_go (n : nat) (root : node) (cwd : list string) (p : Path)
    : outcome node :=
  match mkdir root cwd p with
  | Ok root' => Ok root'
  | Raise e =>
      if bool_decide (exn_class_of e = FileNotFoundError) then
        match n with
        | 0 => Raise e
        | S n' =>
            root' ← mkdir_parents_go n' root cwd (parent p);
            mkdir_exist_ok root' cwd p
        end
      else if is_oserror e && is_dir root cwd p then Ok root else Raise e
  end.

Definition mkdir_parents (root : node) (cwd : list string) (p : Path) : outcome node :=
  mkdir_parents_go (length (parts p)) root cwd p.

(** [open(p, "w")], [write(content)] and close: the file is created or
    truncated; a link in the last position is followed. *)
Fixpoint open_write_go (fuel : nat) (root : node) (cwd : list string) (p : Path)
    (content : string) : outcome node :=
  l ← locate root cwd p;
  match l with
  | None => Raise (eisdir (parts p))
  | Some q =>
      match lookup_path root q with
      | Some (Dir _) => Raise (eisdir q)
      | Some (Symlink target) =>
          match fuel with
          | 0 => Raise (eloop q)
          | S fuel' =>
              open_write_go fuel' root (removelast q) (parse target) content
          end
      | _ => Ok (modify (λ _, Some (File content)) q root)
      end
  end.

Definition open_write := open_write_go 40.

(** The bytes of the file [p] leads to.  A file of the tree holds its
    text, so every file decodes as UTF-8: a read that fails to decode is
    not among the outcomes. *)
Definition read_bytes (root : node) (cwd : list string) (p : Path) : outcome string :=
  n ← stat root cwd p;
  match n with
  | File c => Ok c
  | _ => Raise (eisdir (parts p))
  end.

(** Reading in text mode with [newline=None]: ["\r\n"] and a lone ["\r"]
    both become ["\n"].  [after_cr] tells that the previous character
    was a carriage return. *)
Fixpoint universal_newlines_go (after_cr : bool) (s : string) : string :=
  match s with
  | "" => ""
  | String c s' =>
      if decide (c = "013"%char) then String "010" (universal_newlines_go true s')
      else if decide (c = "010"%char) then
        if after_cr then universal_newlines_go false s'
        else String "010" (universal_newlines_go false s')
      else String c (universal_newlines_go false s')
  end.
Definition universal_newlines := universal_newlines_go false.

(** [f.readlines()] on decoded text: the lines with their terminators. *)
Fixpoint readlines (s : string) : list string :=
  match s with
  | "" => []
  | String c s' =>
      if decide (c = "010"%char) then String c "" :: readlines s'
      else match readlines s' with
           | [] => [String c ""]
           | l :: ls => String c l :: ls
           end
  end.

(** [p.iterdir()]: the children of a directory, in the order the system
    lists them. *)
Definition iterdir (root : node) (cwd : list string) (p : Path) : outcome (list Path) :=
  n ← stat root cwd p;
  match n with
  | Dir es => Ok ((λ kv, joinpath p (MkPath false [kv.1])) <$> map_to_list es)
  | _ => Raise (enotdir (parts p))
  end.

(** [os.rename(src, dst)] *)
Definition rename (root : node) (cwd : list string) (src dst : Path) : outcome node :=
  ls ← locate root cwd src;
  ld ← locate root cwd dst;
  match ls, ld with
  | Some s, Some d =>
      match lookup_path root s with
      | None => Raise (enoent s)
      | Some n =>
          if decide (s = d) then Ok root
          else if bool_decide (s `prefix_of` d) then Raise (einval s)
          else
            let moved := modify (λ _, Some n) d (modify (λ _, None) s root) in
            match lookup_path root d, n with
            | None, _ => Ok moved
            | Some (Dir es), Dir _ =>
                if decide (es = ∅) then Ok moved else Raise (enotempty d)
            | Some (Dir _), _ => Raise (eisdir d)
            | Some _, Dir _ => Raise (enotdir d)
            | Some _, _ => Ok moved
            end
      end
  | _, _ => Raise (einval (parts src))
  end.

End OS.

(* ===================================================================== *)
(** * The Docker SDK                                                      *)
(* ===================================================================== *)

Module Docker.

Definition not_found (what : string) : exn :=
  Exn DockerNotFound ("404 Client Error: Not Found (" +:+ what +:+ ")").
Definition api_error (what : string) : exn :=
  Exn DockerAPIError what.

(** The attributes the SDK caches for a container of the daemon. *)
Definition snapshot (cname : string) (sb : Sandbox) : Container :=
  {| c_name := cname;
     c_status := if sb_running sb then "running" else "exited";
     c_host_port := if sb_running sb then sb_port sb else None |}.

Definition call (c : ApiCall) : M unit := modify_world (log_call c).

Definition find_sandbox (cname : string) : M Sandbox :=
  w ← gets world;
  match sandboxes w !! cname with
  | Some sb => mret sb
  | None => raise (not_found ("No such container: " +:+ cname))
  end.

Definition put_sandbox (cname : string) (sb : Sandbox) : M unit :=
  modify_world (λ w, set_sandboxes (<[cname := sb]> (sandboxes w)) w).

(** [client.images.get(ref)] *)
Definition images_get (ref : string) : M unit :=
  call (ImagesGet ref);;
  w ← gets world;
  if bool_decide (ref ∈ images w) then mret ()
  else raise (Exn DockerNotFound ("404 Client Error: Not Found (No such image: " +:+ ref +:+ ")")).

(** [client.images.create(ref)]: the image collection does not override
    [Collection.create], which raises [NotImplementedError]. *)
Definition images_create (ref : string) : M unit :=
  raise (Exn NotImplementedError "").

(** [client.containers.get(id)]; containers are found by name. *)
Definition containers_get (id : string) : M Container :=
  call (ContainersGet id);;
  sb ← find_sandbox id;
  mret (snapshot id sb).

(** A free host port for a container that starts. *)
Definition take_port : M string :=
  w ← gets world;
  match port_pool w with
  | p :: pool => modify_world (set_port_pool pool);; mret p
  | [] => raise (api_error "500 Server Error: all ports are allocated")
  end.

(** [client.containers.run(image, name=cname, detach=True, command=...)]:
    the container is created, then started; the object returned carries
    the attributes read at creation. *)
Definition containers_run (image cname command : string) : M Container :=
  call (ContainersRun image cname command);;
  w ← gets world;
  match sandboxes w !! cname with
  | Some _ =>
      raise (api_error ("409 Client Error: Conflict (The container name /" +:+ cname
                        +:+ " is already in use)"))
  | None =>
      modify_world (λ w, set_images (image :: images w) w);;
      put_sandbox cname (MkSandbox false false None []);;
      p ← take_port;
      put_sandbox cname (MkSandbox true false (Some p) []);;
      mret (MkContainer cname "created" None)
  end.

(** [container.start()] *)
Definition start (c : Container) : M unit :=
  call (ContainerStart (c_name c));;
  sb ← find_sandbox (c_name c);
  if sb_running sb then mret ()
  else
    p ← take_port;
    put_sandbox (c_name c) (MkSandbox true false (Some p) (sb_log sb)).

(** [container.reload()]: the attributes of the object are read again. *)
Definition reload (c : Container) : M Container :=
  call (ContainerReload (c_name c));;
  sb ← find_sandbox (c_name c);
  mret (snapshot (c_name c) sb).

(** [container.exec_run(cmd, detach=...)].  Two commands are given their
    meaning here: the probe [pgrep -f 'vite'] succeeds exactly when the dev
    server is alive (the process ids it prints are not modelled), and the
    detached [npm run dev -- --host] is taken to bring the dev server up
    (the orchestrator does not look at what the launch gave).  Every other
    command is left to [shell]. *)
Definition probe_cmd : string := "pgrep -f 'vite'".
Definition dev_cmd : string := "npm run dev -- --host".

Definition exec_run (c : Container) (cmd : string) (detach : bool) : M (Z * string) :=
  call (ContainerExec (c_name c) cmd detach);;
  sb ← find_sandbox (c_name c);
  if negb (sb_running sb) then
    raise (api_error ("409 Client Error: Conflict (container " +:+ c_name c
                      +:+ " is not running)"))
  else if bool_decide (cmd = probe_cmd) then
    mret (if sb_vite sb then 0%Z else 1%Z, "")
  else if detach && bool_decide (cmd = dev_cmd) then
    put_sandbox (c_name c) (MkSandbox true true (sb_port sb) (sb_log sb));;
    mret (0%Z, "")
  else
    w ← gets world;
    let '((code, out), (t, v)) := shell w cmd (fs w) (sb_vite sb) in
    modify_world (set_fs t);;
    put_sandbox (c_name c) (MkSandbox true v (sb_port sb) (sb_log sb));;
    mret (code, out).

(** [container.logs(tail=n)] *)
Definition logs (c : Container) (n : nat) : M string :=
  call (ContainerLogs (c_name c) n);;
  sb ← find_sandbox (c_name c);
  mret (Py.join "" (drop (length (sb_log sb) - n) (sb_log sb))).

(** [container.attrs["NetworkSettings"]["Ports"]["5173/tcp"][0]["HostPort"]] *)
Definition host_port (c : Container) : M string :=
  match c_host_port c with
  | Some p => mret p
  | None => raise (Exn KeyError "'5173/tcp'")
  end.

End Docker.

(* ===================================================================== *)
(** * docker_orchestrator.py                                              *)
(* ===================================================================== *)

(** The dictionaries and lists the methods return. *)
Record FileEntry := MkEntry { fe_name : string; fe_type : string; fe_path : string }.
Record SearchMatch := MkMatch { sm_file : string; sm_line : string; sm_content : string }.

Inductive payload :=
| PError (error : string)
| PStatus (message : string)
| PContent (content : string)
| PEntries (items : list FileEntry)
| PMatches (matches : list SearchMatch)
| PCommand (exit_code : Z) (output : string)
| PLogs (logs : string)
| PInfo (name url : string).

Definition no_container_msg : string := "No container running. Start the container first".

(** The decorator [require_container]. *)
Definition require_container (func : M payload) : M payload :=
  o ← gets self;
  match container o with
  | None => mret (PError no_container_msg)
  | Some _ => try_except func (λ _, true) (λ e, mret (PError (str_of_exn e)))
  end.

(** [self.container.<attr>]: on [None] the attribute access fails. *)
Definition self_container (attr : string) : M Container :=
  o ← gets self;
  match container o with
  | Some c => mret c
  | None => raise (Exn AttributeError
              ("'NoneType' object has no attribute '" +:+ attr +:+ "'"))
  end.

(** Lifting the calls on paths to the state. *)
Definition path_resolve (p : Path) : M Path :=
  w ← gets world;
  q ← lift_outcome (resolve (fs w) (cwd w) p);
  mret (abs q).
Definition path_exists (p : Path) : M bool :=
  w ← gets world; mret (exists_ (fs w) (cwd w) p).
Definition path_is_file (p : Path) : M bool :=
  w ← gets world; mret (is_file (fs w) (cwd w) p).
Definition path_is_dir (p : Path) : M bool :=
  w ← gets world; mret (is_dir (fs w) (cwd w) p).
Definition path_iterdir (p : Path) : M (list Path) :=
  w ← gets world; lift_outcome (OS.iterdir (fs w) (cwd w) p).
Definition update_fs (f : node → list string → outcome node) : M unit :=
  w ← gets world;
  t ← lift_outcome (f (fs w) (cwd w));
  modify_world (set_fs t).
Definition path_mkdir_parents (p : Path) : M unit :=
  update_fs (λ t c, OS.mkdir_parents t c p).
Definition write_text (p : Path) (content : string) : M unit :=
  update_fs (λ t c, OS.open_write t c p content).
Definition read_text (p : Path) : M string :=
  w ← gets world;
  b ← lift_outcome (OS.read_bytes (fs w) (cwd w) p);
  mret (OS.universal_newlines b).

(** [shutil.move(src, dst)] within one file system: the fallback that
    copies is only reached when [os.rename] fails, and of the failures
    possible here it changes the outcome for one, a directory moved into
    itself. *)
Definition with_sep (p : Path) : string :=
  match parts p with
  | [] => if absolute p then "/" else "./"
  | _ => str p +:+ "/"
  end.

Definition shutil_move (src dst : Path) : M unit :=
  w ← gets world;
  let real_dst :=
    if is_dir (fs w) (cwd w) dst then joinpath dst (MkPath false [name src]) else dst in
  if is_dir (fs w) (cwd w) dst && exists_ (fs w) (cwd w) real_dst then
    raise (Exn ShutilError ("Destination path '" +:+ str real_dst +:+ "' already exists"))
  else
    try_except (update_fs (λ t c, OS.rename t c src real_dst)) is_oserror
      (λ e, if is_dir (fs w) (cwd w) src
                 && Py.startswith (with_sep dst) (with_sep src)
            then raise (Exn ShutilError
                   ("Cannot move a directory '" +:+ str src +:+ "' into itself '"
                    +:+ str dst +:+ "'."))
            else raise e).

Definition access_denied : exn :=
  Exn PermissionError "Access Denied: Path outside workspace".

Definition _get_safe_path (path_str : string) : M Path :=
  o ← gets self;
  target_path ← path_resolve (joinpath (project_dir o) (parse path_str));
  base ← path_resolve (project_dir o);
  if negb (Py.startswith (str target_path) (str base))
  then raise access_denied
  else mret target_path.

Definition entry_key (x : FileEntry) : bool * string :=
  (negb (bool_decide (fe_type x = "folder")), fe_name x).

Definition list_files (subpath : string) : M payload :=
  require_container (
    target_path ← _get_safe_path subpath;
    ex ← path_exists target_path;
    if negb ex then mret (PError "Path does not exist")
    else
      o ← gets self;
      children ← path_iterdir target_path;
      items ← mapM (M := M) (λ item : Path,
                 d ← path_is_dir item;
                 rel ← lift_outcome (relative_to item (project_dir o));
                 mret {| fe_name := name item;
                         fe_type := if d : bool then "folder" else "file";
                         fe_path := str rel |}) children;
      mret (PEntries (Py.sorted Py.tuple_lt entry_key items))).

Definition read_file (file_path : string) : M payload :=
  require_container (
    target_path ← _get_safe_path file_path;
    f ← path_is_file target_path;
    if negb f then mret (PError "File not found or is a directory")
    else
      content ← read_text target_path;
      mret (PContent content)).

Definition table_header : string :=
  "| Line | Code |" +:+ String "010" ("|---:|:---|" +:+ String "010" "").

Definition table_row (idx : nat) (line : string) : string :=
  let safe_code := Py.replace (Py.rstrip line) "|" "\|" None in
  "| " +:+ pretty idx +:+ " | " +:+ safe_code +:+ " |" +:+ String "010" "".

(** The loop over [enumerate(lines, start=1)]. *)
Fixpoint table_rows (idx : nat) (lines : list string) : string :=
  match lines with
  | [] => ""
  | line :: lines' => table_row idx line +:+ table_rows (S idx) lines'
  end.

Definition read_file_formatted (file_path : string) : M payload :=
  require_container (
    target_path ← _get_safe_path file_path;
    f ← path_is_file target_path;
    if negb f then mret (PError "File not found or is a directory")
    else
      text ← read_text target_path;
      let lines := OS.readlines text in
      mret (PContent (table_header +:+ table_rows 1 lines))).

Definition write_file_folder (path type_of_content : string) (content : option string)
    : M payload :=
  require_container (
    target_path ← _get_safe_path path;
    if bool_decide (type_of_content = "folder") then
      path_mkdir_parents target_path;;
      mret (PStatus ("Folder " +:+ path +:+ " created"))
    else if bool_decide (type_of_content = "file") then
      path_mkdir_parents (parent target_path);;
      write_text target_path
        (match content with
         | Some c => if bool_decide (c = "") then "" else c
         | None => ""
         end);;
      mret (PStatus ("File " +:+ path +:+ " created"))
    else mret (PError "Invalid type. Must be 'file' or 'folder'")).

(** [delete_item] carries no decorator. *)
Definition delete_item (path : string) : M payload :=
  let cmd := "rm -rf " +:+ path in
  c ← self_container "exec_run";
  '(exit_code, output) ← Docker.exec_run c cmd false;
  if bool_decide (exit_code = 0%Z)
  then mret (PStatus ("Deleted " +:+ path))
  else mret (PError output).

Definition dquote : string := String "034" "".

Definition parse_match (line : string) : option SearchMatch :=
  match Py.split_max ":" 2 line with
  | f :: l :: c :: _ => Some (MkMatch f l (Py.strip c))
  | _ => None
  end.

Definition search_content (search_term : string) : M payload :=
  require_container (
    let cmd := "grep -r -n -I " +:+ dquote +:+ search_term +:+ dquote +:+ " ." in
    c ← self_container "exec_run";
    '(exit_code, result) ← Docker.exec_run c cmd false;
    if negb (bool_decide (exit_code = 0%Z)) && bool_decide (result = "") then
      mret (PMatches [])
    else
      mret (PMatches (omap (λ line, if bool_decide (line = "") then None
                                    else parse_match line)
                        (Py.split "010" (Py.strip result))))).

Definition replace_code (file_path search_block replace_block : string) : M payload :=
  require_container (
    target_path ← _get_safe_path file_path;
    f ← path_is_file target_path;
    if negb f then mret (PError "File not found")
    else
      content ← read_text target_path;
      let count := Py.count content search_block in
      if bool_decide (count = 0) then
        mret (PError "Search block not found. Ensure whitespace/indentation matches exactly.")
      else if bool_decide (1 < count) then
        mret (PError ("Ambiguous match: Block found " +:+ pretty count
                      +:+ " times. Include more surrounding lines in search_block."))
      else
        let updated_content := Py.replace content search_block replace_block (Some 1) in
        write_text target_path updated_content;;
        mret (PStatus "Code block replaced successfully.")).

Definition move_item (source_path destination_path : string) : M payload :=
  require_container (
    src ← _get_safe_path source_path;
    o ← gets self;
    dest ← path_resolve (joinpath (project_dir o) (parse destination_path));
    base ← path_resolve (project_dir o);
    if negb (Py.startswith (str dest) (str base)) then
      mret (PError "Access denied: Destination outside workspace")
    else
      src_exists ← path_exists src;
      if negb src_exists then mret (PError "Source file not found")
      else
        dest_exists ← path_exists dest;
        if dest_exists : bool then mret (PError "Destination already exists")
        else
          path_mkdir_parents (parent dest);;
          shutil_move src dest;;
          mret (PStatus ("Moved " +:+ source_path +:+ " to " +:+ destination_path))).

Definition run_command (command : string) : M payload :=
  require_container (
    c ← self_container "exec_run";
    '(exit_code, output) ← Docker.exec_run c command false;
    mret (PCommand exit_code output)).

Definition check_lint_errors : M payload :=
  require_container (
    c ← self_container "exec_run";
    '(exit_code, output) ← Docker.exec_run c "npx tsc --noEmit" false;
    mret (PCommand exit_code output)).

Definition get_server_logs (lines : nat) : M payload :=
  require_container (
    try_except
      (c ← self_container "logs";
       log_output ← Docker.logs c lines;
       mret (PLogs log_output))
      (λ _, true) (λ e, mret (PError (str_of_exn e)))).

(** ** The life cycle of the sandbox *)

Definition image : string := "node:22-alpine".
Definition idle_cmd : string := "tail -f /dev/null".
Definition bootstrap_cmds : list string :=
  [ "apk add --no-cache git";
    "npx -y degit  OMGATE23/vite-react-ts-tailwind-router-template . --force";
    "npm install" ].

Definition _run_command_strict (command : string) : M unit :=
  c ← self_container "exec_run";
  '(exit_code, output) ← Docker.exec_run c command false;
  if negb (bool_decide (exit_code = 0%Z)) then
    raise (Exn PlainException
      ("Command failed: " +:+ command +:+ String "010" (" Output: " +:+ output)))
  else mret ().

Definition localhost_url (host_port : string) : string := "http://localhost:" +:+ host_port.

Definition _ensure_dev_server_and_return_info : M payload :=
  c ← self_container "exec_run";
  '(exit_code, _) ← Docker.exec_run c Docker.probe_cmd false;
  (if negb (bool_decide (exit_code = 0%Z))
   then ignore (Docker.exec_run c Docker.dev_cmd true)
   else mret ());;
  c' ← Docker.reload c;
  modify_self (set_container (Some c'));;
  host_port ← Docker.host_port c';
  mret (PInfo (c_name c') (localhost_url host_port)).

Definition create_new_container : M payload :=
  try_except
    (o ← gets self;
     c ← Docker.containers_run image (run_id o) idle_cmd;
     modify_self (set_container (Some c));;
     _run_command_strict "apk add --no-cache git";;
     _run_command_strict "npx -y degit  OMGATE23/vite-react-ts-tailwind-router-template . --force";;
     _run_command_strict "npm install";;
     _ensure_dev_server_and_return_info)
    (λ _, true) (λ e, mret (PError (str_of_exn e))).

Definition restart_previous_container : M payload :=
  try_except
    (o ← gets self;
     c ← Docker.containers_get (run_id o);
     (if negb (bool_decide (c_status c = "running"))
      then Docker.start c
      else mret ());;
     '(exit_code, output) ← Docker.exec_run c Docker.probe_cmd false;
     (if negb (bool_decide (exit_code = 0%Z))
      then ignore (Docker.exec_run c Docker.dev_cmd true)
      else mret ());;
     host_port ← Docker.host_port c;
     modify_self (set_container (Some c));;
     mret (PInfo (c_name c) (localhost_url host_port)))
    (λ _, true) (λ e, mret (PError (str_of_exn e))).

(** [get_container]: each [except] clause guards the [try] block only, so
    what [create_new_container] does is outside the last clause. *)
Definition get_container : M payload :=
  λ s,
    match (o ← gets self; ignore (Docker.containers_get (run_id o))) s with
    | (Ok _, s') => restart_previous_container s'
    | (Raise e, s') =>
        if is_class DockerNotFound e then create_new_container s'
        else (Ok (PError (str_of_exn e)), s')
    end.

(** [__init__] and [initial_setup]: the state before the constructor runs
    has no orchestrator, so the constructor acts on the world and yields the
    orchestrator. *)
Definition initial_setup : M unit :=
  try_except (Docker.images_get image) (is_class DockerNotFound)
    (λ _, Docker.images_create image).

Definition init (rid : string) (root : Path) (w : World) : outcome Orchestrator * World :=
  let o := {| run_id := rid; workspace_root := root;
              project_dir := joinpath root (parse rid); container := None |} in
  match (path_mkdir_parents (project_dir o);; initial_setup) (MkState o w) with
  | (Ok _, s') => (Ok (self s'), world s')
  | (Raise e, s') => (Raise e, world s')
  end.

(* ===================================================================== *)
(** * The notions the properties are stated with                          *)
(* ===================================================================== *)

(** [p.is_relative_to(base)]: [base] is [p] or one of its ancestors. *)
Definition is_relative_to (p base : Path) : Prop :=
  absolute p = absolute base ∧ parts base `prefix_of` parts p.

(** The public operations on the workspace. *)
Inductive operation :=
| OpList (subpath : string)
| OpRead (path : string)
| OpReadAnnotated (path : string)
| OpWrite (path kind : string) (content : option string)
| OpDelete (path : string)
| OpSearch (term : string)
| OpReplaceBlock (path search_block replace_block : string)
| OpMove (src dest : string)
| OpRun (command : string)
| OpLint
| OpLogs (lines : nat).

Definition perform (op : operation) : M payload :=
  match op with
  | OpList p => list_files p
  | OpRead p => read_file p
  | OpReadAnnotated p => read_file_formatted p
  | OpWrite p k c => write_file_folder p k c
  | OpDelete p => delete_item p
  | OpSearch t => search_content t
  | OpReplaceBlock p a b => replace_code p a b
  | OpMove a b => move_item a b
  | OpRun c => run_command c
  | OpLint => check_lint_errors
  | OpLogs n => get_server_logs n
  end.

Definition is_delete (op : operation) : bool :=
  match op with OpDelete _ => true | _ => false end.


(** What an entry of the tree is, apart from the content of a directory. *)
Inductive shape :=
| SAbsent
| SFile (content : string)
| SLink (target : string)
| SDir.

Definition shape_of (o : option node) : shape :=
  match o with
  | None => SAbsent
  | Some (File c) => SFile c
  | Some (Symlink t) => SLink t
  | Some (Dir _) => SDir
  end.

(** A name that can stand in a canonical path. *)
Definition plain (x : string) : Prop := x ≠ "" ∧ x ≠ "." ∧ x ≠ "..".

(** A canonical location: plain names only, and no link on the way (with
    [rl] telling where the links are). *)
Definition canonical (rl : list string → option string) (q : list string) : Prop :=
  Forall plain q ∧ ∀ q', q' `prefix_of` q → q' ≠ [] → rl q' = None.

(** Two trees with the same links at the same places. *)
Definition same_links (root root' : node) : Prop :=
  (∀ q, readlink root' q = readlink root q) ∧ count_links root' = count_links root.

(** An entry with nothing below it and no link in it: what [os.mkdir] and
    [open(.., "w")] find and leave at the place they write. *)
Definition barren (o : option node) : Prop :=
  match o with
  | None | Some (File _) => True
  | Some (Dir es) => es = ∅
  | Some (Symlink _) => False
  end.

(** The state with another tree. *)
Definition with_fs (t : node) (s : State) : State :=
  MkState (self s) (set_fs t (world s)).

(** The number of occurrences of [sub] in [s]: the positions [0 .. len s]
    at which [sub] matches, overlapping matches included. *)
Fixpoint occ_count (sub s : string) : nat :=
  (if Py.startswith s sub then 1 else 0)
  + match s with
    | "" => 0
    | String _ s' => occ_count sub s'
    end.

(** [sub] occurs in [s] at position [i]. *)
Definition occurs_at (sub s : string) (i : nat) : Prop :=
  Py.startswith (Py.sdrop i s) sub = true.

Global Instance occurs_at_dec sub s i : Decision (occurs_at sub s i).
Proof. unfold occurs_at. apply _. Defined.

(** The messages of [replace_code]. *)
Definition no_match_msg : string :=
  "Search block not found. Ensure whitespace/indentation matches exactly.".
Definition ambiguous_msg (count : nat) : string :=
  "Ambiguous match: Block found " +:+ pretty count
  +:+ " times. Include more surrounding lines in search_block.".
Definition replaced_msg : string := "Code block replaced successfully.".

(** The order of a listing: folders before files, and by name within each
    group. *)
Definition is_folder (e : FileEntry) : Prop := fe_type e = "folder".
Definition entry_le (a b : FileEntry) : Prop :=
  (is_folder a ∧ ¬ is_folder b)
  ∨ ((is_folder a ↔ is_folder b) ∧ (fe_name a ≤ fe_name b)%string).

(** The entry [list_files] makes for the child [x] of the directory at
    [t], with the project directory at [b]. *)
Definition entry_of (root : node) (cwd b t : list string) (x : string) : FileEntry :=
  {| fe_name := x;
     fe_type := if is_dir root cwd (abs (t ++ [x])) then "folder" else "file";
     fe_path := str (MkPath false (drop (length b) (t ++ [x]))) |}.

(** Every call a client can make on an orchestrator. *)
Inductive call :=
| Acquire
| Workspace (op : operation).

Definition run_call (c : call) : M payload :=
  match c with
  | Acquire => get_container
  | Workspace op => perform op
  end.

(** The fields fixed at construction. *)
Definition session_of (o : Orchestrator) : string * Path * Path :=
  (run_id o, workspace_root o, project_dir o).

(** A computation that leaves these fields as they are. *)
Definition keeps_session {A} (m : M A) : Prop :=
  ∀ s, session_of (self (m s).2) = session_of (self s).

(** The sandbox of the session is up: its container runs, the dev server
    is alive in it, and [p] is the host port published for it. *)
Definition ready_at (rid p : string) (w : World) : Prop :=
  ∃ sb, sandboxes w !! rid = Some sb ∧
    sb_running sb = true ∧ sb_vite sb = true ∧ sb_port sb = Some p.

(** The requests that provision a sandbox: creating the container and
    running one of the bootstrap commands in it. *)
Definition is_provisioning (c : ApiCall) : bool :=
  match c with
  | ContainersRun _ _ _ => true
  | ContainerExec _ cmd _ => bool_decide (cmd ∈ bootstrap_cmds)
  | _ => false
  end.

(** Nothing but directories stands on the way to [p]: every prefix of [p]
    that exists is a directory (the root among them). *)
Definition clear_way (root : node) (p : list string) : Prop :=
  ∀ q, q `prefix_of` p →
    lookup_path root q = None ∨ is_dir_node (lookup_path root q) = true.

(** What [Path.mkdir(parents=True, exist_ok=True)] on [p] makes of the
    tree: the missing prefixes of [p] become directories, and every other
    entry keeps its shape. *)
Definition dirs_made (root root' : node) (p : list string) : Prop :=
  is_dir_node (lookup_path root' p) = true ∧
  ∀ q, shape_of (lookup_path root' q) =
         if decide (q `prefix_of` p ∧ lookup_path root q = None) then SDir
         else shape_of (lookup_path root q).

(** ** The annotated rendering, as it is described

    The words of the description, written without the functions of the
    code: what the lines of a text are, what a line is without its
    trailing whitespace, what escaping the pipes is, and the table with
    its rows numbered from a given number. *)

(** The texts of a list one after the other. *)
Fixpoint sconcat (ls : list string) : string :=
  match ls with
  | [] => ""
  | l :: ls' => l +:+ sconcat ls'
  end.

(** A line: not empty, with no newline before its last character. *)
Fixpoint one_line (l : string) : bool :=
  match l with
  | "" => false
  | String c "" => true
  | String c l' => negb (bool_decide (c = "010"%char)) && one_line l'
  end.

Fixpoint ends_newline (l : string) : bool :=
  match l with
  | "" => false
  | String c "" => bool_decide (c = "010"%char)
  | String _ l' => ends_newline l'
  end.

(** The lines of a text: each one a line, and each but the last ended by
    its newline. *)
Fixpoint well_split (ls : list string) : bool :=
  match ls with
  | [] => true
  | [l] => one_line l
  | l :: ls' => one_line l && ends_newline l && well_split ls'
  end.

Definition lines_of (content : string) (lines : list string) : Prop :=
  sconcat lines = content ∧ well_split lines = true.

(** A text of whitespace only, and a text that ends in whitespace. *)
Fixpoint all_blank (txt : string) : bool :=
  match txt with
  | "" => true
  | String c txt' => Py.isspace c && all_blank txt'
  end.

Fixpoint ends_blank (txt : string) : bool :=
  match txt with
  | "" => false
  | String c "" => Py.isspace c
  | String _ txt' => ends_blank txt'
  end.

(** [body] is [line] without its trailing whitespace: only whitespace has
    gone, and none is left at the end. *)
Definition stripped_of (line body : string) : Prop :=
  ∃ blanks, line = body +:+ blanks ∧ all_blank blanks = true ∧ ends_blank body = false.

(** Every pipe with a backslash before it. *)
Fixpoint escape_pipes (txt : string) : string :=
  match txt with
  | "" => ""
  | String c txt' =>
      if decide (c = "|"%char) then "\|" +:+ escape_pipes txt'
      else String c (escape_pipes txt')
  end.

(** The rows of the table for the given texts, numbered from [idx]. *)
Definition numbered_row (idx : nat) (body : string) : string :=
  "| " +:+ pretty idx +:+ " | " +:+ escape_pipes body +:+ " |" +:+ String "010" "".

Fixpoint numbered_rows (idx : nat) (bodies : list string) : string :=
  match bodies with
  | [] => ""
  | body :: bodies' => numbered_row idx body +:+ numbered_rows (S idx) bodies'
  end.

(* ===================================================================== *)
(** * A small workspace to run the methods on                             *)
(* ===================================================================== *)

Module Demo.

(** [/ws/run] is the project directory of session [run]; [/ws/run2]
    belongs to another session. *)
Definition run_dir : node :=
  Dir (<["b.txt" := File "hello"]> (<["a_folder" := Dir ∅]> ∅)).
Definition ws_dir : node :=
  Dir (<["run" := run_dir]> (<["run2" := Dir {["secret.txt" := File "s3cr3t"]}]> ∅)).
Definition root_dir : node := Dir {["ws" := ws_dir]}.

(** A shell in which every command succeeds silently. *)
Definition quiet_shell (cmd : string) (t : node) (v : bool) : (Z * string) * (node * bool) :=
  ((0%Z, ""), (t, v)).

Definition the_world (t : node) : World :=
  {| fs := t; cwd := []; images := [image]; sandboxes := ∅;
     port_pool := ["32768"; "32769"]; api_log := []; shell := quiet_shell |}.

(** The orchestrator right after construction, and after a successful
    [get_container]. *)
Definition fresh : Orchestrator :=
  {| run_id := "run"; workspace_root := parse "/ws"; project_dir := parse "/ws/run";
     container := None |}.
Definition ready_sandbox : Sandbox := MkSandbox true true (Some "32768") [].
Definition ready_world (t : node) : World :=
  {| fs := t; cwd := []; images := [image]; sandboxes := {["run" := ready_sandbox]};
     port_pool := ["32769"]; api_log := []; shell := quiet_shell |}.
Definition acquired : Orchestrator :=
  set_container (Some (Docker.snapshot "run" ready_sandbox)) fresh.

Definition before_acquire : State := MkState fresh (the_world root_dir).
Definition after_acquire : State := MkState acquired (ready_world root_dir).

(** The same session over a project directory with one file. *)
Definition with_file (fname content : string) : State :=
  MkState acquired
    (ready_world (Dir {["ws" := Dir {["run" := Dir {[fname := File content]}]}]})).


(** Texts to write: two lines with a pipe character, and a line with a
    carriage return in it. *)
Definition two_lines : string := "a|b" +:+ String "010" "c".
Definition with_cr : string := "a" +:+ String "013" "b".

(** One line, with and without blanks before the line end. *)
Definition padded_line : string := "a  " +:+ String "010" "".
Definition bare_line : string := "a" +:+ String "010" "".

(** The same project files below a workspace root given relative to the
    working directory [/srv], as in [DockerOrchestrator("run", Path("workspace"))]. *)
Definition srv_root : node := Dir {["srv" := Dir {["workspace" := Dir {["run" := run_dir]}]}]}.
Definition relative_session : State :=
  MkState
    {| run_id := "run"; workspace_root := parse "workspace";
       project_dir := joinpath (parse "workspace") (parse "run");
       container := container acquired |}
    {| fs := srv_root; cwd := ["srv"]; images := [image];
       sandboxes := {["run" := ready_sandbox]}; port_pool := ["32769"];
       api_log := []; shell := quiet_shell |}.

End Demo.


(* ===================================================================== *)
(** * Notions for the further properties                                  *)
(* ===================================================================== *)

(** A computation that leaves the observation [f] of the state as it
    found it, whether it returns or raises. *)
Definition preserves {A X} (f : State → X) (m : M A) : Prop :=
  ∀ s, f (m s).2 = f s.

(** A computation that never raises. *)
Definition never_raises {A} (m : M A) : Prop :=
  ∀ s, ∃ a, (m s).1 = Ok a.

(** A computation whose results, when it returns, satisfy [Q] together
    with the state then reached. *)
Definition ensures {A} (Q : A → State → Prop) (m : M A) : Prop :=
  ∀ s a s', m s = (Ok a, s') → Q a s'.

(** A computation that sends the daemon only requests that satisfy [P]:
    the log of requests grows by such requests. *)
Definition sends {A} (P : ApiCall → Prop) (m : M A) : Prop :=
  ∀ s, ∃ l, api_log (world (m s).2) = api_log (world s) ++ l ∧ Forall P l.

(** The container of the session runs, with [p] the host port published
    for it (the dev server may be up or not). *)
Definition sandbox_up (rid p : string) (w : World) : Prop :=
  ∃ sb, sandboxes w !! rid = Some sb ∧ sb_running sb = true ∧ sb_port sb = Some p.

(** The orchestrator holds a container named [n]. *)
Definition holds_container (n : string) (o : Orchestrator) : Prop :=
  ∃ c, container o = Some c ∧ c_name c = n.

(** The answers of [get_container]. *)
Definition is_answer (r : payload) : Prop :=
  match r with
  | PInfo _ _ | PError _ => True
  | _ => False
  end.





(** A name without a slash, as the names of a path that was parsed are. *)
Definition no_slash (x : string) : Prop := Py.contains_char "/" x = false.

(** A name without a NUL character. *)
Definition no_nul (x : string) : Prop := Py.contains_char "000" x = false.

(** A name that a file in a directory can have. *)
Definition file_name (x : string) : Prop := plain x ∧ no_slash x ∧ no_nul x.

(** [y] is [x] followed by at least one more character. *)
Definition extends_name (x y : string) : Prop := x ≠ y ∧ Py.startswith y x = true.

(** The locations [t] that pass for being inside [b] when the two are
    compared as text: those inside [b], and those that leave the way to
    [b] at its last name, for a name that extends it. *)
Definition passes_for_inside (b t : list string) : Prop :=
  b `prefix_of` t ∨
  ∃ b0 x y rest, b = b0 ++ [x] ∧ t = b0 ++ y :: rest ∧ extends_name x y.

(** A text that is empty or starts with a slash. *)
Definition slash_led (txt : string) : Prop :=
  match txt with
  | "" => True
  | String c _ => c = "/"%char
  end.

(** The names of a location written one after the other, each after a
    slash. *)
Fixpoint slashed (q : list string) : string :=
  match q with
  | [] => ""
  | x :: q' => String "/" (x +:+ slashed q')
  end.

(** The content written for the optional argument of [write_file_folder]. *)
Definition written (content : option string) : string := default "" content.

(** The command line of [search_content]. *)
Definition grep_cmd (search_term : string) : string :=
  "grep -r -n -I " +:+ dquote +:+ search_term +:+ dquote +:+ " .".

(** A hit of [grep -n]: the file, the line number and the text of the
    line; the line it prints for the hit; and the match [search_content]
    makes of it. *)
Definition hit : Type := string * string * string.
Definition grep_line (h : hit) : string := h.1.1 +:+ ":" +:+ h.1.2 +:+ ":" +:+ h.2.
Definition match_of (h : hit) : SearchMatch := MkMatch h.1.1 h.1.2 (Py.strip h.2).

(** What [grep] prints: one line per hit, each ended by a newline. *)
Definition newline : string := String "010" "".
Definition grep_output (hits : list hit) : string :=
  Py.join newline (grep_line <$> hits) +:+ newline.

(** A text that starts with a whitespace character. *)
Definition starts_blank (s : string) : bool :=
  match s with
  | "" => false
  | String c _ => Py.isspace c
  end.

(** A hit as [grep] can print it on one line: no newline in it, no colon
    in the file name (the line number has none), and a file name that
    does not start with a blank. *)
Definition hit_ok (h : hit) : Prop :=
  Py.contains_char ":" h.1.1 = false ∧ Py.contains_char ":" h.1.2 = false ∧
  Py.contains_char "010" h.1.1 = false ∧ Py.contains_char "010" h.1.2 = false ∧
  Py.contains_char "010" h.2 = false ∧ starts_blank h.1.1 = false.

(** A match whose fields are well formed: file and line without colon,
    no newline anywhere, and no blank around the content. *)
Definition match_ok (m : SearchMatch) : Prop :=
  Py.contains_char ":" (sm_file m) = false ∧ Py.contains_char ":" (sm_line m) = false ∧
  Py.contains_char "010" (sm_file m) = false ∧ Py.contains_char "010" (sm_line m) = false ∧
  Py.contains_char "010" (sm_content m) = false ∧
  Py.strip (sm_content m) = sm_content m.

(** What the loop of [search_content] makes of one line of output. *)
Definition keep_line (line : string) : option SearchMatch :=
  if bool_decide (line = "") then None else parse_match line.

(** [f] applied to the last element of a list. *)
Fixpoint map_last {A} (f : A → A) (l : list A) : list A :=
  match l with
  | [] => []
  | [x] => [f x]
  | x :: l' => x :: map_last f l'
  end.

(** More scenes to run the methods on. *)
Module Scenes.

(** A shell in which every command prints two hits of [grep]. *)
Definition two_hits : list hit :=
  [("./b.txt", "1", "hello"); ("./src/a.ts", "12", "  const x = 1;")].
Definition grep_shell (cmd : string) (t : node) (v : bool) : (Z * string) * (node * bool) :=
  ((0%Z, grep_output two_hits), (t, v)).

(** A shell in which every command fails with a diagnostic. *)
Definition grep_error : string := "grep: Unmatched [ or [^" +:+ newline.
Definition complaining_shell (cmd : string) (t : node) (v : bool)
    : (Z * string) * (node * bool) :=
  ((2%Z, grep_error), (t, v)).

Definition with_shell (sh : string → node → bool → (Z * string) * (node * bool))
    (w : World) : World :=
  MkWorld (fs w) (cwd w) (images w) (sandboxes w) (port_pool w) (api_log w) sh.



(** The sandbox of the session, stopped; and running with the dev server
    down. *)
Definition stopped_sandbox : Sandbox := MkSandbox false false None [].
Definition with_sandbox (sb : Sandbox) : State :=
  MkState Demo.fresh
    (set_sandboxes {["run" := sb]} (Demo.the_world Demo.root_dir)).

(** A file with DOS line ends. *)
Definition dos_text : string :=
  "a" +:+ String "013" (String "010" ("b" +:+ String "013" (String "010" ""))).

(** The session after its container has been removed behind its back. *)
Definition container_gone : State :=
  MkState Demo.acquired (Demo.the_world Demo.root_dir).

Definition searching_badly : State :=
  MkState Demo.acquired (with_shell complaining_shell (Demo.ready_world Demo.root_dir)).

Definition searching : State :=
  MkState Demo.acquired (with_shell grep_shell (Demo.ready_world Demo.root_dir)).

End Scenes.
(* ===================================================================== *)
(** * Proof tools                                                         *)
(* ===================================================================== *)

(** Expose the state passing under the monadic notation. *)
Ltac unfold_monad :=
  unfold ignore in *;
  unfold mbind, M_bind, bind, mret, M_ret, ret, raise, gets,
    modify_world, modify_self, lift_outcome, try_except in *;
  unfold mbind, outcome_bind, mret, outcome_ret in *.

(** Split on every test met along the way. *)
Ltac crunch :=
  repeat (simpl in *; simplify_eq; try done; case_match).

(* ===================================================================== *)
(** * Facts about strings                                                 *)
(* ===================================================================== *)

Section string_facts.
Implicit Types s t p : string.

Lemma sapp_nil_l s : "" +:+ s = s.
Proof. reflexivity. Qed.

Lemma sapp_cons c s t : String c s +:+ t = String c (s +:+ t).
Proof. reflexivity. Qed.

Lemma sapp_nil_r s : s +:+ "" = s.
Proof. induction s; rewrite ?sapp_cons, ?sapp_nil_l; congruence. Qed.

Lemma sapp_assoc s t p : (s +:+ t) +:+ p = s +:+ t +:+ p.
Proof. induction s; rewrite ?sapp_cons, ?sapp_nil_l; congruence. Qed.

Lemma sdrop_sapp s t : Py.sdrop (Py.len s) (s +:+ t) = t.
Proof. induction s; rewrite ?sapp_cons, ?sapp_nil_l; simpl; done. Qed.

Lemma startswith_sapp p t : Py.startswith (p +:+ t) p = true.
Proof.
  induction p as [|c p IH]; [done|].
  rewrite sapp_cons. cbn [Py.startswith]. by case_decide.
Qed.

Lemma startswith_iff s p : Py.startswith s p = true ↔ ∃ t, s = p +:+ t.
Proof.
  split.
  - revert s; induction p as [|c p IH]; intros s H; simpl in *; [by eexists|].
    destruct s as [|d s]; [done|]. case_decide; [subst|done].
    destruct (IH _ H) as [t ->]. by exists t.
  - intros [t ->]. apply startswith_sapp.
Qed.

Lemma join_app sep (a b : list string) :
  a ≠ [] → b ≠ [] → Py.join sep (a ++ b) = Py.join sep a +:+ sep +:+ Py.join sep b.
Proof.
  intros Ha Hb. induction a as [|x a IH]; [done|].
  destruct a as [|y a].
  - simpl. by destruct b.
  - change (Py.join sep ((x :: y :: a) ++ b)) with (x +:+ sep +:+ Py.join sep ((y :: a) ++ b)).
    rewrite IH by done.
    change (Py.join sep (x :: y :: a)) with (x +:+ sep +:+ Py.join sep (y :: a)).
    by rewrite !sapp_assoc.
Qed.

End string_facts.


(* ===================================================================== *)
(** * Facts about [str.count] and [str.replace]                           *)
(* ===================================================================== *)

Section count_facts.
Implicit Types s sub old new pre post : string.

Lemma sdrop_0 s : Py.sdrop 0 s = s.
Proof. by destruct s. Qed.

Lemma occurs_at_0_count sub s :
  (if Py.startswith s sub then 1 else 0)
  = if decide (occurs_at sub s 0) then 1 else 0.
Proof.
  destruct (decide (occurs_at sub s 0)) as [H|H];
    unfold occurs_at in H; rewrite sdrop_0 in H.
  - by rewrite H.
  - by destruct (Py.startswith s sub).
Qed.

Lemma length_filter_cons {A} (P : A → Prop) `{!∀ x, Decision (P x)} x (l : list A) :
  length (filter P (x :: l)) = (if decide (P x) then 1 else 0) + length (filter P l).
Proof. rewrite filter_cons. by destruct (decide (P x)). Qed.

Lemma length_filter_occurs_S sub c s (l : list nat) :
  length (filter (occurs_at sub (String c s)) (S <$> l))
  = length (filter (occurs_at sub s) l).
Proof.
  induction l as [|i l IH]; [done|].
  rewrite fmap_cons, !length_filter_cons, IH.
  destruct (decide (occurs_at sub (String c s) (S i))),
    (decide (occurs_at sub s i)); done.
Qed.

(** [occ_count] counts the matching positions. *)
Lemma occ_count_positions sub s :
  occ_count sub s
  = length (filter (occurs_at sub s) (seq 0 (S (Py.len s)))).
Proof.
  induction s as [|c s IH].
  - cbn [occ_count Py.len seq]. by rewrite length_filter_cons, occurs_at_0_count.
  - cbn [occ_count Py.len]. rewrite IH.
    change (seq 0 (S (S (Py.len s)))) with (0 :: seq 1 (S (Py.len s))).
    rewrite length_filter_cons, <-(fmap_S_seq 0), length_filter_occurs_S.
    by rewrite occurs_at_0_count.
Qed.

Lemma occ_count_empty s : occ_count "" s = S (Py.len s).
Proof. induction s as [|c s IH]; simpl; [done|]. by rewrite IH. Qed.

(** The scan finds at most as many matches as there are. *)
Lemma count_go_le sub k s : Py.count_go sub k s ≤ occ_count sub s.
Proof.
  revert k; induction s as [|c s IH]; intros k; simpl; [lia|].
  destruct k as [|k].
  - destruct (Py.startswith (String c s) sub).
    + specialize (IH (Py.len sub - 1)). lia.
    + apply IH.
  - specialize (IH k). lia.
Qed.

Lemma count_le_occ s sub : Py.count s sub ≤ occ_count sub s.
Proof.
  destruct sub as [|c sub]; [by rewrite occ_count_empty|]. apply count_go_le.
Qed.

(** The scan finds nothing exactly when there is nothing to find. *)
Lemma count_go_zero sub s : Py.count_go sub 0 s = 0 → sub ≠ "" → occ_count sub s = 0.
Proof.
  intros H Hsub. induction s as [|c s IH]; simpl in *.
  - by destruct sub.
  - destruct (Py.startswith (String c s) sub); [done|]. by apply IH.
Qed.

Lemma count_zero_iff s sub : Py.count s sub = 0 ↔ occ_count sub s = 0.
Proof.
  split.
  - destruct sub as [|c sub]; [done|]. intros H. by apply count_go_zero.
  - pose proof (count_le_occ s sub). lia.
Qed.

Lemma count_one s sub : occ_count sub s = 1 → Py.count s sub = 1.
Proof.
  intros H. pose proof (count_le_occ s sub).
  destruct (Py.count s sub) as [|[|n]] eqn:Hc; [|done|lia].
  apply count_zero_iff in Hc. lia.
Qed.

(** ** Replacing the first match *)

Lemma replace_go_spent old new k s :
  Py.replace_go old new (Some 0) k s = Py.sdrop k s.
Proof.
  revert k; induction s as [|c s IH]; intros [|k]; simpl; try done.
  specialize (IH 0). simpl in IH. destruct s; simpl in *; congruence.
Qed.

Lemma replace_first sub new pre post :
  sub ≠ "" →
  (∀ i, i < Py.len pre → ¬ occurs_at sub (pre +:+ sub +:+ post) i) →
  Py.replace (pre +:+ sub +:+ post) sub new (Some 1) = pre +:+ new +:+ post.
Proof.
  intros Hsub. unfold Py.replace. destruct sub as [|a sub]; [done|clear Hsub].
  induction pre as [|c pre IH]; intros Hfirst.
  - rewrite !sapp_nil_l, sapp_cons. cbn [Py.replace_go].
    rewrite <-sapp_cons, startswith_sapp. cbn [Py.budget_left andb].
    f_equal. cbn [Py.budget_pred fmap option_fmap option_map Py.len pred].
    rewrite replace_go_spent. replace (S (Py.len sub) - 1) with (Py.len sub) by lia.
    apply sdrop_sapp.
  - set (old := String a sub) in *. rewrite sapp_cons.
    cbn [Py.replace_go Py.budget_left andb].
    destruct (Py.startswith (String c (pre +:+ old +:+ post)) old) eqn:Hs.
    { destruct (Hfirst 0); [simpl; lia|]. unfold occurs_at.
      by rewrite sdrop_0, sapp_cons. }
    rewrite sapp_cons. f_equal. apply IH. intros i Hi Ho.
    apply (Hfirst (S i)); [simpl; lia|].
    unfold occurs_at in *. by rewrite sapp_cons.
Qed.

(** A single occurrence splits the text around it. *)
Lemma occ_count_one_split sub s :
  occ_count sub s = 1 → sub ≠ "" →
  ∃ pre post, s = pre +:+ sub +:+ post ∧
    ∀ i, i < Py.len pre → ¬ occurs_at sub s i.
Proof.
  intros H Hsub. induction s as [|c s IH]; simpl in H.
  { destruct sub; simpl in H; [done|lia]. }
  destruct (Py.startswith (String c s) sub) eqn:Hs.
  - apply startswith_iff in Hs as [post Hp]. exists "", post. split; [done|].
    simpl. lia.
  - destruct IH as (pre & post & -> & Hfirst); [done|].
    exists (String c pre), post. split; [by rewrite sapp_cons|].
    intros [|i] Hi; unfold occurs_at; cbn [Py.sdrop].
    + rewrite ?sdrop_0. by rewrite Hs.
    + apply Hfirst. simpl in Hi. lia.
Qed.

Lemma occ_count_sapp_ge new pre post : 1 ≤ occ_count new (pre +:+ new +:+ post).
Proof.
  induction pre as [|c pre IH].
  - rewrite sapp_nil_l. destruct (new +:+ post) eqn:E; simpl; rewrite <-E;
      rewrite startswith_sapp; lia.
  - rewrite sapp_cons. simpl. lia.
Qed.

(** With exactly one occurrence, [replace(.., 1)] substitutes it and
    keeps the text around it. *)
Lemma replace_single s sub new :
  occ_count sub s = 1 →
  ∃ pre post, s = pre +:+ sub +:+ post ∧
    Py.replace s sub new (Some 1) = pre +:+ new +:+ post.
Proof.
  intros H. destruct (decide (sub = "")) as [->|Hsub].
  - rewrite occ_count_empty in H. destruct s; [|done].
    exists "", "". split; [done|]. simpl. by rewrite sapp_nil_r.
  - destruct (occ_count_one_split _ _ H Hsub) as (pre & post & -> & Hfirst).
    exists pre, post. split; [done|]. by apply replace_first.
Qed.

End count_facts.
(* ===================================================================== *)
(** * Facts about the tree                                                *)
(* ===================================================================== *)

Section tree_facts.
Implicit Types root n : node.
Implicit Types p q r : list string.

Lemma lookup_path_app root p r :
  lookup_path root (p ++ r) =
    match lookup_path root p with
    | Some n => lookup_path n r
    | None => None
    end.
Proof.
  revert root; induction p as [|x p IH]; intros root; simpl; [done|].
  destruct root as [| |es]; try done. destruct (es !! x); auto.
Qed.

Lemma lookup_path_snoc root p x :
  lookup_path root (p ++ [x]) =
    match lookup_path root p with
    | Some (Dir es) => es !! x
    | _ => None
    end.
Proof.
  rewrite lookup_path_app. destruct (lookup_path root p) as [[| |es]|]; simpl; try done.
  by destruct (es !! x).
Qed.

(** Whatever lies below an existing entry lies below a directory. *)
Lemma lookup_path_prefix_dir root p r :
  r ≠ [] → is_Some (lookup_path root (p ++ r)) → is_dir_node (lookup_path root p) = true.
Proof.
  intros Hr [n Hn]. rewrite lookup_path_app in Hn.
  destruct (lookup_path root p) as [[| |es]|]; try done;
    destruct r; simpl in *; done.
Qed.

(** ** What [modify] changes *)

Lemma lookup_modify_eq f root p :
  p ≠ [] → is_dir_node (lookup_path root (removelast p)) = true →
  lookup_path (modify f p root) p = f (lookup_path root p).
Proof.
  revert root; induction p as [|x p IH]; intros root Hp Hd; [done|].
  destruct p as [|y p].
  - destruct root as [| |es]; try done. simpl.
    rewrite lookup_partial_alter_eq. destruct (es !! x); by destruct (f _).
  - destruct root as [| |es]; try done.
    change (modify f (x :: y :: p) (Dir es)) with (Dir (alter (modify f (y :: p)) x es)).
    change (removelast (x :: y :: p)) with (x :: removelast (y :: p)) in Hd.
    cbn [lookup_path] in *. rewrite lookup_alter_eq.
    destruct (es !! x) as [c|]; [|done]. simpl. apply IH; done.
Qed.

Lemma lookup_modify_below f root p r :
  p ≠ [] → is_dir_node (lookup_path root (removelast p)) = true →
  lookup_path (modify f p root) (p ++ r) =
    match f (lookup_path root p) with
    | Some n => lookup_path n r
    | None => None
    end.
Proof. intros. by rewrite lookup_path_app, lookup_modify_eq. Qed.

(** Outside the subtree at [p] the shape of every entry stays; the
    ancestors of [p] are directories before and after. *)
Lemma shape_modify_other f root p q :
  ¬ p `prefix_of` q →
  shape_of (lookup_path (modify f p root) q) = shape_of (lookup_path root q).
Proof.
  revert root q; induction p as [|x p IH]; intros root q Hpq.
  { destruct Hpq. apply prefix_nil. }
  destruct root as [| |es]; [by destruct p..|].
  destruct q as [|z q]; [by destruct p|].
  destruct p as [|y p].
  - simpl. destruct (decide (x = z)) as [->|Hne].
    + destruct Hpq. apply prefix_cons, prefix_nil.
    + by rewrite lookup_partial_alter_ne.
  - change (modify f (x :: y :: p) (Dir es)) with (Dir (alter (modify f (y :: p)) x es)).
    cbn [lookup_path]. destruct (decide (x = z)) as [->|Hne].
    + rewrite lookup_alter_eq. destruct (es !! z); [|done]. simpl.
      apply IH. intros H. apply Hpq. by apply prefix_cons.
    + by rewrite lookup_alter_ne.
Qed.

Lemma lookup_modify_other f root p q :
  ¬ p `prefix_of` q → ¬ q `prefix_of` p →
  lookup_path (modify f p root) q = lookup_path root q.
Proof.
  revert root q; induction p as [|x p IH]; intros root q Hpq Hqp.
  { destruct Hpq. apply prefix_nil. }
  destruct q as [|z q]; [destruct Hqp; apply prefix_nil|].
  destruct root as [| |es]; [by destruct p..|].
  destruct p as [|y p].
  - simpl. destruct (decide (x = z)) as [->|Hne].
    + destruct Hpq. apply prefix_cons, prefix_nil.
    + by rewrite lookup_partial_alter_ne.
  - change (modify f (x :: y :: p) (Dir es)) with (Dir (alter (modify f (y :: p)) x es)).
    cbn [lookup_path]. destruct (decide (x = z)) as [->|Hne].
    + rewrite lookup_alter_eq. destruct (es !! z); [|done]. simpl.
      apply IH; intros H; [apply Hpq|apply Hqp]; by apply prefix_cons.
    + by rewrite lookup_alter_ne.
Qed.

End tree_facts.

(* ===================================================================== *)
(** * Facts about [resolve]                                               *)
(* ===================================================================== *)

Section resolve_facts.
Implicit Types rl : list string → option string.
Implicit Types cur rest q : list string.

Lemma realpath_go_nil rl fuel cur : realpath_go rl fuel cur [] = Ok cur.
Proof. by destruct fuel. Qed.

Lemma realpath_go_cons rl fuel cur x rest :
  realpath_go rl fuel cur (x :: rest) =
    if decide (x = "" ∨ x = ".") then realpath_go rl fuel cur rest
    else if decide (x = "..") then realpath_go rl fuel (removelast cur) rest
    else if Py.contains_char "000" x then Raise embedded_null
    else match rl (cur ++ [x]) with
         | None => realpath_go rl fuel (cur ++ [x]) rest
         | Some target =>
             match fuel with
             | 0 => Raise (symlink_loop (cur ++ [x]))
             | S fuel' =>
                 match realpath_go rl fuel'
                         (if absolute (parse target) then [] else cur)
                         (parts (parse target)) with
                 | Ok cur' => realpath_go rl fuel cur' rest
                 | Raise e => Raise e
                 end
             end
         end.
Proof. by destruct fuel. Qed.

(** [resolve] only asks the tree where its links are. *)
Lemma realpath_go_ext rl rl' fuel cur rest :
  (∀ q, rl q = rl' q) →
  realpath_go rl fuel cur rest = realpath_go rl' fuel cur rest.
Proof.
  intros Hrl. revert cur rest.
  induction fuel as [|fuel IHf]; intros cur rest; revert cur;
    (induction rest as [|x rest IHr]; intros cur;
      [by rewrite !realpath_go_nil|]);
    rewrite !realpath_go_cons, <-Hrl; repeat case_match; try done;
    repeat match goal with
           | H : realpath_go rl fuel _ _ = _ |- _ => rewrite IHf in H
           end;
    repeat match goal with
           | H : ?t = _, H' : ?t = _ |- _ => rewrite H in H'; simplify_eq
           end; done.
Qed.

Lemma resolve_same_links root root' cwd p :
  same_links root root' → resolve root' cwd p = resolve root cwd p.
Proof.
  intros [Hrl Hn]. unfold resolve. rewrite Hn. by apply realpath_go_ext.
Qed.

Lemma canonical_nil rl : canonical rl [].
Proof.
  split; [constructor|]. intros q' Hq' Hne. by apply prefix_nil_inv in Hq'.
Qed.

Lemma canonical_prefix rl q q' : canonical rl q → q' `prefix_of` q → canonical rl q'.
Proof.
  intros [Hp Hl] [r ->]. split.
  - by apply Forall_app in Hp as [? _].
  - intros q'' Hq'' Hne. apply Hl; [|done]. by apply prefix_app_r.
Qed.

Lemma removelast_prefix {A} (l : list A) : removelast l `prefix_of` l.
Proof.
  destruct l as [|x l _] using rev_ind; [done|].
  rewrite removelast_last. by apply prefix_app_r.
Qed.

Lemma prefix_snoc_inv {A} (l k : list A) x :
  l `prefix_of` k ++ [x] → l `prefix_of` k ∨ l = k ++ [x].
Proof.
  intros [r Hr]. destruct r as [|y r _] using rev_ind.
  - right. by rewrite app_nil_r in Hr.
  - left. rewrite app_assoc in Hr. apply app_inj_tail in Hr as [-> _].
    by apply prefix_app_r.
Qed.

Lemma canonical_snoc rl q x :
  canonical rl q → plain x → rl (q ++ [x]) = None → canonical rl (q ++ [x]).
Proof.
  intros [Hp Hl] Hx Hrl. split.
  - apply Forall_app; split; [done|by constructor].
  - intros q' [Hq'| ->]%prefix_snoc_inv Hne; [by apply Hl|done].
Qed.

(** The walk ends at a canonical location. *)
Lemma realpath_go_canonical rl fuel cur rest q :
  canonical rl cur → realpath_go rl fuel cur rest = Ok q → canonical rl q.
Proof.
  revert cur rest q.
  induction fuel as [|fuel IHf]; intros cur rest; revert cur;
    (induction rest as [|x rest IHr]; intros cur q Hc;
      [rewrite realpath_go_nil; by intros [= <-]|]);
    rewrite realpath_go_cons; repeat case_match; try done; intros Hq;
    try (by eapply IHr; [|done]; eauto using canonical_prefix, removelast_prefix);
    try (by eapply IHr; [|done]; apply canonical_snoc; [done|unfold plain; naive_solver|done]).
  all: eapply IHr; [|done]; eapply IHf; [|done]; first [apply canonical_nil|done].
Qed.

Lemma resolve_canonical root cwd p q :
  resolve root cwd p = Ok q → canonical (readlink root) q.
Proof. apply realpath_go_canonical, canonical_nil. Qed.

End resolve_facts.

(* ===================================================================== *)
(** * Facts about [os.stat] on canonical paths                            *)
(* ===================================================================== *)

Section stat_facts.
Implicit Types root : node.
Implicit Types cur rest q : list string.

Lemma namei_go_nil root fuel cur : namei_go root fuel cur [] = Ok cur.
Proof. by destruct fuel. Qed.

Lemma namei_go_cons root fuel cur x rest :
  namei_go root fuel cur (x :: rest) =
    match lookup_path root cur with
    | Some (Dir es) =>
        if decide (x = "" ∨ x = ".") then namei_go root fuel cur rest
        else if decide (x = "..") then namei_go root fuel (removelast cur) rest
        else match es !! x with
             | None => Raise (enoent (cur ++ [x]))
             | Some (Symlink target) =>
                 match fuel with
                 | 0 => Raise (eloop (cur ++ [x]))
                 | S fuel' =>
                     namei_go root fuel'
                       (if absolute (parse target) then [] else cur)
                       (parts (parse target) ++ rest)
                 end
             | Some _ => namei_go root fuel (cur ++ [x]) rest
             end
    | Some _ => Raise (enotdir cur)
    | None => Raise (enoent cur)
    end.
Proof. by destruct fuel. Qed.

Lemma canonical_app_plain rl cur x rest :
  canonical rl (cur ++ x :: rest) →
  plain x ∧ rl (cur ++ [x]) = None ∧ canonical rl ((cur ++ [x]) ++ rest).
Proof.
  intros Hc. split_and!.
  - destruct Hc as [Hp _]. apply Forall_app in Hp as [_ Hp]. by inversion Hp.
  - apply Hc; [|by destruct cur]. rewrite (cons_middle x cur rest), app_assoc.
    by apply prefix_app_r.
  - by rewrite <-app_assoc.
Qed.

(** On a canonical path the strict walk goes straight down. *)
Lemma namei_go_canonical_ok root fuel cur rest :
  canonical (readlink root) (cur ++ rest) →
  is_Some (lookup_path root (cur ++ rest)) →
  namei_go root fuel cur rest = Ok (cur ++ rest).
Proof.
  revert cur; induction rest as [|x rest IH]; intros cur Hc Hex.
  { by rewrite namei_go_nil, app_nil_r. }
  destruct (canonical_app_plain _ _ _ _ Hc) as ((Hx1 & Hx2 & Hx3) & Hrl & Hc').
  rewrite namei_go_cons.
  assert (is_Some (lookup_path root ((cur ++ [x]) ++ rest))) as Hex'
    by by rewrite <-app_assoc.
  assert (is_Some (lookup_path root (cur ++ [x]))) as [n Hn].
  { destruct rest as [|y rest]; [by rewrite app_nil_r in Hex'|].
    pose proof (lookup_path_prefix_dir root (cur ++ [x]) (y :: rest)) as Hd.
    destruct (lookup_path root (cur ++ [x])); [by eexists|].
    by specialize (Hd ltac:(done) Hex'). }
  pose proof Hn as Hn'. rewrite lookup_path_snoc in Hn'.
  destruct (lookup_path root cur) as [[| |es]|]; try done.
  rewrite decide_False by (by intros [?|?]). rewrite decide_False by done.
  rewrite Hn'. unfold readlink in Hrl. rewrite Hn in Hrl.
  destruct n; try done; rewrite IH by done; by rewrite <-app_assoc.
Qed.

Lemma namei_go_canonical_inv root fuel cur rest q :
  canonical (readlink root) (cur ++ rest) →
  namei_go root fuel cur rest = Ok q →
  q = cur ++ rest ∧ (rest ≠ [] → is_Some (lookup_path root q)).
Proof.
  revert cur; induction rest as [|x rest IH]; intros cur Hc.
  { rewrite namei_go_nil, app_nil_r. by intros [= <-]. }
  destruct (canonical_app_plain _ _ _ _ Hc) as ((Hx1 & Hx2 & Hx3) & Hrl & Hc').
  rewrite namei_go_cons.
  destruct (lookup_path root cur) as [[| |es]|] eqn:Hcur; try done.
  rewrite decide_False by (by intros [?|?]). rewrite decide_False by done.
  unfold readlink in Hrl. rewrite lookup_path_snoc, Hcur in Hrl.
  destruct (es !! x) as [n|] eqn:Hx; [|done].
  destruct n; try done; intros Hq; apply IH in Hq as [-> Hq]; try done;
    (split; [by rewrite <-app_assoc|intros _]);
    (destruct rest as [|y rest]; [|by apply Hq]);
    rewrite app_nil_r, lookup_path_snoc, Hcur, Hx; by eexists.
Qed.

(** [os.stat] on a canonical path looks the location up. *)
Lemma stat_canonical root cwd q :
  canonical (readlink root) q →
  match lookup_path root q with
  | Some n => stat root cwd (abs q) = Ok n
  | None => ∃ e, stat root cwd (abs q) = Raise e
  end.
Proof.
  intros Hc. unfold stat, full_parts. cbn [absolute parts abs].
  destruct (lookup_path root q) as [n|] eqn:Hq.
  - rewrite (namei_go_canonical_ok root 40 [] q) by (by simpl; eauto).
    cbn [app]. by rewrite Hq.
  - destruct (namei_go root 40 [] q) as [q'|e] eqn:Hn; [|by eexists].
    apply namei_go_canonical_inv in Hn as [-> _]; [|done]. cbn [app].
    rewrite Hq. by eexists.
Qed.

Lemma exists_canonical root cwd q :
  canonical (readlink root) q →
  exists_ root cwd (abs q) = bool_decide (is_Some (lookup_path root q)).
Proof.
  intros Hc. pose proof (stat_canonical root cwd q Hc) as H. unfold exists_.
  destruct (lookup_path root q) as [n|].
  - rewrite H. by rewrite bool_decide_true by by eexists.
  - destruct H as [e ->]. rewrite bool_decide_false; [done|]. by intros [? ?].
Qed.

Lemma is_file_canonical root cwd q :
  canonical (readlink root) q →
  is_file root cwd (abs q) = is_file_node (lookup_path root q).
Proof.
  intros Hc. pose proof (stat_canonical root cwd q Hc) as H. unfold is_file.
  destruct (lookup_path root q) as [n|]; [by rewrite H|]. by destruct H as [e ->].
Qed.

Lemma is_dir_canonical root cwd q :
  canonical (readlink root) q →
  is_dir root cwd (abs q) = is_dir_node (lookup_path root q).
Proof.
  intros Hc. pose proof (stat_canonical root cwd q Hc) as H. unfold is_dir.
  destruct (lookup_path root q) as [n|]; [by rewrite H|]. by destruct H as [e ->].
Qed.

End stat_facts.

(* ===================================================================== *)
(** * Writes that leave the links alone                                   *)
(* ===================================================================== *)

Section links_facts.
Implicit Types root n : node.
Implicit Types p q r : list string.
Implicit Types es : gmap string node.

Lemma count_links_dir es :
  count_links (Dir es) = map_fold (λ _ c acc, count_links c + acc) 0 es.
Proof. done. Qed.

Lemma count_links_insert_fresh es x n :
  es !! x = None →
  count_links (Dir (<[x:=n]> es)) = count_links n + count_links (Dir es).
Proof.
  intros Hx. rewrite !count_links_dir.
  rewrite map_fold_insert_L; [done| |done]. intros; lia.
Qed.

Lemma count_links_delete es x n :
  es !! x = Some n →
  count_links (Dir es) = count_links n + count_links (Dir (delete x es)).
Proof.
  intros Hx. rewrite !count_links_dir.
  by rewrite (map_fold_delete_L _ _ x n es); [| intros; lia|].
Qed.

Lemma count_links_insert es x n :
  count_links (Dir (<[x:=n]> es)) + from_option count_links 0 (es !! x)
  = count_links n + count_links (Dir es).
Proof.
  destruct (es !! x) as [c|] eqn:Hx; cbn [from_option].
  - rewrite <-(insert_delete_eq es x n).
    rewrite count_links_insert_fresh by apply lookup_delete_eq.
    rewrite (count_links_delete es x c) by done. lia.
  - rewrite count_links_insert_fresh by done. lia.
Qed.

Lemma barren_lookup_below o r :
  barren o → r ≠ [] →
  match o with Some n => lookup_path n r | None => None end = None.
Proof. destruct o as [[| |es]|], r; simpl; try done. by intros ->. Qed.

Lemma barren_count o : barren o → from_option count_links 0 o = 0.
Proof. destruct o as [[| |es]|]; simpl; try done. by intros ->. Qed.

Lemma modify_no_parent f p root :
  is_dir_node (lookup_path root (removelast p)) = false → modify f p root = root.
Proof.
  revert root; induction p as [|x p IH]; intros root Hd; [done|].
  destruct root as [| |es]; [by destruct p..|].
  destruct p as [|y p]; [done|].
  change (modify f (x :: y :: p) (Dir es)) with (Dir (alter (modify f (y :: p)) x es)).
  change (removelast (x :: y :: p)) with (x :: removelast (y :: p)) in Hd.
  cbn [lookup_path] in Hd. f_equal. apply map_eq; intros z.
  destruct (decide (x = z)) as [<-|]; [|by rewrite lookup_alter_ne].
  rewrite lookup_alter_eq. destruct (es !! x) as [c|]; [|done].
  cbn [fmap option_fmap option_map]. by rewrite IH.
Qed.

(** Replacing a barren entry by a barren entry keeps every link where it
    is, and their number. *)
Lemma count_links_modify f p root :
  barren (lookup_path root p) → barren (f (lookup_path root p)) →
  count_links (modify f p root) = count_links root.
Proof.
  revert root; induction p as [|x p IH]; intros root Hold Hnew; [done|].
  destruct root as [| |es]; [by destruct p..|].
  destruct p as [|y p].
  - cbn [modify lookup_path] in *.
    assert (lookup_path (Dir es) [x] = es !! x) as Hl
      by (simpl; by destruct (es !! x)).
    cbn [lookup_path] in Hold, Hnew. 
    replace (match es !! x with Some c => Some c | None => None end)
      with (es !! x) in * by by destruct (es !! x).
    pose proof (barren_count _ Hold) as Ho. pose proof (barren_count _ Hnew) as Hn.
    destruct (f (es !! x)) as [n|] eqn:Hf.
    + replace (partial_alter f x es) with (<[x:=n]> es).
      { pose proof (count_links_insert es x n) as H.
        destruct (es !! x); cbn [from_option] in *; lia. }
      apply map_eq; intros z. destruct (decide (x = z)) as [<-|].
      * by rewrite lookup_insert_eq, lookup_partial_alter_eq.
      * by rewrite lookup_insert_ne, lookup_partial_alter_ne.
    + replace (partial_alter f x es) with (delete x es).
      { destruct (es !! x) as [c|] eqn:Hx.
        - rewrite (count_links_delete es x c) by done. cbn [from_option] in *. lia.
        - by rewrite delete_id. }
      apply map_eq; intros z. destruct (decide (x = z)) as [<-|].
      * by rewrite lookup_delete_eq, lookup_partial_alter_eq.
      * by rewrite lookup_delete_ne, lookup_partial_alter_ne.
  - change (modify f (x :: y :: p) (Dir es)) with (Dir (alter (modify f (y :: p)) x es)).
    cbn [lookup_path] in Hold, Hnew.
    destruct (es !! x) as [c|] eqn:Hx.
    + replace (alter (modify f (y :: p)) x es) with (<[x:=modify f (y :: p) c]> es).
      { pose proof (count_links_insert es x (modify f (y :: p) c)) as H.
        rewrite Hx in H. cbn [from_option] in H. rewrite IH in H by done. lia. }
      apply map_eq; intros z. destruct (decide (x = z)) as [<-|].
      * by rewrite lookup_insert_eq, lookup_alter_eq, Hx.
      * by rewrite lookup_insert_ne, lookup_alter_ne.
    + f_equal. f_equal. apply map_eq; intros z. destruct (decide (x = z)) as [<-|].
      * by rewrite lookup_alter_eq, Hx.
      * by rewrite lookup_alter_ne.
Qed.

Lemma readlink_shape root q :
  readlink root q =
    match shape_of (lookup_path root q) with SLink t => Some t | _ => None end.
Proof. unfold readlink. by destruct (lookup_path root q) as [[]|]. Qed.

Lemma readlink_modify f p root q :
  barren (lookup_path root p) → barren (f (lookup_path root p)) →
  readlink (modify f p root) q = readlink root q.
Proof.
  intros Hold Hnew.
  destruct (is_dir_node (lookup_path root (removelast p))) eqn:Hd;
    [|by rewrite modify_no_parent].
  destruct (decide (p = [])) as [->|Hp]; [done|].
  destruct (decide (p `prefix_of` q)) as [[r ->]|Hpq];
    [|by rewrite !readlink_shape, shape_modify_other].
  unfold readlink. rewrite lookup_modify_below by done.
  rewrite (lookup_path_app root p r).
  destruct (decide (r = [])) as [->|Hr].
  - destruct (f (lookup_path root p)) as [[]|], (lookup_path root p) as [[]|];
      simpl in *; done.
  - pose proof (barren_lookup_below _ r Hold Hr) as ->.
    by pose proof (barren_lookup_below _ r Hnew Hr) as ->.
Qed.

Lemma same_links_refl root : same_links root root.
Proof. by split. Qed.

Lemma same_links_trans (t1 t2 t3 : node) :
  same_links t1 t2 → same_links t2 t3 → same_links t1 t3.
Proof.
  intros [H1 H2] [H3 H4]. split; [|congruence]. intros q. by rewrite H3, H1.
Qed.

Lemma same_links_modify f p root :
  barren (lookup_path root p) → barren (f (lookup_path root p)) →
  same_links root (modify f p root).
Proof.
  intros Hold Hnew. split; [intros q; by apply readlink_modify|].
  by apply count_links_modify.
Qed.

Lemma canonical_same_links root root' q :
  same_links root root' → canonical (readlink root) q → canonical (readlink root') q.
Proof.
  intros [Hrl _] [Hp Hl]. split; [done|]. intros q' ? ?. rewrite Hrl; auto.
Qed.

End links_facts.

(* ===================================================================== *)
(** * Facts about the system calls                                        *)
(* ===================================================================== *)

Section syscall_facts.
Implicit Types root : node.
Implicit Types q : list string.

Lemma canonical_last_plain rl q x : canonical rl q → last q = Some x → plain x.
Proof.
  intros [Hp _] Hx. rewrite Forall_forall in Hp. apply Hp.
  rewrite last_lookup in Hx. by eapply list_elem_of_lookup_2.
Qed.

Lemma canonical_removelast rl q : canonical rl q → canonical rl (removelast q).
Proof. intros. eapply canonical_prefix; [done|apply removelast_prefix]. Qed.

Lemma removelast_snoc_last {A} (l : list A) x : last l = Some x → removelast l ++ [x] = l.
Proof.
  destruct l as [|y l _] using rev_ind; [done|].
  rewrite last_snoc, removelast_last. by intros [= ->].
Qed.

(** On a canonical path, [locate] finds the path itself, provided its
    parent is a directory. *)
Lemma locate_canonical root cwd q l :
  canonical (readlink root) q → q ≠ [] →
  OS.locate root cwd (abs q) = Ok l →
  l = Some q ∧ is_dir_node (lookup_path root (removelast q)) = true.
Proof.
  intros Hc Hq. unfold OS.locate. cbn [parts abs].
  destruct (last q) as [x|] eqn:Hx; [|by destruct q using rev_ind; [|rewrite last_snoc in Hx]].
  destruct (canonical_last_plain _ _ _ Hc Hx) as (_ & _ & Hdd).
  rewrite decide_False by done.
  unfold OS.locate_parent, full_parts. cbn [absolute parts abs]. unfold_monad.
  destruct (namei_go root 40 [] (removelast q)) as [d|] eqn:Hd; [|done].
  apply namei_go_canonical_inv in Hd as [-> _];
    [|by apply canonical_removelast].
  cbn [app]. destruct (lookup_path root (removelast q)) as [[| |es]|]; try done.
  intros [= <-]. by rewrite removelast_snoc_last.
Qed.

Lemma locate_canonical_ok root cwd q :
  canonical (readlink root) q → q ≠ [] →
  is_dir_node (lookup_path root (removelast q)) = true →
  OS.locate root cwd (abs q) = Ok (Some q).
Proof.
  intros Hc Hq Hdir. unfold OS.locate. cbn [parts abs].
  destruct (last q) as [x|] eqn:Hx; [|by destruct q using rev_ind; [|rewrite last_snoc in Hx]].
  destruct (canonical_last_plain _ _ _ Hc Hx) as (_ & _ & Hdd).
  rewrite decide_False by done.
  unfold OS.locate_parent, full_parts. cbn [absolute parts abs]. unfold_monad.
  rewrite (namei_go_canonical_ok root 40 [] (removelast q)); cbn [app].
  - destruct (lookup_path root (removelast q)) as [[| |es]|]; try done.
    by rewrite removelast_snoc_last.
  - by apply canonical_removelast.
  - by destruct (lookup_path root (removelast q)).
Qed.

(** ** Creating directories and writing files keeps the links *)

Lemma mkdir_same_links root cwd p root' :
  OS.mkdir root cwd p = Ok root' → same_links root root'.
Proof.
  unfold OS.mkdir. unfold_monad.
  destruct (OS.locate root cwd p) as [[q|]|]; try done.
  destruct (lookup_path root q) eqn:Hq; [done|]. intros [= <-].
  apply same_links_modify; by rewrite ?Hq.
Qed.

Lemma mkdir_exist_ok_same_links root cwd p root' :
  OS.mkdir_exist_ok root cwd p = Ok root' → same_links root root'.
Proof.
  unfold OS.mkdir_exist_ok.
  destruct (OS.mkdir root cwd p) eqn:Hm.
  - intros [= <-]. by eapply mkdir_same_links.
  - case_match; [|done]. intros [= <-]. apply same_links_refl.
Qed.

Lemma mkdir_parents_go_same_links n root cwd p root' :
  OS.mkdir_parents_go n root cwd p = Ok root' → same_links root root'.
Proof.
  revert root p root'; induction n as [|n IH]; intros root p root'; simpl;
    (destruct (OS.mkdir root cwd p) eqn:Hm;
      [intros [= <-]; by eapply mkdir_same_links|]);
    repeat case_match; try done;
    try (intros [= <-]; apply same_links_refl).
  unfold_monad.
  destruct (OS.mkdir_parents_go n root cwd (parent p)) as [root1|] eqn:H1; [|done].
  intros H2. eapply same_links_trans; [by eapply IH|by eapply mkdir_exist_ok_same_links].
Qed.

Lemma open_write_go_same_links fuel root cwd p content root' :
  OS.open_write_go fuel root cwd p content = Ok root' → same_links root root'.
Proof.
  revert cwd p; induction fuel as [|fuel IH]; intros cwd p; simpl; unfold_monad;
    (destruct (OS.locate root cwd p) as [[q|]|]; try done);
    (destruct (lookup_path root q) as [[c|t|es]|] eqn:Hq; try done);
    try (intros [= <-]; apply same_links_modify; by rewrite ?Hq).
  apply IH.
Qed.

(** ** Writing at a canonical location *)

Lemma open_write_canonical root cwd q content root' :
  canonical (readlink root) q →
  OS.open_write root cwd (abs q) content = Ok root' →
  q ≠ [] ∧ is_dir_node (lookup_path root (removelast q)) = true ∧
  root' = modify (λ _, Some (File content)) q root ∧
  lookup_path root' q = Some (File content).
Proof.
  intros Hc. unfold OS.open_write. simpl. unfold_monad.
  destruct (OS.locate root cwd (abs q)) as [l|] eqn:Hl; [|done].
  destruct (decide (q = [])) as [->|Hne].
  { unfold OS.locate in Hl. simpl in Hl. by repeat case_match. }
  apply locate_canonical in Hl as [-> Hd]; [|done..].
  assert (readlink root q = None) as Hrl by by apply Hc.
  unfold readlink in Hrl.
  destruct (lookup_path root q) as [[c|t|es]|] eqn:Hq; try done;
    intros [= <-]; split_and!; try done; by rewrite lookup_modify_eq.
Qed.

Lemma read_bytes_canonical root cwd q content :
  canonical (readlink root) q →
  lookup_path root q = Some (File content) →
  OS.read_bytes root cwd (abs q) = Ok content.
Proof.
  intros Hc Hq. unfold OS.read_bytes. unfold_monad.
  pose proof (stat_canonical root cwd q Hc) as H. rewrite Hq in H. by rewrite H.
Qed.

(** Text without a carriage return is read as it was written. *)
Lemma universal_newlines_id s :
  Py.contains_char "013" s = false → OS.universal_newlines s = s.
Proof.
  unfold OS.universal_newlines. induction s as [|c s IH]; [done|]. simpl.
  destruct (decide ("013"%char = c)) as [<-|Hc]; [done|]. intros Hs.
  rewrite decide_False by done.
  destruct (decide (c = "010"%char)) as [->|]; by rewrite IH.
Qed.

End syscall_facts.
(* ===================================================================== *)
(** * The path guard                                                      *)
(* ===================================================================== *)

Section path_guard.

(** Containment of locations implies the textual prefix the guard tests. *)
Lemma str_abs_prefix (b t : list string) :
  b `prefix_of` t → Py.startswith (str (abs t)) (str (abs b)) = true.
Proof.
  intros [r ->]. unfold str, abs; simpl. apply startswith_iff.
  destruct b as [|x b]; [by eexists|].
  destruct r as [|y r].
  - exists "". by rewrite app_nil_r, sapp_nil_r.
  - exists ("/" +:+ Py.join "/" (y :: r)). by rewrite join_app.
Qed.

(** The guard reads the state and never changes it. *)
Lemma get_safe_path_state path_str s : (_get_safe_path path_str s).2 = s.
Proof. unfold _get_safe_path, path_resolve. unfold_monad. crunch. Qed.

(** What the guard computes, in terms of the two resolutions. *)
Lemma get_safe_path_eq path_str s :
  (_get_safe_path path_str s).1 =
    let w := world s in
    match resolve (fs w) (cwd w) (joinpath (project_dir (self s)) (parse path_str)) with
    | Raise e => Raise e
    | Ok t =>
        match resolve (fs w) (cwd w) (project_dir (self s)) with
        | Raise e => Raise e
        | Ok b => if Py.startswith (str (abs t)) (str (abs b))
                  then Ok (abs t) else Raise access_denied
        end
    end.
Proof. unfold _get_safe_path, path_resolve. unfold_monad. crunch. Qed.

(** A path that resolves inside the project directory passes the guard,
    which returns its canonical form. *)
Lemma get_safe_path_inside path_str s t b :
  resolve (fs (world s)) (cwd (world s))
    (joinpath (project_dir (self s)) (parse path_str)) = Ok t →
  resolve (fs (world s)) (cwd (world s)) (project_dir (self s)) = Ok b →
  b `prefix_of` t →
  _get_safe_path path_str s = (Ok (abs t), s).
Proof.
  intros Ht Hb Hpre. apply injective_projections; [|apply get_safe_path_state].
  rewrite get_safe_path_eq. cbv zeta. by rewrite Ht, Hb, str_abs_prefix.
Qed.

(** When the guard refuses, the path does resolve outside. *)
Lemma get_safe_path_denied path_str s t b :
  resolve (fs (world s)) (cwd (world s))
    (joinpath (project_dir (self s)) (parse path_str)) = Ok t →
  resolve (fs (world s)) (cwd (world s)) (project_dir (self s)) = Ok b →
  (_get_safe_path path_str s).1 = Raise access_denied →
  ¬ b `prefix_of` t.
Proof.
  intros Ht Hb Hg Hpre. rewrite (get_safe_path_inside _ _ _ _ Ht Hb Hpre) in Hg.
  discriminate.
Qed.

End path_guard.

(* ===================================================================== *)
(** * Theorems on the path guard                                          *)
(* ===================================================================== *)

(** C1: the guard compares the text of the two canonical paths, so a
    sibling of the project directory whose name extends the project
    directory's name is let through.  With project directory [/ws/run], the
    path [../run2/secret.txt] resolves to [/ws/run2/secret.txt], outside
    [/ws/run], and [_get_safe_path] returns it where [PermissionError] was
    due. *)
Theorem C1_guard_lets_sibling_through :
  let s := Demo.after_acquire in
  let w := world s in
  resolve (fs w) (cwd w) (project_dir (self s)) = Ok ["ws"; "run"] ∧
  resolve (fs w) (cwd w) (joinpath (project_dir (self s)) (parse "../run2/secret.txt"))
    = Ok ["ws"; "run2"; "secret.txt"] ∧
  ¬ ["ws"; "run"] `prefix_of` ["ws"; "run2"; "secret.txt"] ∧
  _get_safe_path "../run2/secret.txt" s = (Ok (abs ["ws"; "run2"; "secret.txt"]), s) ∧
  read_file "../run2/secret.txt" s = (Ok (PContent "s3cr3t"), s).
Proof.
  repeat split; try (vm_compute; reflexivity).
  intros [k Hk]. discriminate Hk.
Qed.

(* ===================================================================== *)
(** * Theorems on the decorator                                           *)
(* ===================================================================== *)

Lemma require_container_none func s :
  container (self s) = None →
  require_container func s = (Ok (PError no_container_msg), s).
Proof. intros H. unfold require_container. unfold_monad. by rewrite H. Qed.

Lemma require_container_some func s c :
  container (self s) = Some c →
  require_container func s =
    match func s with
    | (Raise e, s') => (Ok (PError (str_of_exn e)), s')
    | r => r
    end.
Proof. intros H. unfold require_container. unfold_monad. by rewrite H. Qed.

(** Every decorated operation fails fast without a container: it returns
    the error payload and leaves the file system, the daemon and the
    orchestrator as they were. *)
Lemma decorated_fail_fast op s :
  is_delete op = false →
  container (self s) = None →
  perform op s = (Ok (PError no_container_msg), s).
Proof.
  intros Hop Hc. destruct op; try discriminate Hop;
    by apply require_container_none.
Qed.

(** C2: [delete_item] is the one public operation without the decorator.
    On an orchestrator that never acquired a container, [delete_item "x"]
    does not return the error payload: the attribute access on [None]
    raises [AttributeError], which escapes the method. *)
Theorem C2_delete_item_raises_without_container :
  container (self Demo.before_acquire) = None ∧
  perform (OpDelete "x") Demo.before_acquire
    = (Raise (Exn AttributeError "'NoneType' object has no attribute 'exec_run'"),
       Demo.before_acquire) ∧
  perform (OpDelete "x") Demo.before_acquire
    ≠ (Ok (PError no_container_msg), Demo.before_acquire).
Proof. repeat split. intros H. discriminate H. Qed.


(* ===================================================================== *)
(** * Running the methods                                                 *)
(* ===================================================================== *)

Section method_facts.
Implicit Types s : State.

(** The guard, taken apart. *)
Lemma get_safe_path_run path_str s :
  _get_safe_path path_str s = ((_get_safe_path path_str s).1, s).
Proof. rewrite <-(get_safe_path_state path_str s) at 3. by destruct (_get_safe_path _ _). Qed.

Lemma get_safe_path_ok path_str s tp :
  (_get_safe_path path_str s).1 = Ok tp →
  ∃ t b,
    tp = abs t ∧
    resolve (fs (world s)) (cwd (world s))
      (joinpath (project_dir (self s)) (parse path_str)) = Ok t ∧
    resolve (fs (world s)) (cwd (world s)) (project_dir (self s)) = Ok b ∧
    Py.startswith (str (abs t)) (str (abs b)) = true.
Proof.
  rewrite get_safe_path_eq. cbv zeta. intros H.
  destruct (resolve _ _ (joinpath _ _)) as [t|]; [|done].
  destruct (resolve _ _ (project_dir _)) as [b|]; [|done].
  destruct (Py.startswith _ _) eqn:Hs; [|done].
  exists t, b. by simplify_eq.
Qed.

(** A payload that is not an error comes out of the decorated body. *)
Lemma require_container_inv func s r s' :
  (∀ msg, r ≠ PError msg) →
  require_container func s = (Ok r, s') →
  is_Some (container (self s)) ∧ func s = (Ok r, s').
Proof.
  intros Hr. unfold require_container. unfold_monad.
  destruct (container (self s)) as [c|];
    [|intros [= <- _]; by destruct (Hr no_container_msg)].
  destruct (func s) as [[r'|e] s1]; [by intros [= <- <-]; eauto|].
  intros [= <- _]; by destruct (Hr (str_of_exn e)).
Qed.

Lemma path_mkdir_parents_run p s :
  path_mkdir_parents p s =
    match OS.mkdir_parents (fs (world s)) (cwd (world s)) p with
    | Ok t => (Ok (), with_fs t s)
    | Raise e => (Raise e, s)
    end.
Proof. unfold path_mkdir_parents, update_fs. unfold_monad. by case_match. Qed.

Lemma write_text_run p content s :
  write_text p content s =
    match OS.open_write (fs (world s)) (cwd (world s)) p content with
    | Ok t => (Ok (), with_fs t s)
    | Raise e => (Raise e, s)
    end.
Proof. unfold write_text, update_fs. unfold_monad. by case_match. Qed.

Lemma read_text_run p s :
  read_text p s =
    match OS.read_bytes (fs (world s)) (cwd (world s)) p with
    | Ok b => (Ok (OS.universal_newlines b), s)
    | Raise e => (Raise e, s)
    end.
Proof. unfold read_text. unfold_monad. by case_match. Qed.

(** Reading a file that sits at the canonical location the guard returns. *)
Lemma read_file_at path s c t b content :
  container (self s) = Some c →
  resolve (fs (world s)) (cwd (world s))
    (joinpath (project_dir (self s)) (parse path)) = Ok t →
  resolve (fs (world s)) (cwd (world s)) (project_dir (self s)) = Ok b →
  Py.startswith (str (abs t)) (str (abs b)) = true →
  lookup_path (fs (world s)) t = Some (File content) →
  read_file path s = (Ok (PContent (OS.universal_newlines content)), s).
Proof.
  intros Hc Ht Hb Hpre Hf. unfold read_file.
  rewrite (require_container_some _ _ _ Hc). unfold_monad.
  rewrite get_safe_path_run, get_safe_path_eq. cbv zeta. rewrite Ht, Hb, Hpre.
  pose proof (resolve_canonical _ _ _ _ Ht) as Hcan.
  unfold path_is_file. unfold_monad.
  rewrite is_file_canonical, Hf by done. cbn [is_file_node negb].
  rewrite read_text_run, (read_bytes_canonical _ _ _ content) by done.
  done.
Qed.

End method_facts.

(* ===================================================================== *)
(** * Theorems on writing and reading                                     *)
(* ===================================================================== *)

(** C5, as amended: for every path and every content without a carriage
    return, if [write(path, "file", content)] succeeds, then [read(path)]
    returns exactly [content].  (The content may hold newlines and pipe
    characters; a write succeeds only with a container acquired and a path
    the guard lets through.) *)
Theorem C5_write_then_read path content s msg s' :
  Py.contains_char "013" content = false →
  write_file_folder path "file" (Some content) s = (Ok (PStatus msg), s') →
  read_file path s' = (Ok (PContent content), s').
Proof.
  intros Hcr Hw. unfold write_file_folder in Hw.
  apply require_container_inv in Hw as [[c Hc] Hw]; [|done].
  unfold_monad. rewrite get_safe_path_run in Hw.
  destruct (_get_safe_path path s).1 as [tp|] eqn:Hg; [|done].
  apply get_safe_path_ok in Hg as (t & b & -> & Ht & Hb & Hpre).
  rewrite bool_decide_false, bool_decide_true in Hw by done.
  rewrite path_mkdir_parents_run in Hw.
  destruct (OS.mkdir_parents _ _ _) as [t1|] eqn:Hmk; [|done].
  rewrite write_text_run in Hw. cbn [world with_fs fs cwd set_fs] in Hw.
  replace (if bool_decide (content = "") then "" else content) with content in Hw
    by (case_bool_decide; by subst).
  destruct (OS.open_write t1 _ _ _) as [t2|] eqn:Hop; [|done].
  injection Hw as <- <-.
  assert (same_links (fs (world s)) t1) as Hl1
    by by eapply mkdir_parents_go_same_links.
  assert (same_links t1 t2) as Hl2 by by eapply open_write_go_same_links.
  pose proof (same_links_trans _ _ _ Hl1 Hl2) as Hl.
  pose proof (resolve_canonical _ _ _ _ Ht) as Hcan.
  apply (canonical_same_links _ _ _ Hl1) in Hcan.
  apply (open_write_canonical _ _ _ _ _ Hcan) in Hop as (_ & _ & _ & Hf).
  rewrite <-(universal_newlines_id content Hcr) at 1.
  eapply read_file_at; cbn [with_fs self world fs cwd set_fs]; try done;
    by rewrite (resolve_same_links _ _ _ _ Hl).
Qed.

Lemma C5_write_then_read_witness :
  let s := Demo.after_acquire in
  let s' := (write_file_folder "notes/a.txt" "file" (Some Demo.two_lines) s).2 in
  Py.contains_char "013" Demo.two_lines = false ∧
  write_file_folder "notes/a.txt" "file" (Some Demo.two_lines) s
    = (Ok (PStatus "File notes/a.txt created"), s') ∧
  read_file "notes/a.txt" s' = (Ok (PContent Demo.two_lines), s').
Proof.
  assert (Py.contains_char "013" Demo.two_lines = false) as H1
    by (vm_compute; reflexivity).
  assert (write_file_folder "notes/a.txt" "file" (Some Demo.two_lines) Demo.after_acquire
          = (Ok (PStatus "File notes/a.txt created"),
             (write_file_folder "notes/a.txt" "file" (Some Demo.two_lines)
                Demo.after_acquire).2)) as H2
    by (vm_compute; reflexivity).
  exact (conj H1 (conj H2 (C5_write_then_read _ _ _ _ _ H1 H2))).
Defined.

(** C5 as stated fails for a content with a carriage return: [a.txt]
    resolves inside the project directory and the write succeeds, but the
    file is read back in text mode, where ["\r"] becomes ["\n"]. *)
Lemma C5_carriage_return_not_preserved :
  let s := Demo.after_acquire in
  let w := world s in
  let s' := (write_file_folder "a.txt" "file" (Some Demo.with_cr) s).2 in
  resolve (fs w) (cwd w) (joinpath (project_dir (self s)) (parse "a.txt"))
    = Ok ["ws"; "run"; "a.txt"] ∧
  resolve (fs w) (cwd w) (project_dir (self s)) = Ok ["ws"; "run"] ∧
  (write_file_folder "a.txt" "file" (Some Demo.with_cr) s).1
    = Ok (PStatus "File a.txt created") ∧
  (read_file "a.txt" s').1 = Ok (PContent ("a" +:+ String "010" "b")) ∧
  (read_file "a.txt" s').1 ≠ Ok (PContent Demo.with_cr).
Proof. split_and!; try (vm_compute; reflexivity). vm_compute. by intros [=]. Qed.

(* ===================================================================== *)
(** * Theorems on block replacement                                       *)
(* ===================================================================== *)

Section replace_code_facts.
Implicit Types s : State.

(** What a successful [read_file] tells about the state. *)
Lemma read_file_inv path s content s' :
  read_file path s = (Ok (PContent content), s') →
  s' = s ∧
  ∃ c t b raw,
    container (self s) = Some c ∧
    resolve (fs (world s)) (cwd (world s))
      (joinpath (project_dir (self s)) (parse path)) = Ok t ∧
    resolve (fs (world s)) (cwd (world s)) (project_dir (self s)) = Ok b ∧
    Py.startswith (str (abs t)) (str (abs b)) = true ∧
    lookup_path (fs (world s)) t = Some (File raw) ∧
    content = OS.universal_newlines raw.
Proof.
  intros Hr. unfold read_file in Hr.
  apply require_container_inv in Hr as [[c Hc] Hr]; [|done].
  unfold_monad. rewrite get_safe_path_run in Hr.
  destruct (_get_safe_path path s).1 as [tp|] eqn:Hg; [|done].
  apply get_safe_path_ok in Hg as (t & b & -> & Ht & Hb & Hpre).
  pose proof (resolve_canonical _ _ _ _ Ht) as Hcan.
  unfold path_is_file in Hr. unfold_monad.
  rewrite is_file_canonical in Hr by done.
  destruct (lookup_path (fs (world s)) t) as [[raw| |]|] eqn:Hf; try done.
  cbn [is_file_node negb] in Hr.
  rewrite read_text_run, (read_bytes_canonical _ _ _ raw) in Hr by done.
  injection Hr as <- <-. split; [done|]. by exists c, t, b, raw.
Qed.

(** [replace_code] on a file that [read_file] can read, up to the write. *)
Lemma replace_code_run path search repl s content t :
  read_file path s = (Ok (PContent content), s) →
  resolve (fs (world s)) (cwd (world s))
    (joinpath (project_dir (self s)) (parse path)) = Ok t →
  replace_code path search repl s =
    if bool_decide (Py.count content search = 0) then (Ok (PError no_match_msg), s)
    else if bool_decide (1 < Py.count content search)
    then (Ok (PError (ambiguous_msg (Py.count content search))), s)
    else match OS.open_write (fs (world s)) (cwd (world s)) (abs t)
                 (Py.replace content search repl (Some 1)) with
         | Ok t' => (Ok (PStatus replaced_msg), with_fs t' s)
         | Raise e => (Ok (PError (str_of_exn e)), s)
         end.
Proof.
  intros Hr Ht.
  apply read_file_inv in Hr as (_ & c & t' & b & raw & Hc & Ht' & Hb & Hpre & Hf & ->).
  rewrite Ht in Ht'. injection Ht' as <-.
  pose proof (resolve_canonical _ _ _ _ Ht) as Hcan.
  unfold replace_code. rewrite (require_container_some _ _ _ Hc). unfold_monad.
  rewrite get_safe_path_run, get_safe_path_eq. cbv zeta. rewrite Ht, Hb, Hpre.
  unfold path_is_file. unfold_monad.
  rewrite is_file_canonical, Hf by done. cbn [is_file_node negb].
  rewrite read_text_run, (read_bytes_canonical _ _ _ raw) by done.
  repeat case_bool_decide; try done.
  rewrite write_text_run. by destruct (OS.open_write _ _ _ _).
Qed.

(** No occurrence: [NoMatch], and nothing is touched. *)
Lemma replace_code_no_match path search repl s content :
  read_file path s = (Ok (PContent content), s) →
  occ_count search content = 0 →
  replace_code path search repl s = (Ok (PError no_match_msg), s).
Proof.
  intros Hr Hocc.
  destruct (read_file_inv _ _ _ _ Hr) as (_ & c & t & b & raw & _ & Ht & _).
  rewrite (replace_code_run _ _ _ _ _ _ Hr Ht).
  apply count_zero_iff in Hocc. by rewrite bool_decide_true.
Qed.

(** More than one match of the left-to-right scan: [AmbiguousMatch], and
    nothing is touched. *)
Lemma replace_code_ambiguous path search repl s content :
  read_file path s = (Ok (PContent content), s) →
  1 < Py.count content search →
  replace_code path search repl s
    = (Ok (PError (ambiguous_msg (Py.count content search))), s).
Proof.
  intros Hr Hocc.
  destruct (read_file_inv _ _ _ _ Hr) as (_ & c & t & b & raw & _ & Ht & _).
  rewrite (replace_code_run _ _ _ _ _ _ Hr Ht).
  rewrite bool_decide_false by lia. by rewrite bool_decide_true.
Qed.

Lemma contains_char_sapp c a b :
  Py.contains_char c (a +:+ b) = Py.contains_char c a || Py.contains_char c b.
Proof.
  induction a as [|d a IH]; [done|]. rewrite sapp_cons. simpl.
  by destruct (decide (c = d)).
Qed.

Lemma universal_newlines_go_no_cr f (txt : string) :
  Py.contains_char "013" (OS.universal_newlines_go f txt) = false.
Proof.
  revert f; induction txt as [|c txt IH]; intros f; [done|]. simpl.
  repeat case_decide; simpl; try case_match; simpl; rewrite ?IH; try done;
    by rewrite decide_False by done.
Qed.

(** One occurrence: it is replaced, the text around it stays, and the
    result is what the file holds. *)
Lemma replace_code_single path search repl s content msg s' :
  read_file path s = (Ok (PContent content), s) →
  occ_count search content = 1 →
  replace_code path search repl s = (Ok (PStatus msg), s') →
  ∃ pre post, content = pre +:+ search +:+ post ∧
    read_file path s'
      = (Ok (PContent (OS.universal_newlines (pre +:+ repl +:+ post))), s').
Proof.
  intros Hr Hocc Hrep.
  destruct (read_file_inv _ _ _ _ Hr)
    as (_ & c & t & b & raw & Hc & Ht & Hb & Hpre & Hf & Hcontent).
  rewrite (replace_code_run _ _ _ _ _ _ Hr Ht) in Hrep.
  pose proof (count_one _ _ Hocc) as Hcount. rewrite Hcount in Hrep.
  rewrite !bool_decide_false in Hrep by lia.
  destruct (OS.open_write _ _ _ _) as [t'|] eqn:Hop; [|done].
  injection Hrep as <- <-.
  destruct (replace_single content search repl Hocc) as (pre & post & Hsplit & Hnew).
  exists pre, post. split; [done|]. rewrite Hnew in Hop.
  pose proof (resolve_canonical _ _ _ _ Ht) as Hcan.
  pose proof (open_write_go_same_links _ _ _ _ _ _ Hop) as Hl.
  apply (open_write_canonical _ _ _ _ _ Hcan) in Hop as (_ & _ & _ & Hf').
  eapply read_file_at; cbn [with_fs self world fs cwd set_fs]; try done;
    by rewrite (resolve_same_links _ _ _ _ Hl).
Qed.

End replace_code_facts.

(** C3: the uniqueness check counts with [str.count], which passes over
    the characters of a match before it looks for the next one, so
    occurrences that overlap are counted once.  In a file holding [aaa]
    the block [aa] occurs twice, at positions 0 and 1; [replace_code] does
    not answer [AmbiguousMatch] but rewrites the file to [Xa]. *)
Theorem C3_overlapping_occurrences_not_ambiguous :
  let s := Demo.with_file "f.txt" "aaa" in
  let s' := (replace_code "f.txt" "aa" "X" s).2 in
  read_file "f.txt" s = (Ok (PContent "aaa"), s) ∧
  occ_count "aa" "aaa" = 2 ∧
  occurs_at "aa" "aaa" 0 ∧ occurs_at "aa" "aaa" 1 ∧
  Py.count "aaa" "aa" = 1 ∧
  (replace_code "f.txt" "aa" "X" s).1 = Ok (PStatus replaced_msg) ∧
  read_file "f.txt" s' = (Ok (PContent "Xa"), s').
Proof. split_and!; vm_compute; reflexivity. Qed.

(** C4, as amended: for every file content with exactly one occurrence of
    [search_block], say [content = pre + search_block + post], and every
    [replace_block] without a carriage return, after a successful
    [replace_block] the file reads [pre + replace_block + post]: that one
    occurrence is substituted and the text around it is kept, so the
    result contains at least one occurrence of [replace_block]. *)
Theorem C4_single_occurrence_substituted path search repl s content msg s' :
  read_file path s = (Ok (PContent content), s) →
  occ_count search content = 1 →
  Py.contains_char "013" repl = false →
  replace_code path search repl s = (Ok (PStatus msg), s') →
  ∃ pre post, content = pre +:+ search +:+ post ∧
    read_file path s' = (Ok (PContent (pre +:+ repl +:+ post)), s') ∧
    1 ≤ occ_count repl (pre +:+ repl +:+ post).
Proof.
  intros Hr Hocc Hcr Hrep.
  destruct (replace_code_single _ _ _ _ _ _ _ Hr Hocc Hrep) as (pre & post & Hs & Hread).
  exists pre, post. split_and!; [done| |apply occ_count_sapp_ge].
  rewrite universal_newlines_id in Hread; [done|].
  destruct (read_file_inv _ _ _ _ Hr) as (_ & _ & _ & _ & raw & _ & _ & _ & _ & _ & Hraw).
  pose proof (universal_newlines_go_no_cr false raw) as Hno.
  fold (OS.universal_newlines raw) in Hno. rewrite <-Hraw, Hs in Hno.
  rewrite !contains_char_sapp in Hno. rewrite !contains_char_sapp, Hcr.
  destruct (Py.contains_char "013" pre), (Py.contains_char "013" post);
    simpl in *; try done.
  all: by destruct (Py.contains_char "013" search).
Qed.

Lemma C4_single_occurrence_substituted_witness :
  let s := Demo.with_file "f.txt" "let x = 1;" in
  let s' := (replace_code "f.txt" "x = 1" "y = 2" s).2 in
  read_file "f.txt" s = (Ok (PContent "let x = 1;"), s) ∧
  occ_count "x = 1" "let x = 1;" = 1 ∧
  Py.contains_char "013" "y = 2" = false ∧
  replace_code "f.txt" "x = 1" "y = 2" s = (Ok (PStatus replaced_msg), s') ∧
  ∃ pre post, "let x = 1;" = pre +:+ "x = 1" +:+ post ∧
    read_file "f.txt" s' = (Ok (PContent (pre +:+ "y = 2" +:+ post)), s') ∧
    1 ≤ occ_count "y = 2" (pre +:+ "y = 2" +:+ post).
Proof.
  assert (read_file "f.txt" (Demo.with_file "f.txt" "let x = 1;")
          = (Ok (PContent "let x = 1;"), Demo.with_file "f.txt" "let x = 1;")) as H1
    by (vm_compute; reflexivity).
  assert (occ_count "x = 1" "let x = 1;" = 1) as H2 by (vm_compute; reflexivity).
  assert (Py.contains_char "013" "y = 2" = false) as H3 by (vm_compute; reflexivity).
  assert (replace_code "f.txt" "x = 1" "y = 2" (Demo.with_file "f.txt" "let x = 1;")
          = (Ok (PStatus replaced_msg),
             (replace_code "f.txt" "x = 1" "y = 2"
                (Demo.with_file "f.txt" "let x = 1;")).2)) as H4
    by (vm_compute; reflexivity).
  exact (conj H1 (conj H2 (conj H3 (conj H4
           (C4_single_occurrence_substituted _ _ _ _ _ _ _ H1 H2 H3 H4))))).
Defined.

(** C4 as stated fails when the replacement contains the block searched
    for: [foo] occurs once in [foo], and after replacing it by [foobar]
    the file still contains one occurrence of [foo], not zero. *)
Lemma C4_search_block_survives :
  let s := Demo.with_file "f.txt" "foo" in
  let s' := (replace_code "f.txt" "foo" "foobar" s).2 in
  read_file "f.txt" s = (Ok (PContent "foo"), s) ∧
  occ_count "foo" "foo" = 1 ∧
  (replace_code "f.txt" "foo" "foobar" s).1 = Ok (PStatus replaced_msg) ∧
  read_file "f.txt" s' = (Ok (PContent "foobar"), s') ∧
  occ_count "foo" "foobar" = 1 ∧
  ¬ (occ_count "foo" "foobar" = 0 ∧ occ_count "foobar" "foobar" = 1).
Proof.
  split_and!; try (vm_compute; reflexivity). vm_compute. by intros [[=] _].
Qed.

(* ===================================================================== *)
(** * Theorems on the annotated rendering                                 *)
(* ===================================================================== *)

Section formatted_facts.

Lemma read_file_formatted_run path s content :
  read_file path s = (Ok (PContent content), s) →
  read_file_formatted path s
    = (Ok (PContent (table_header +:+ table_rows 1 (OS.readlines content))), s).
Proof.
  intros Hr.
  apply read_file_inv in Hr as (_ & c & t & b & raw & Hc & Ht & Hb & Hpre & Hf & ->).
  pose proof (resolve_canonical _ _ _ _ Ht) as Hcan.
  unfold read_file_formatted. rewrite (require_container_some _ _ _ Hc). unfold_monad.
  rewrite get_safe_path_run, get_safe_path_eq. cbv zeta. rewrite Ht, Hb, Hpre.
  unfold path_is_file. unfold_monad.
  rewrite is_file_canonical, Hf by done. cbn [is_file_node negb].
  by rewrite read_text_run, (read_bytes_canonical _ _ _ raw) by done.
Qed.

Lemma rstrip_idemp (line : string) : Py.rstrip (Py.rstrip line) = Py.rstrip line.
Proof.
  induction line as [|c line IH]; [done|]. simpl.
  destruct (Py.rstrip line) as [|d r] eqn:Hr.
  - destruct (Py.isspace c) eqn:Hc; [done|]. simpl. by rewrite Hc.
  - simpl in *. by rewrite IH.
Qed.

Lemma one_line_cons c l :
  one_line l = true →
  one_line (String c l) = negb (bool_decide (c = "010"%char)).
Proof. destruct l; [done|]. intros H. cbn [one_line] in *. by rewrite H, andb_true_r. Qed.

Lemma ends_newline_cons c l : l ≠ "" → ends_newline (String c l) = ends_newline l.
Proof. by destruct l. Qed.

Lemma one_line_not_empty l : one_line l = true → l ≠ "".
Proof. by destruct l. Qed.

(** [readlines] gives the lines of the text. *)
Lemma readlines_lines_of content : lines_of content (OS.readlines content).
Proof.
  unfold lines_of. induction content as [|c content [IH1 IH2]]; [done|].
  cbn [OS.readlines]. destruct (decide (c = "010"%char)) as [->|Hc].
  - cbn [sconcat]. rewrite IH1. split; [done|].
    cbn [well_split]. destruct (OS.readlines content); [done|]. by rewrite IH2.
  - destruct (OS.readlines content) as [|l ls] eqn:Hl.
    + cbn in IH1. subst content. done.
    + cbn [sconcat] in *. rewrite sapp_cons, IH1. split; [done|].
      assert (one_line l = true ∧ (ls ≠ [] → ends_newline l = true ∧ well_split ls = true))
        as [Hone Hrest].
      { cbn [well_split] in IH2. destruct ls; [done|].
        apply andb_true_iff in IH2 as [[? ?]%andb_true_iff ?]. done. }
      pose proof (one_line_not_empty _ Hone) as Hne.
      cbn [well_split]. rewrite one_line_cons, bool_decide_false by done.
      destruct ls as [|l' ls]; [done|].
      destruct Hrest as [He Hw]; [done|].
      by rewrite ends_newline_cons, He, Hw.
Qed.

(** [rstrip] takes the trailing whitespace away, and nothing else. *)
Lemma rstrip_stripped_of line : stripped_of line (Py.rstrip line).
Proof.
  induction line as [|c line (blanks & Hline & Hb & He)]; [by exists ""|].
  cbn [Py.rstrip]. destruct (Py.rstrip line) as [|d r] eqn:Hr.
  - rewrite sapp_nil_l in Hline. subst blanks.
    destruct (Py.isspace c) eqn:Hc.
    + exists (String c line). rewrite sapp_nil_l. cbn [all_blank]. by rewrite Hc, Hb.
    + exists line. rewrite sapp_cons, sapp_nil_l. cbn [ends_blank]. by rewrite Hc.
  - exists blanks. rewrite sapp_cons, <-Hline. by split_and!.
Qed.

(** Replacing every pipe is escaping the pipes. *)
Lemma replace_pipes txt : Py.replace txt "|" "\|" None = escape_pipes txt.
Proof.
  unfold Py.replace. induction txt as [|c txt IH]; [done|].
  cbn [Py.replace_go Py.budget_left Py.startswith andb escape_pipes].
  destruct (decide ("|"%char = c)) as [<-|Hc].
  - rewrite decide_True by done. by rewrite <-IH.
  - rewrite decide_False by done. by rewrite <-IH.
Qed.

Lemma table_rows_numbered idx (lines : list string) :
  table_rows idx lines = numbered_rows idx (Py.rstrip <$> lines).
Proof.
  revert idx; induction lines as [|l lines IH]; intros idx; [done|].
  cbn [table_rows numbered_rows fmap list_fmap]. rewrite IH. f_equal.
  unfold table_row, numbered_row. by rewrite replace_pipes.
Qed.


Lemma rstrip_all_blank b : all_blank b = true → Py.rstrip b = "".
Proof.
  induction b as [|c b IH]; [done|]. cbn [all_blank]. intros [Hc Hb]%andb_true_iff.
  cbn [Py.rstrip]. by rewrite IH, Hc.
Qed.

Lemma rstrip_no_blank_end body : ends_blank body = false → Py.rstrip body = body.
Proof.
  induction body as [|c body IH]; [done|]. intros H.
  destruct body as [|d body].
  - cbn in *. by rewrite H.
  - cbn [ends_blank] in H. specialize (IH H). cbn [Py.rstrip] in *. by rewrite IH.
Qed.

Lemma rstrip_app_blanks body b :
  all_blank b = true → Py.rstrip (body +:+ b) = Py.rstrip body.
Proof.
  intros Hb. induction body as [|c body IH].
  - rewrite sapp_nil_l. by rewrite rstrip_all_blank.
  - rewrite sapp_cons. cbn [Py.rstrip]. by rewrite IH.
Qed.

(** Only one text is the line without its trailing whitespace. *)
Lemma stripped_of_rstrip line body : stripped_of line body → body = Py.rstrip line.
Proof.
  intros (b & -> & Hb & He). by rewrite rstrip_app_blanks, rstrip_no_blank_end.
Qed.

Lemma readlines_one_line l :
  one_line l = true → OS.readlines l = [l].
Proof.
  induction l as [|c l IH]; [done|]. destruct l as [|d l].
  - intros _. cbn. by destruct (decide _).
  - cbn [one_line]. intros [Hc Hl]%andb_true_iff.
    apply negb_true_iff, bool_decide_eq_false in Hc.
    cbn [OS.readlines] in *. rewrite decide_False by done. by rewrite (IH Hl).
Qed.

Lemma readlines_line_app l rest :
  one_line l = true → ends_newline l = true →
  OS.readlines (l +:+ rest) = l :: OS.readlines rest.
Proof.
  induction l as [|c l IH]; [done|]. destruct l as [|d l].
  - intros _ Hc. cbn in Hc. apply bool_decide_eq_true in Hc as ->.
    by rewrite sapp_cons, sapp_nil_l.
  - cbn [one_line ends_newline]. intros [Hc Hl]%andb_true_iff He.
    apply negb_true_iff, bool_decide_eq_false in Hc.
    rewrite sapp_cons. cbn [OS.readlines]. rewrite decide_False by done.
    by rewrite (IH Hl He).
Qed.

(** Only one list is the lines of a text. *)
Lemma lines_of_readlines content lines :
  lines_of content lines → lines = OS.readlines content.
Proof.
  intros [<- Hw]. induction lines as [|l lines IH]; [done|].
  cbn [sconcat]. destruct lines as [|l' lines].
  - cbn [sconcat]. rewrite sapp_nil_r. by rewrite readlines_one_line.
  - cbn [well_split] in Hw. apply andb_true_iff in Hw as [[H1 H2]%andb_true_iff Hw].
    by rewrite readlines_line_app, <-IH.
Qed.

Lemma stripped_lines_rstrip lines bodies :
  Forall2 stripped_of lines bodies → bodies = Py.rstrip <$> lines.
Proof.
  induction 1 as [|line body lines bodies H _ IH]; [done|].
  by rewrite fmap_cons, <-IH, <-(stripped_of_rstrip _ _ H).
Qed.

End formatted_facts.

(** C10: [read_file_formatted] renders the lines of the file as the rows
    of a table.  The text is cut into its lines, each ended by its newline
    but possibly the last; every line gives one row, in order, numbered
    from 1; the row holds the line without its trailing whitespace (only
    whitespace is taken away, and none is left at the end), with every pipe
    escaped.  The rendering therefore loses text: a file whose line ends in
    blanks and the file without them have the same rendering, a table of
    the one row [| 1 | a |]. *)
Theorem C10_annotated_rendering path s content :
  read_file path s = (Ok (PContent content), s) →
  (∃ lines bodies, lines_of content lines ∧ Forall2 stripped_of lines bodies) ∧
  (∀ lines bodies,
     lines_of content lines → Forall2 stripped_of lines bodies →
     read_file_formatted path s
     = (Ok (PContent (table_header +:+ numbered_rows 1 bodies)), s)) ∧
  (∃ s1 s2 c1 c2,
     read_file "f.txt" s1 = (Ok (PContent c1), s1) ∧
     read_file "f.txt" s2 = (Ok (PContent c2), s2) ∧
     c1 ≠ c2 ∧
     (read_file_formatted "f.txt" s1).1 = (read_file_formatted "f.txt" s2).1 ∧
     (read_file_formatted "f.txt" s2).1
     = Ok (PContent (table_header +:+ "| 1 | a |" +:+ String "010" ""))).
Proof.
  intros Hr. split_and!.
  - exists (OS.readlines content), (Py.rstrip <$> OS.readlines content). split.
    + apply readlines_lines_of.
    + apply Forall2_fmap_r, Forall_Forall2_diag, Forall_forall.
      intros line _. apply rstrip_stripped_of.
  - intros lines bodies Hl Hb.
    rewrite (stripped_lines_rstrip _ _ Hb), (lines_of_readlines _ _ Hl).
    by rewrite (read_file_formatted_run _ _ _ Hr), table_rows_numbered.
  - exists (Demo.with_file "f.txt" Demo.padded_line),
      (Demo.with_file "f.txt" Demo.bare_line), Demo.padded_line, Demo.bare_line.
    split_and!; try (vm_compute; reflexivity). vm_compute. by intros [=].
Qed.

Lemma C10_annotated_rendering_witness :
  let s := Demo.with_file "f.txt" Demo.two_lines in
  read_file "f.txt" s = (Ok (PContent Demo.two_lines), s) ∧
  read_file_formatted "f.txt" s
  = (Ok (PContent (table_header +:+ numbered_rows 1 ["a|b"; "c"])), s).
Proof.
  assert (read_file "f.txt" (Demo.with_file "f.txt" Demo.two_lines)
          = (Ok (PContent Demo.two_lines), Demo.with_file "f.txt" Demo.two_lines)) as H
    by (vm_compute; reflexivity).
  split; [exact H|].
  apply (proj1 (proj2 (C10_annotated_rendering _ _ _ H))
           ["a|b" +:+ String "010" ""; "c"] ["a|b"; "c"]).
  - by split.
  - repeat constructor.
    + by exists (String "010" "").
    + by exists "".
Defined.

(* ===================================================================== *)
(** * Theorems on listing                                                 *)
(* ===================================================================== *)

Section sorted_facts.
Context {A K : Type} (lt : K → K → bool) (key : A → K) (R : relation A).
Context `{!Transitive R}.
Hypothesis lt_R : ∀ a b, lt (key a) (key b) = true → R a b.
Hypothesis not_lt_R : ∀ a b, lt (key a) (key b) = false → R b a.

Lemma insert_by_perm x l : Py.insert_by lt key x l ≡ₚ x :: l.
Proof.
  induction l as [|y l IH]; [done|]. simpl.
  destruct (lt (key y) (key x)); [|done]. by rewrite IH, Permutation_swap.
Qed.

Lemma sorted_perm l : Py.sorted lt key l ≡ₚ l.
Proof.
  induction l as [|x l IH]; [done|]. unfold Py.sorted in *. simpl.
  by rewrite insert_by_perm, IH.
Qed.

Lemma insert_by_sorted x l :
  StronglySorted R l → StronglySorted R (Py.insert_by lt key x l).
Proof using lt_R not_lt_R Transitive0.
  induction l as [|y l IH]; intros Hs; simpl; [by repeat constructor|].
  apply StronglySorted_inv in Hs as [Hs Hy].
  destruct (lt (key y) (key x)) eqn:Hlt.
  - constructor; [by apply IH|].
    rewrite insert_by_perm. constructor; [by apply lt_R|done].
  - constructor; [by constructor|].
    pose proof (not_lt_R _ _ Hlt) as Hxy. constructor; [done|].
    eapply Forall_impl; [done|]. intros z Hz. by etrans.
Qed.

Lemma sorted_strongly_sorted l : StronglySorted R (Py.sorted lt key l).
Proof using lt_R not_lt_R Transitive0.
  induction l as [|x l IH]; [constructor|]. by apply insert_by_sorted.
Qed.

End sorted_facts.

Section entry_order.

Lemma str_lt_leb a b : Py.str_lt a b = negb (String.leb b a).
Proof.
  unfold Py.str_lt, String.leb. rewrite (String.compare_antisym a b).
  by destruct (String.compare b a).
Qed.

Lemma entry_key_folder e : (entry_key e).1 = false ↔ is_folder e.
Proof. unfold entry_key, is_folder. simpl. by case_bool_decide. Qed.

Global Instance entry_le_trans : Transitive entry_le.
Proof.
  intros a b c [[Ha Hb]|[Hab Hn1]] [[Hb' Hc]|[Hbc Hn2]].
  - done.
  - left. split; [done|]. by rewrite <-Hbc.
  - left. split; [|done]. by rewrite Hab.
  - right. split; [by rewrite Hab|]. by etrans.
Qed.

Lemma tuple_lt_entry_le a b :
  Py.tuple_lt (entry_key a) (entry_key b) = true → entry_le a b.
Proof.
  unfold Py.tuple_lt, Py.bool_lt. pose proof (entry_key_folder a) as Ha.
  pose proof (entry_key_folder b) as Hb.
  unfold entry_le. destruct (entry_key a).1 eqn:Ea, (entry_key b).1 eqn:Eb;
    simpl; try done.
  - rewrite str_lt_leb. intros Hlt. right.
    split; [split; intros H; [apply Ha in H|apply Hb in H]; done|].
    destruct (String.le_total (fe_name a) (fe_name b)) as [?|Hle]; [done|].
    unfold String.le in Hle. by destruct (String.leb _ _).
  - intros _. left. split; [by apply Ha|]. intros H. by apply Hb in H.
  - rewrite str_lt_leb. intros Hlt. right.
    split; [split; intros _; [by apply Hb|by apply Ha]|].
    destruct (String.le_total (fe_name a) (fe_name b)) as [?|Hle]; [done|].
    unfold String.le in Hle. by destruct (String.leb _ _).
Qed.

Lemma not_tuple_lt_entry_le a b :
  Py.tuple_lt (entry_key a) (entry_key b) = false → entry_le b a.
Proof.
  unfold Py.tuple_lt, Py.bool_lt. pose proof (entry_key_folder a) as Ha.
  pose proof (entry_key_folder b) as Hb.
  unfold entry_le. destruct (entry_key a).1 eqn:Ea, (entry_key b).1 eqn:Eb;
    simpl; try done.
  - rewrite str_lt_leb. intros Hlt. right.
    split; [split; intros H; [apply Hb in H|apply Ha in H]; done|].
    unfold String.le. by destruct (String.leb _ _).
  - intros _. left. split; [by apply Hb|]. intros H. by apply Ha in H.
  - rewrite str_lt_leb. intros Hlt. right.
    split; [split; intros _; [by apply Ha|by apply Hb]|].
    unfold String.le. by destruct (String.leb _ _).
Qed.

End entry_order.

Section list_files_facts.
Implicit Types s : State.

(** A loop whose body only reads the state. *)
Lemma mapM_reads {A B} (f : A → M B) (g : A → B) (l : list A) s :
  (∀ x, x ∈ l → f x s = (Ok (g x), s)) →
  mapM f l s = (Ok (g <$> l), s).
Proof.
  induction l as [|x l IH]; intros Hf; [done|].
  cbn [mapM]. unfold_monad. rewrite Hf by apply list_elem_of_here.
  fold (mapM f l). rewrite IH; [done|]. intros y Hy. apply Hf. by apply list_elem_of_further.
Qed.

Lemma name_abs_snoc (t : list string) (x : string) : name (abs (t ++ [x])) = x.
Proof. unfold name. cbn [parts abs]. apply last_last. Qed.

Lemma iterdir_canonical root cwd t es :
  canonical (readlink root) t →
  lookup_path root t = Some (Dir es) →
  OS.iterdir root cwd (abs t) = Ok ((λ x, abs (t ++ [x])) <$> (map_to_list es).*1).
Proof.
  intros Hc Ht. unfold OS.iterdir. unfold_monad.
  pose proof (stat_canonical root cwd t Hc) as H. rewrite Ht in H. rewrite H.
  f_equal. by rewrite <-list_fmap_compose.
Qed.

(** [list_files] on a project directory given in canonical form. *)
Lemma list_files_run subpath s c b t :
  container (self s) = Some c →
  project_dir (self s) = abs b →
  resolve (fs (world s)) (cwd (world s)) (project_dir (self s)) = Ok b →
  resolve (fs (world s)) (cwd (world s))
    (joinpath (project_dir (self s)) (parse subpath)) = Ok t →
  b `prefix_of` t →
  list_files subpath s =
    match lookup_path (fs (world s)) t with
    | None => (Ok (PError "Path does not exist"), s)
    | Some (Dir es) =>
        (Ok (PEntries (Py.sorted Py.tuple_lt entry_key
               (entry_of (fs (world s)) (cwd (world s)) b t <$> (map_to_list es).*1))), s)
    | Some _ => (Ok (PError (str_of_exn (enotdir t))), s)
    end.
Proof.
  intros Hc Hpd Hb Ht Hpre.
  pose proof (resolve_canonical _ _ _ _ Ht) as Hcan.
  unfold list_files. rewrite (require_container_some _ _ _ Hc). unfold_monad.
  rewrite get_safe_path_run, get_safe_path_eq. cbv zeta.
  rewrite Ht, Hb, str_abs_prefix by done.
  unfold path_exists. unfold_monad. rewrite exists_canonical by done.
  destruct (lookup_path (fs (world s)) t) as [n|] eqn:Hl;
    [rewrite bool_decide_true by (by eexists)|by rewrite bool_decide_false by (by intros [])].
  cbn [negb]. unfold path_iterdir. unfold_monad.
  destruct n as [raw|target|es].
  - unfold OS.iterdir. unfold_monad.
    pose proof (stat_canonical _ (cwd (world s)) t Hcan) as H. rewrite Hl in H.
    by rewrite H.
  - destruct Hcan as [_ Hrl]. destruct (decide (t = [])) as [->|Hne].
    + unfold OS.iterdir, stat, full_parts. unfold_monad.
      cbn [absolute parts abs]. rewrite namei_go_nil. by rewrite Hl.
    + specialize (Hrl t (reflexivity _) Hne). unfold readlink in Hrl. by rewrite Hl in Hrl.
  - rewrite (iterdir_canonical _ _ _ es) by done.
    rewrite (mapM_reads _ (λ item, entry_of (fs (world s)) (cwd (world s)) b t
                                     (name item))).
    + do 3 f_equal. rewrite <-list_fmap_compose. f_equal. apply list_fmap_ext.
      intros _ x _. cbn [compose]. by rewrite name_abs_snoc.
    + intros item [x [-> _]]%list_elem_of_fmap.
      unfold path_is_dir. unfold_monad. rewrite Hpd.
      unfold relative_to. cbn [absolute parts abs].
      rewrite bool_decide_true by (split; [done|by apply prefix_app_r]).
      by rewrite name_abs_snoc.
Qed.

End list_files_facts.

(** With the project directory in canonical form, an existing directory
    inside it is listed: one entry per immediate child, folders first, then
    by name; a missing path is reported. *)
Lemma list_files_sorted_children subpath s c b t es :
  container (self s) = Some c →
  project_dir (self s) = abs b →
  resolve (fs (world s)) (cwd (world s)) (project_dir (self s)) = Ok b →
  resolve (fs (world s)) (cwd (world s))
    (joinpath (project_dir (self s)) (parse subpath)) = Ok t →
  b `prefix_of` t →
  lookup_path (fs (world s)) t = Some (Dir es) →
  ∃ items,
    list_files subpath s = (Ok (PEntries items), s) ∧
    StronglySorted entry_le items ∧
    items ≡ₚ entry_of (fs (world s)) (cwd (world s)) b t <$> (map_to_list es).*1.
Proof.
  intros Hc Hpd Hb Ht Hpre Hl. eexists. split_and!.
  - rewrite (list_files_run _ _ _ _ _ Hc Hpd Hb Ht Hpre), Hl. done.
  - apply sorted_strongly_sorted; [apply _| |].
    + apply tuple_lt_entry_le.
    + apply not_tuple_lt_entry_le.
  - apply sorted_perm.
Qed.

Lemma list_files_missing subpath s c b t :
  container (self s) = Some c →
  project_dir (self s) = abs b →
  resolve (fs (world s)) (cwd (world s)) (project_dir (self s)) = Ok b →
  resolve (fs (world s)) (cwd (world s))
    (joinpath (project_dir (self s)) (parse subpath)) = Ok t →
  b `prefix_of` t →
  lookup_path (fs (world s)) t = None →
  list_files subpath s = (Ok (PError "Path does not exist"), s).
Proof.
  intros Hc Hpd Hb Ht Hpre Hl.
  by rewrite (list_files_run _ _ _ _ _ Hc Hpd Hb Ht Hpre), Hl.
Qed.

Example list_files_demo :
  (list_files "." Demo.after_acquire).1
  = Ok (PEntries [MkEntry "a_folder" "folder" "a_folder"; MkEntry "b.txt" "file" "b.txt"]).
Proof. vm_compute. reflexivity. Qed.

(** C8: [list_files] takes the children of the resolved directory
    relative to [self.project_dir] as it was given, not to its resolved
    form, which is what the guard compares with.  When the project
    directory is not written in canonical form (a relative workspace root,
    or one that passes through a symbolic link), [relative_to] raises
    [ValueError] for the first child, and listing an existing, non-empty
    directory of the project returns an error instead of its entries. *)
Theorem C8_listing_fails_for_relative_root :
  let s := Demo.relative_session in
  let w := world s in
  str (project_dir (self s)) = "workspace/run" ∧
  resolve (fs w) (cwd w) (project_dir (self s)) = Ok ["srv"; "workspace"; "run"] ∧
  resolve (fs w) (cwd w) (joinpath (project_dir (self s)) (parse "."))
    = Ok ["srv"; "workspace"; "run"] ∧
  lookup_path (fs w) ["srv"; "workspace"; "run"] = Some Demo.run_dir ∧
  read_file "b.txt" s = (Ok (PContent "hello"), s) ∧
  list_files "." s
    = (Ok (PError "'/srv/workspace/run/a_folder' is not in the subpath of 'workspace/run'"),
       s).
Proof. split_and!; vm_compute; reflexivity. Qed.

(* ===================================================================== *)
(** * Theorems on the session                                             *)
(* ===================================================================== *)

Section session_facts.

Lemma keeps_ret {A} (a : A) : keeps_session (mret a : M A).
Proof. by intros s. Qed.

Lemma keeps_raise {A} e : keeps_session (raise e : M A).
Proof. by intros s. Qed.

Lemma keeps_gets {A} (f : State → A) : keeps_session (gets f).
Proof. by intros s. Qed.

Lemma keeps_lift {A} (o : outcome A) : keeps_session (lift_outcome o).
Proof. by intros s. Qed.

Lemma keeps_modify_world f : keeps_session (modify_world f).
Proof. by intros s. Qed.

Lemma keeps_set_container c : keeps_session (modify_self (set_container c)).
Proof. by intros s. Qed.

Lemma keeps_bind {A B} (m : M A) (k : A → M B) :
  keeps_session m → (∀ a, keeps_session (k a)) → keeps_session (m ≫= k).
Proof.
  intros Hm Hk s. unfold mbind, M_bind, bind. specialize (Hm s).
  destruct (m s) as [[a|e] s1]; [|done]. simpl in Hm. by rewrite Hk.
Qed.

Lemma keeps_try {A} (m : M A) handled h :
  keeps_session m → (∀ e, keeps_session (h e)) → keeps_session (try_except m handled h).
Proof.
  intros Hm Hh s. unfold try_except. specialize (Hm s).
  destruct (m s) as [[a|e] s1]; [done|]. simpl in Hm.
  destruct (handled e); [|done]. by rewrite Hh.
Qed.

Lemma keeps_ignore {A} (m : M A) : keeps_session m → keeps_session (ignore m).
Proof. intros. apply keeps_bind; [done|]. intros. apply keeps_ret. Qed.

Lemma keeps_require func : keeps_session func → keeps_session (require_container func).
Proof.
  intros Hf. unfold require_container. apply keeps_bind; [apply keeps_gets|].
  intros o. destruct (container o); [|apply keeps_ret].
  apply keeps_try; [done|]. intros. apply keeps_ret.
Qed.

Lemma keeps_mapM {A B} (f : A → M B) (l : list A) :
  (∀ x, keeps_session (f x)) → keeps_session (mapM f l).
Proof.
  intros Hf. induction l as [|x l IH]; [apply keeps_ret|].
  cbn [mapM]. apply keeps_bind; [done|]. intros y.
  apply keeps_bind; [done|]. intros k. apply keeps_ret.
Qed.

End session_facts.

(** Take a computation apart along its binds and tests. *)
Ltac keeps_step :=
  match goal with
  | |- keeps_session (mret _) => apply keeps_ret
  | |- keeps_session (raise _) => apply keeps_raise
  | |- keeps_session (gets _) => apply keeps_gets
  | |- keeps_session (lift_outcome _) => apply keeps_lift
  | |- keeps_session (modify_world _) => apply keeps_modify_world
  | |- keeps_session (modify_self (set_container _)) => apply keeps_set_container
  | |- keeps_session (_ ≫= _) => apply keeps_bind; [|intros ?]
  | |- keeps_session (try_except _ _ _) => apply keeps_try; [|intros ?]
  | |- keeps_session (ignore _) => apply keeps_ignore
  | |- keeps_session (require_container _) => apply keeps_require
  | |- keeps_session (mapM _ _) => apply keeps_mapM; intros ?
  | |- keeps_session (if ?b then _ else _) => destruct b
  | |- keeps_session (match ?x with _ => _ end) => destruct x
  | |- keeps_session (let '(_, _) := ?x in _) => destruct x
  end.

Ltac keeps := repeat keeps_step; eauto.

Section session_kept.

Lemma keeps_exec_run c cmd detach : keeps_session (Docker.exec_run c cmd detach).
Proof.
  unfold Docker.exec_run, Docker.call, Docker.find_sandbox, Docker.put_sandbox. keeps.
Qed.

Lemma keeps_containers_get id : keeps_session (Docker.containers_get id).
Proof. unfold Docker.containers_get, Docker.call, Docker.find_sandbox. keeps. Qed.

Lemma keeps_containers_run i n c : keeps_session (Docker.containers_run i n c).
Proof.
  unfold Docker.containers_run, Docker.call, Docker.put_sandbox, Docker.take_port. keeps.
Qed.

Lemma keeps_start c : keeps_session (Docker.start c).
Proof.
  unfold Docker.start, Docker.call, Docker.find_sandbox, Docker.put_sandbox,
    Docker.take_port. keeps.
Qed.

Lemma keeps_reload c : keeps_session (Docker.reload c).
Proof. unfold Docker.reload, Docker.call, Docker.find_sandbox. keeps. Qed.

Lemma keeps_logs c n : keeps_session (Docker.logs c n).
Proof. unfold Docker.logs, Docker.call, Docker.find_sandbox. keeps. Qed.

Lemma keeps_host_port c : keeps_session (Docker.host_port c).
Proof. unfold Docker.host_port. keeps. Qed.

Lemma keeps_self_container attr : keeps_session (self_container attr).
Proof. unfold self_container. keeps. Qed.

Lemma keeps_get_safe_path p : keeps_session (_get_safe_path p).
Proof. unfold _get_safe_path, path_resolve. keeps. Qed.

Lemma keeps_shutil_move a b : keeps_session (shutil_move a b).
Proof. unfold shutil_move, update_fs. keeps. Qed.

Local Hint Resolve keeps_exec_run keeps_containers_get keeps_containers_run
  keeps_start keeps_reload keeps_logs keeps_host_port keeps_self_container
  keeps_get_safe_path keeps_shutil_move : core.

Lemma keeps_perform op : keeps_session (perform op).
Proof.
  destruct op; cbn [perform];
    unfold list_files, read_file, read_file_formatted, write_file_folder, delete_item,
      search_content, replace_code, move_item, run_command, check_lint_errors,
      get_server_logs, path_resolve, path_exists, path_is_file, path_is_dir,
      path_iterdir, path_mkdir_parents, write_text, read_text, update_fs;
    keeps.
Qed.

Lemma keeps_run_command_strict cmd : keeps_session (_run_command_strict cmd).
Proof. unfold _run_command_strict. keeps. Qed.

Lemma keeps_ensure_dev_server : keeps_session _ensure_dev_server_and_return_info.
Proof. unfold _ensure_dev_server_and_return_info. keeps. Qed.

Local Hint Resolve keeps_run_command_strict keeps_ensure_dev_server : core.

Lemma keeps_create_new_container : keeps_session create_new_container.
Proof. unfold create_new_container. keeps. Qed.

Lemma keeps_restart_previous_container : keeps_session restart_previous_container.
Proof. unfold restart_previous_container. keeps. Qed.

Lemma keeps_get_container : keeps_session get_container.
Proof.
  intros s. unfold get_container.
  pose proof (keeps_bind (gets self) (λ o, ignore (Docker.containers_get (run_id o)))
                (keeps_gets _) (λ o, keeps_ignore _ (keeps_containers_get _)) s) as H.
  destruct ((gets self ≫= _) s) as [[a|e] s1]; simpl in H.
  - by rewrite keeps_restart_previous_container.
  - destruct (is_class DockerNotFound e); [|done].
    by rewrite keeps_create_new_container.
Qed.

Lemma keeps_run_call c : keeps_session (run_call c).
Proof. destruct c; [apply keeps_get_container|apply keeps_perform]. Qed.

End session_kept.

Lemma init_project_dir rid root w o w' :
  init rid root w = (Ok o, w') →
  run_id o = rid ∧ workspace_root o = root ∧
  project_dir o = joinpath root (parse rid).
Proof.
  unfold init. set (o0 := MkOrchestrator _ _ _ _).
  pose proof (keeps_bind (path_mkdir_parents (project_dir o0)) (λ _, initial_setup)) as H.
  specialize (H ltac:(unfold path_mkdir_parents, update_fs; keeps)
                ltac:(intros; unfold initial_setup, Docker.images_get,
                        Docker.images_create, Docker.call; keeps) (MkState o0 w)).
  destruct ((path_mkdir_parents (project_dir o0) ≫= _) (MkState o0 w)) as [[?|?] s1];
    [|done].
  intros [= <- _]. simpl in H. by injection H as -> -> ->.
Qed.

(** C9, as amended: for every session id that is a relative path without
    [".."] segments, the [project_dir] computed at construction is
    [workspace_root] followed by the segments of the id, hence
    [workspace_root] itself or a descendant of it; and no call on the
    orchestrator changes the [project_dir] field (nor [run_id] or
    [workspace_root]). *)
Theorem C9_project_dir_below_root rid root w o w' :
  absolute (parse rid) = false →
  (".." ∉ parts (parse rid)) →
  init rid root w = (Ok o, w') →
  project_dir o = MkPath (absolute root) (parts root ++ parts (parse rid)) ∧
  is_relative_to (project_dir o) root ∧
  (".." ∉ drop (length (parts root)) (parts (project_dir o))) ∧
  ∀ (c : call) (s : State),
    project_dir (self (run_call c s).2) = project_dir (self s).
Proof.
  intros Hrel Hdots Hinit.
  apply init_project_dir in Hinit as (_ & _ & ->).
  unfold joinpath. rewrite Hrel. split_and!.
  - done.
  - split; [done|]. by apply prefix_app_r.
  - cbn [parts]. by rewrite drop_app_length.
  - intros c s. pose proof (keeps_run_call c s) as H. unfold session_of in H.
    by injection H.
Qed.

Lemma C9_project_dir_below_root_witness :
  let w := Demo.the_world Demo.root_dir in
  absolute (parse "run") = false ∧
  (".." ∉ parts (parse "run")) ∧
  (init "run" (parse "/ws") w).1 = Ok Demo.fresh ∧
  is_relative_to (project_dir Demo.fresh) (parse "/ws").
Proof.
  assert (absolute (parse "run") = false) as H1 by (vm_compute; reflexivity).
  assert (".." ∉ parts (parse "run")) as H2.
  { vm_compute. intros H. apply list_elem_of_In in H. simpl in H.
    destruct H as [H|[]]. discriminate H. }
  assert (init "run" (parse "/ws") (Demo.the_world Demo.root_dir)
          = (Ok Demo.fresh, (init "run" (parse "/ws") (Demo.the_world Demo.root_dir)).2)) as H3
    by (vm_compute; reflexivity).
  split_and!; [done|done|by rewrite H3|].
  exact (proj1 (proj2 (C9_project_dir_below_root _ _ _ _ _ H1 H2 H3))).
Defined.

(** C9 as stated fails for an absolute session id: with workspace root
    [/ws], the id [/etc] makes the constructor succeed with project
    directory [/etc], which is not below [/ws]. *)
Lemma C9_absolute_run_id_escapes :
  let w := Demo.the_world Demo.root_dir in
  ∃ o, (init "/etc" (parse "/ws") w).1 = Ok o ∧
    workspace_root o = parse "/ws" ∧
    str (project_dir o) = "/etc" ∧
    ¬ is_relative_to (project_dir o) (workspace_root o).
Proof.
  eexists. split_and!; try (vm_compute; reflexivity).
  vm_compute. intros [_ [k Hk]]. discriminate Hk.
Qed.

(** The directory itself is not out of reach: the guard lets the sibling
    path [../run3] through, so the project directory can be moved away. *)
Example project_dir_moved_away :
  let s := Demo.after_acquire in
  let s' := (move_item "." "../run3" s).2 in
  (move_item "." "../run3" s).1 = Ok (PStatus "Moved . to ../run3") ∧
  exists_ (fs (world s)) (cwd (world s)) (project_dir (self s)) = true ∧
  exists_ (fs (world s')) (cwd (world s')) (project_dir (self s')) = false.
Proof. split_and!; vm_compute; reflexivity. Qed.

(* ===================================================================== *)
(** * Theorems on the life cycle                                          *)
(* ===================================================================== *)

Section lifecycle_facts.
Implicit Types s : State.

Lemma bind_run {A B} (m : M A) (k : A → M B) s :
  (m ≫= k) s =
    match m s with
    | (Ok a, s') => k a s'
    | (Raise e, s') => (Raise e, s')
    end.
Proof. done. Qed.

Lemma self_container_some attr s c :
  container (self s) = Some c → self_container attr s = (Ok c, s).
Proof. intros H. unfold self_container. unfold_monad. by rewrite H. Qed.

(** A command that ran, ran in a running sandbox, which still runs on the
    same port afterwards; the probe tells whether the dev server is alive
    and changes nothing but the log, and the detached launch brings the dev
    server up. *)
Lemma exec_run_inv c cmd detach s r s' :
  Docker.exec_run c cmd detach s = (Ok r, s') →
  self s' = self s ∧
  ∃ sb sb',
    sandboxes (world s) !! c_name c = Some sb ∧ sb_running sb = true ∧
    sandboxes (world s') !! c_name c = Some sb' ∧ sb_running sb' = true ∧
    sb_port sb' = sb_port sb ∧
    (cmd = Docker.probe_cmd → sb' = sb ∧ r.1 = if sb_vite sb then 0%Z else 1%Z) ∧
    (cmd = Docker.dev_cmd → detach = true → sb_vite sb' = true).
Proof.
  unfold Docker.exec_run, Docker.call, Docker.find_sandbox, Docker.put_sandbox.
  unfold_monad. cbn [world log_call sandboxes self].
  destruct (sandboxes (world s) !! c_name c) as [sb|] eqn:Hsb; [|done].
  destruct (sb_running sb) eqn:Hrun; [|done]. cbn [negb].
  case_bool_decide as Hprobe.
  { intros [= <- <-]. split; [done|]. exists sb, sb. cbn. split_and!; try done.
    intros ->. done. }
  destruct (detach && bool_decide (cmd = Docker.dev_cmd)) eqn:Hdev.
  { intros [= <- <-]. split; [done|]. eexists sb, _. cbn.
    rewrite lookup_insert_eq. split_and!; try done. }
  destruct (shell _ _ _ _) as [[code out] [t v]].
  intros [= <- <-]. split; [done|]. eexists sb, _. cbn.
  rewrite lookup_insert_eq. split_and!; try done.
  intros -> ->. by rewrite bool_decide_true in Hdev.
Qed.

(** After the probe, and the launch when the probe fails, the dev server
    is alive. *)
Lemma launch_if_needed_inv c (code : Z) s1 s2 sb u :
  sandboxes (world s1) !! c_name c = Some sb →
  sb_running sb = true →
  code = (if sb_vite sb then 0%Z else 1%Z) →
  (if negb (bool_decide (code = 0%Z))
   then ignore (Docker.exec_run c Docker.dev_cmd true)
   else mret ()) s1 = (Ok u, s2) →
  self s2 = self s1 ∧
  ∃ sb2, sandboxes (world s2) !! c_name c = Some sb2 ∧
    sb_running sb2 = true ∧ sb_port sb2 = sb_port sb ∧ sb_vite sb2 = true ∧
    (sb_vite sb = true → s2 = s1).
Proof.
  intros Hsb Hrun ->. destruct (sb_vite sb) eqn:Hv.
  - rewrite bool_decide_true by done. cbn [negb]. intros [= _ <-].
    split; [done|]. by exists sb.
  - rewrite bool_decide_false by done. cbn [negb]. unfold_monad.
    destruct (Docker.exec_run c Docker.dev_cmd true s1) as [[r|] s3] eqn:H; [|done].
    intros [= _ <-].
    apply exec_run_inv in H
      as (Hself & sb' & sb2 & Hsb' & _ & Hsb2 & Hrun2 & Hport & _ & Hdev).
    rewrite Hsb in Hsb'. injection Hsb' as <-.
    split; [done|]. exists sb2. split_and!; try done. by apply Hdev.
Qed.

(** A successful [_ensure_dev_server_and_return_info] leaves the sandbox
    ready and reports the name of the container held. *)
Lemma ensure_inv s n u s' c :
  container (self s) = Some c →
  _ensure_dev_server_and_return_info s = (Ok (PInfo n u), s') →
  n = c_name c ∧ session_of (self s') = session_of (self s) ∧
  ∃ p, ready_at (c_name c) p (world s') ∧ u = localhost_url p.
Proof.
  intros Hc. unfold _ensure_dev_server_and_return_info.
  rewrite bind_run, (self_container_some _ _ _ Hc), bind_run.
  destruct (Docker.exec_run c Docker.probe_cmd false s) as [[[code out]|] s1] eqn:H1;
    [|done].
  rewrite bind_run.
  apply exec_run_inv in H1
    as (Hself1 & sb & sb1 & Hsb & Hrun & Hsb1 & Hrun1 & Hport1 & Hprobe & _).
  destruct (Hprobe eq_refl) as [-> Hcode]. simpl in Hcode. clear Hprobe.
  destruct ((if negb (bool_decide (code = 0%Z))
             then ignore (Docker.exec_run c Docker.dev_cmd true)
             else mret ()) s1) as [[[]|] s2] eqn:H2; [|done].
  apply (launch_if_needed_inv _ _ _ _ _ _ Hsb1 Hrun Hcode) in H2
    as (Hself2 & sb2 & Hsb2 & Hrun2 & Hport2 & Hvite2 & _).
  unfold Docker.reload, Docker.call, Docker.find_sandbox, Docker.host_port.
  unfold_monad. cbn [world log_call sandboxes self]. rewrite Hsb2.
  unfold Docker.snapshot. rewrite Hrun2. cbn [c_host_port c_name].
  destruct (sb_port sb2) as [p|] eqn:Hp; [|done].
  intros [= <- <- <-]. split_and!; [done|cbn; by rewrite Hself2, Hself1|].
  exists p. split; [|done]. by exists sb2.
Qed.

Lemma try_all_inv (m : M payload) s r s' :
  (∀ msg, r ≠ PError msg) →
  try_except m (λ _, true) (λ e, mret (PError (str_of_exn e))) s = (Ok r, s') →
  m s = (Ok r, s').
Proof.
  intros Hr. unfold try_except. destruct (m s) as [[r'|e] s1]; [done|].
  unfold_monad. intros [= <- _]. by destruct (Hr (str_of_exn e)).
Qed.

Lemma containers_run_inv i rid cmd s c s1 :
  Docker.containers_run i rid cmd s = (Ok c, s1) →
  c_name c = rid ∧ self s1 = self s.
Proof.
  unfold Docker.containers_run, Docker.call, Docker.put_sandbox, Docker.take_port.
  unfold_monad. cbn [world log_call sandboxes self].
  destruct (sandboxes (world s) !! rid); [done|].
  simpl. destruct (port_pool (world s)); [done|].
  intros H. injection H as <- <-. split; reflexivity.
Qed.

Lemma run_command_strict_inv cmd s u s1 c :
  container (self s) = Some c →
  _run_command_strict cmd s = (Ok u, s1) → self s1 = self s.
Proof.
  intros Hc. unfold _run_command_strict.
  rewrite bind_run, (self_container_some _ _ _ Hc), bind_run.
  destruct (Docker.exec_run c cmd false s) as [[[code out]|] s2] eqn:H; [|done].
  apply exec_run_inv in H as [H _]. case_match; [done|]. by intros [= _ <-].
Qed.

Lemma create_new_container_inv s n u s' :
  create_new_container s = (Ok (PInfo n u), s') →
  n = run_id (self s) ∧ session_of (self s') = session_of (self s) ∧
  ∃ p, ready_at n p (world s') ∧ u = localhost_url p.
Proof.
  unfold create_new_container. intros H. apply try_all_inv in H; [|done].
  revert H. rewrite bind_run. unfold gets at 1. rewrite bind_run.
  destruct (Docker.containers_run _ _ _ s) as [[c|] s1] eqn:H1; [|done].
  apply containers_run_inv in H1 as [Hname Hself1].
  rewrite bind_run. unfold modify_self at 1.
  set (s2 := MkState (set_container (Some c) (self s1)) (world s1)).
  assert (container (self s2) = Some c) as Hc2 by done.
  rewrite bind_run.
  destruct (_run_command_strict _ s2) as [[[]|] s3] eqn:H3; [|done].
  apply (run_command_strict_inv _ _ _ _ _ Hc2) in H3.
  rewrite bind_run.
  destruct (_run_command_strict _ s3) as [[[]|] s4] eqn:H4; [|done].
  apply (run_command_strict_inv _ _ _ _ c) in H4; [|by rewrite H3].
  rewrite bind_run.
  destruct (_run_command_strict _ s4) as [[[]|] s5] eqn:H5; [|done].
  apply (run_command_strict_inv _ _ _ _ c) in H5; [|by rewrite H4, H3].
  intros H. apply (ensure_inv _ _ _ _ c) in H as (-> & Hs & p & Hready & ->);
    [|by rewrite H5, H4, H3].
  rewrite Hname in *. split_and!; [done| |by exists p].
  rewrite Hs, H5, H4, H3. unfold s2. cbn. by rewrite Hself1.
Qed.

Lemma containers_get_inv id s c s1 :
  Docker.containers_get id s = (Ok c, s1) →
  ∃ sb0, sandboxes (world s) !! id = Some sb0 ∧ c = Docker.snapshot id sb0 ∧
    s1 = MkState (self s) (log_call (ContainersGet id) (world s)).
Proof.
  unfold Docker.containers_get, Docker.call, Docker.find_sandbox. unfold_monad.
  cbn [world log_call sandboxes self].
  destruct (sandboxes (world s) !! id) as [sb0|]; [|done].
  intros [= <- <-]. by exists sb0.
Qed.

Lemma host_port_run c s :
  Docker.host_port c s =
    match c_host_port c with
    | Some p => (Ok p, s)
    | None => (Raise (Exn KeyError "'5173/tcp'"), s)
    end.
Proof. unfold Docker.host_port. by destruct (c_host_port c). Qed.

Lemma restart_previous_container_inv s n u s' :
  restart_previous_container s = (Ok (PInfo n u), s') →
  n = run_id (self s) ∧ session_of (self s') = session_of (self s) ∧
  ∃ p, ready_at n p (world s') ∧ u = localhost_url p.
Proof.
  unfold restart_previous_container. intros H. apply try_all_inv in H; [|done].
  revert H. rewrite bind_run. unfold gets at 1. rewrite bind_run.
  destruct (Docker.containers_get _ s) as [[c|] s1] eqn:Hget; [|done].
  apply containers_get_inv in Hget as (sb0 & Hsb0 & -> & ->).
  set (s1 := MkState (self s) (log_call _ (world s))).
  set (c := Docker.snapshot (run_id (self s)) sb0).
  assert (c_name c = run_id (self s)) as Hname by done.
  rewrite bind_run.
  destruct ((if negb (bool_decide (c_status c = "running"))
             then Docker.start c else mret ()) s1) as [[[]|] s2] eqn:Hstart; [|done].
  rewrite bind_run.
  destruct (Docker.exec_run c Docker.probe_cmd false s2) as [[[code out]|] s3] eqn:H3;
    [|done].
  rewrite bind_run.
  destruct ((if negb (bool_decide (code = 0%Z))
             then ignore (Docker.exec_run c Docker.dev_cmd true)
             else mret ()) s3) as [[[]|] s4] eqn:H4; [|done].
  rewrite bind_run, host_port_run.
  destruct (c_host_port c) as [p|] eqn:Hp; [|done].
  unfold c, Docker.snapshot in Hp. cbn [c_host_port] in Hp.
  destruct (sb_running sb0) eqn:Hrun0; [|done].
  assert (s2 = s1) as ->.
  { unfold c, Docker.snapshot in Hstart. cbn [c_status] in Hstart.
    rewrite Hrun0 in Hstart. by injection Hstart. }
  apply exec_run_inv in H3
    as (Hself3 & sb & sb3 & Hsb & Hrun & Hsb3 & Hrun3 & Hport3 & Hprobe & _).
  destruct (Hprobe eq_refl) as [-> Hcode]. simpl in Hcode. clear Hprobe.
  rewrite Hname in Hsb. cbn in Hsb. rewrite Hsb0 in Hsb. injection Hsb as <-.
  apply (launch_if_needed_inv _ _ _ _ _ _ Hsb3 Hrun Hcode) in H4
    as (Hself4 & sb4 & Hsb4 & Hrun4 & Hport4 & Hvite4 & _).
  rewrite bind_run. unfold modify_self at 1. unfold_monad.
  intros [= <- <- <-]. split_and!; [done|cbn; by rewrite Hself4, Hself3|].
  exists p. split; [|done]. exists sb4. rewrite <-Hname. split_and!; try done.
  congruence.
Qed.

Lemma first_acquire_ready s n u s' :
  get_container s = (Ok (PInfo n u), s') →
  n = run_id (self s) ∧ session_of (self s') = session_of (self s) ∧
  ∃ p, ready_at n p (world s') ∧ u = localhost_url p.
Proof.
  unfold get_container. rewrite bind_run. unfold gets at 1. unfold ignore.
  rewrite bind_run.
  destruct (Docker.containers_get _ s) as [[c|e] s1] eqn:Hget.
  - apply containers_get_inv in Hget as (sb0 & Hsb0 & -> & ->).
    unfold mret, M_ret, ret. intros H.
    by apply restart_previous_container_inv in H.
  - pose proof (keeps_containers_get (run_id (self s)) s) as Hk.
    rewrite Hget in Hk. cbn [snd] in Hk.
    destruct (is_class DockerNotFound e); [|done]. intros H.
    apply create_new_container_inv in H as (-> & Hs & p & Hr & ->).
    unfold session_of in Hk. injection Hk as Hk1 Hk2 Hk3.
    rewrite Hk1 in *. split_and!; [done| |by exists p].
    rewrite Hs. unfold session_of. congruence.
Qed.


End lifecycle_facts.



(** The first acquisition of the witness does provision: it creates the
    container and runs the three bootstrap commands. *)
Example first_acquire_provisions :
  filter (λ c, is_provisioning c = true)
    (api_log (world (get_container Demo.before_acquire).2))
  = [ContainersRun image "run" idle_cmd;
     ContainerExec "run" "apk add --no-cache git" false;
     ContainerExec "run"
       "npx -y degit  OMGATE23/vite-react-ts-tailwind-router-template . --force" false;
     ContainerExec "run" "npm install" false].
Proof. vm_compute. reflexivity. Qed.

(* ===================================================================== *)
(** * Theorems on moving                                                  *)
(* ===================================================================== *)

Section mkdir_facts.
Implicit Types root : node.
Implicit Types p q cur rest : list string.

Lemma clear_way_prefix root p q : clear_way root p → q `prefix_of` p → clear_way root q.
Proof. intros H Hq r Hr. apply H. by etrans. Qed.

(** On a clear way the strict walk stops at the first missing name, with
    [ENOENT]. *)
Lemma namei_go_canonical_missing root fuel cur rest :
  canonical (readlink root) (cur ++ rest) →
  clear_way root (cur ++ rest) →
  is_dir_node (lookup_path root cur) = true →
  lookup_path root (cur ++ rest) = None →
  ∃ e, namei_go root fuel cur rest = Raise e ∧ exn_class_of e = FileNotFoundError.
Proof.
  revert cur; induction rest as [|x rest IH]; intros cur Hc Hway Hcur Hnone.
  { rewrite app_nil_r in Hnone. by rewrite Hnone in Hcur. }
  destruct (canonical_app_plain _ _ _ _ Hc) as ((Hx1 & Hx2 & Hx3) & Hrl & Hc').
  rewrite namei_go_cons.
  destruct (lookup_path root cur) as [[| |es]|] eqn:Hl; try done.
  rewrite decide_False by (by intros [?|?]). rewrite decide_False by done.
  assert (es !! x = lookup_path root (cur ++ [x])) as Hx
    by by rewrite lookup_path_snoc, Hl.
  destruct (Hway (cur ++ [x])) as [Hn|Hd].
  { rewrite (cons_middle x cur rest), app_assoc. by apply prefix_app_r. }
  - rewrite Hx, Hn. by eexists.
  - rewrite Hx. destruct (lookup_path root (cur ++ [x])) as [[| |es']|] eqn:Hl'; try done.
    apply IH; rewrite <-?app_assoc; try done. by rewrite Hl'.
Qed.

Lemma stat_root root cwd :
  stat root cwd (abs []) = Ok root.
Proof. unfold stat, full_parts. cbn [absolute parts abs]. by rewrite namei_go_nil. Qed.

(** [os.mkdir] on a canonical path, case by case. *)
Lemma mkdir_canonical_new root cwd p :
  canonical (readlink root) p → p ≠ [] →
  is_dir_node (lookup_path root (removelast p)) = true →
  lookup_path root p = None →
  OS.mkdir root cwd (abs p) = Ok (modify (λ _, Some (Dir ∅)) p root).
Proof.
  intros Hc Hp Hd Hn. unfold OS.mkdir. unfold_monad.
  by rewrite locate_canonical_ok, Hn by done.
Qed.

Lemma mkdir_canonical_exists root cwd p :
  canonical (readlink root) p →
  is_Some (lookup_path root p) →
  ∃ e, OS.mkdir root cwd (abs p) = Raise e ∧ exn_class_of e = FileExistsError.
Proof.
  intros Hc [n Hn]. unfold OS.mkdir. unfold_monad.
  destruct (decide (p = [])) as [->|Hp].
  - unfold OS.locate. cbn [parts abs last]. rewrite stat_root. by eexists.
  - rewrite locate_canonical_ok, Hn; [by eexists|done..|].
    apply (lookup_path_prefix_dir root (removelast p) [List.last p ""]); [done|].
    rewrite <-app_removelast_last by done. by eexists.
Qed.

Lemma mkdir_canonical_missing root cwd p :
  canonical (readlink root) p → clear_way root p → p ≠ [] →
  lookup_path root (removelast p) = None →
  ∃ e, OS.mkdir root cwd (abs p) = Raise e ∧ exn_class_of e = FileNotFoundError.
Proof.
  intros Hc Hway Hp Hn. unfold OS.mkdir, OS.locate. unfold_monad.
  cbn [parts abs]. destruct (last p) as [x|] eqn:Hx;
    [|by destruct p using rev_ind; [|rewrite last_snoc in Hx]].
  destruct (canonical_last_plain _ _ _ Hc Hx) as (_ & _ & Hdd).
  rewrite decide_False by done.
  unfold OS.locate_parent, full_parts. cbn [absolute parts abs]. unfold_monad.
  destruct (namei_go_canonical_missing root 40 [] (removelast p)) as (e & -> & He); try done.
  - by apply canonical_removelast.
  - eapply clear_way_prefix; [done|apply removelast_prefix].
  - destruct (Hway []) as [H|H]; [apply prefix_nil|done..].
  - by eexists.
Qed.

Lemma shape_absent o : shape_of o = SAbsent ↔ o = None.
Proof. by destruct o as [[]|]. Qed.

Lemma shape_dir o : shape_of o = SDir ↔ is_dir_node o = true.
Proof. by destruct o as [[]|]. Qed.

Lemma lookup_path_prefix_some root p q :
  q `prefix_of` p → is_Some (lookup_path root p) → is_Some (lookup_path root q).
Proof.
  intros [r ->] [n Hn]. rewrite lookup_path_app in Hn.
  destruct (lookup_path root q); [by eexists|done].
Qed.

Lemma is_oserror_exists e : exn_class_of e = FileExistsError → is_oserror e = true.
Proof. unfold is_oserror. by intros ->. Qed.

Lemma dirs_made_refl root p :
  is_dir_node (lookup_path root p) = true → dirs_made root root p.
Proof.
  intros Hd. split; [done|]. intros q. case_decide as Hq; [|done].
  destruct Hq as [Hq Hn].
  destruct (lookup_path_prefix_some root p q Hq) as [n Hn'];
    [by destruct (lookup_path root p)|congruence].
Qed.

Lemma dirs_made_step root p :
  p ≠ [] → is_dir_node (lookup_path root (removelast p)) = true →
  lookup_path root p = None →
  dirs_made root (modify (λ _, Some (Dir ∅)) p root) p.
Proof.
  intros Hp Hd Hn. split; [by rewrite lookup_modify_eq|]. intros q.
  destruct (decide (p `prefix_of` q)) as [[r ->]|Hpq].
  - rewrite lookup_modify_below by done. destruct r as [|y r].
    + rewrite app_nil_r. by rewrite decide_True.
    + rewrite decide_False.
      * rewrite lookup_path_app, Hn. simpl. by rewrite lookup_empty.
      * intros [Hpre _]. apply prefix_length in Hpre. rewrite length_app in Hpre.
        simpl in Hpre. lia.
  - rewrite shape_modify_other by done. rewrite decide_False; [done|].
    intros [Hqp Hqn].
    assert (q `prefix_of` removelast p) as Hq.
    { rewrite (app_removelast_last "" Hp) in Hqp.
      apply prefix_snoc_inv in Hqp as [?|Hq]; [done|]. subst q.
      destruct Hpq. by rewrite <-app_removelast_last. }
    destruct (lookup_path_prefix_some root (removelast p) q Hq) as [n Hn'];
      [by destruct (lookup_path root (removelast p))|congruence].
Qed.

Lemma dirs_made_trans root root1 root2 p :
  p ≠ [] →
  dirs_made root root1 (removelast p) → dirs_made root1 root2 p →
  dirs_made root root2 p.
Proof.
  intros Hp [_ H1] [Hd2 H2]. split; [done|]. intros q.
  rewrite H2. specialize (H1 q).
  assert (removelast p `prefix_of` p) as Hpp by apply removelast_prefix.
  destruct (decide (q `prefix_of` p ∧ lookup_path root1 q = None)) as [[Hq Hn]|Hq1].
  - rewrite Hn in H1. rewrite decide_True; [done|]. split; [done|].
    case_decide; [done|]. by apply shape_absent.
  - rewrite H1. destruct (decide (q `prefix_of` removelast p ∧ lookup_path root q = None))
      as [[Hq Hn]|Hq0].
    + rewrite decide_True; [done|]. split; [by etrans|done].
    + case_decide as Hq; [|done]. destruct Hq as [Hq Hn].
      rewrite (app_removelast_last "" Hp) in Hq.
      apply prefix_snoc_inv in Hq as [Hq|Hq]; [by destruct Hq0|].
      rewrite <-app_removelast_last in Hq by done. subst q.
      destruct Hq1. split; [done|]. apply shape_absent. rewrite H1.
      by rewrite Hn.
Qed.

(** On a clear way, creating a directory with its parents succeeds. *)
Lemma mkdir_parents_go_ok n root cwd p :
  length p ≤ n → canonical (readlink root) p → clear_way root p →
  ∃ root', OS.mkdir_parents_go n root cwd (abs p) = Ok root' ∧ dirs_made root root' p.
Proof.
  revert root p; induction n as [|n IH]; intros root p Hlen Hc Hway.
  - destruct p; [|simpl in Hlen; lia].
    destruct (mkdir_canonical_exists root cwd [] Hc) as (e & He & Hcl); [by eexists|].
    assert (is_dir_node (Some root) = true) as Hroot.
    { destruct (Hway []) as [?|?]; [apply prefix_nil|done..]. }
    exists root. cbn [OS.mkdir_parents_go]. rewrite He, Hcl.
    rewrite bool_decide_false by done. rewrite is_oserror_exists by done.
    rewrite is_dir_canonical by done. cbn [lookup_path]. rewrite Hroot.
    split; [done|]. by apply dirs_made_refl.
  - cbn [OS.mkdir_parents_go].
    destruct (lookup_path root p) as [np|] eqn:Hp.
    + destruct (mkdir_canonical_exists root cwd p Hc) as (e & He & Hcl); [by eexists|].
      assert (is_dir_node (lookup_path root p) = true) as Hd.
      { destruct (Hway p) as [?|?]; [done|congruence|done]. }
      exists root. rewrite He, Hcl. rewrite bool_decide_false by done.
      rewrite is_oserror_exists by done. rewrite is_dir_canonical, Hd by done.
      split; [done|]. by apply dirs_made_refl.
    + assert (p ≠ []) as Hne by (intros ->; done).
      destruct (Hway (removelast p)) as [Hparent|Hparent]; [apply removelast_prefix| |].
      * destruct (mkdir_canonical_missing root cwd p) as (e & He & Hcl); try done.
        rewrite He, Hcl. rewrite bool_decide_true by done.
        destruct (IH root (removelast p)) as (root1 & Hgo & Hmade).
        { destruct p using rev_ind; [done|]. rewrite removelast_last.
          rewrite length_app in Hlen. simpl in Hlen. lia. }
        { by apply canonical_removelast. }
        { eapply clear_way_prefix; [done|apply removelast_prefix]. }
        change (parent (abs p)) with (abs (removelast p)). rewrite Hgo.
        unfold_monad. pose proof (mkdir_parents_go_same_links _ _ _ _ _ Hgo) as Hl.
        pose proof (canonical_same_links _ _ _ Hl Hc) as Hc1.
        assert (lookup_path root1 p = None) as Hp1.
        { apply shape_absent. destruct Hmade as [_ ->]. rewrite decide_False; [by rewrite Hp|].
          intros [Hpre _]. apply prefix_length in Hpre.
          destruct p using rev_ind; [done|]. rewrite removelast_last, length_app in Hpre.
          simpl in Hpre. lia. }
        unfold OS.mkdir_exist_ok.
        rewrite mkdir_canonical_new; try done; [|by destruct Hmade].
        eexists. split; [done|].
        eapply dirs_made_trans; [done..|]. apply dirs_made_step; try done.
        by destruct Hmade.
      * rewrite mkdir_canonical_new by done. eexists. split; [done|].
        by apply dirs_made_step.
Qed.

End mkdir_facts.
Section move_facts.
Implicit Types root : node.
Implicit Types sp dp q : list string.

Lemma canonical_parent_dir root q :
  q ≠ [] → is_Some (lookup_path root q) →
  is_dir_node (lookup_path root (removelast q)) = true.
Proof.
  intros Hq Hs. apply (lookup_path_prefix_dir root (removelast q) [List.last q ""]); [done|].
  by rewrite <-app_removelast_last.
Qed.

(** [os.rename] of an existing entry to a free name in an existing
    directory outside the entry. *)
Lemma rename_canonical root cwd sp dp n :
  canonical (readlink root) sp → canonical (readlink root) dp →
  lookup_path root sp = Some n →
  is_dir_node (lookup_path root (removelast dp)) = true →
  lookup_path root dp = None →
  ¬ sp `prefix_of` dp →
  OS.rename root cwd (abs sp) (abs dp)
  = Ok (modify (λ _, Some n) dp (modify (λ _, None) sp root)).
Proof.
  intros Hcs Hcd Hs Hpd Hd Hpre.
  assert (sp ≠ []) as Hsne by (intros ->; destruct Hpre; apply prefix_nil).
  assert (dp ≠ []) as Hdne by (intros ->; done).
  unfold OS.rename. unfold_monad.
  rewrite (locate_canonical_ok root cwd sp) by
    first [done|apply canonical_parent_dir; [done|by eexists]].
  rewrite (locate_canonical_ok root cwd dp) by done.
  rewrite Hs. rewrite decide_False by (intros ->; congruence).
  rewrite bool_decide_false by done. by rewrite Hd.
Qed.

(** A location stays canonical in a tree where no prefix of it has become
    a link. *)
Lemma canonical_shape root root' q :
  canonical (readlink root) q →
  (∀ q', q' `prefix_of` q → q' ≠ [] →
     ∀ t, shape_of (lookup_path root' q') ≠ SLink t) →
  canonical (readlink root') q.
Proof.
  intros [Hp _] H. split; [done|]. intros q' Hq' Hne. rewrite readlink_shape.
  specialize (H q' Hq' Hne).
  destruct (shape_of _) as [| |t|]; try done. by destruct (H t).
Qed.

Lemma canonical_not_link root q q' :
  canonical (readlink root) q → q' `prefix_of` q → q' ≠ [] →
  ∀ t, shape_of (lookup_path root q') ≠ SLink t.
Proof.
  intros [_ H] Hq' Hne t Hs. specialize (H q' Hq' Hne).
  rewrite readlink_shape, Hs in H. done.
Qed.

(** What the tree looks like after the move. *)
Lemma moved_tree root sp dp n :
  canonical (readlink root) sp → canonical (readlink root) dp →
  lookup_path root sp = Some n →
  is_dir_node (lookup_path root (removelast dp)) = true →
  lookup_path root dp = None →
  ¬ sp `prefix_of` dp →
  let moved := modify (λ _, Some n) dp (modify (λ _, None) sp root) in
  canonical (readlink moved) sp ∧ canonical (readlink moved) dp ∧
  lookup_path moved sp = None ∧ lookup_path moved dp = Some n ∧
  is_dir_node (lookup_path moved (removelast dp)) = true.
Proof.
  intros Hcs Hcd Hs Hpd Hd Hpre moved.
  assert (sp ≠ []) as Hsne by (intros ->; destruct Hpre; apply prefix_nil).
  assert (dp ≠ []) as Hdne by (intros ->; done).
  assert (¬ dp `prefix_of` sp) as Hpre'.
  { intros H. destruct (lookup_path_prefix_some root sp dp H) as [? ?]; [by eexists|congruence]. }
  assert (is_dir_node (lookup_path root (removelast sp)) = true) as Hps
    by (apply canonical_parent_dir; [done|by eexists]).
  assert (is_dir_node (lookup_path (modify (λ _, None) sp root) (removelast dp)) = true)
    as Hpd'.
  { apply shape_dir. rewrite shape_modify_other; [by apply shape_dir|].
    intros H. apply Hpre. etrans; [done|apply removelast_prefix]. }
  assert (lookup_path moved sp = None) as Hms.
  { apply shape_absent. unfold moved. rewrite shape_modify_other by done.
    by rewrite lookup_modify_eq. }
  assert (lookup_path moved dp = Some n) as Hmd
    by (unfold moved; by rewrite lookup_modify_eq).
  split_and!; try done.
  - apply (canonical_shape root); [done|]. intros q' Hq' Hne t.
    destruct (decide (q' = sp)) as [->|Hneq]; [by rewrite Hms|].
    unfold moved. rewrite !shape_modify_other.
    + by apply (canonical_not_link root sp).
    + intros H. apply Hneq. by apply (anti_symm prefix).
    + intros H. apply Hpre'. by etrans.
  - apply (canonical_shape root); [done|]. intros q' Hq' Hne t.
    destruct (decide (q' = dp)) as [->|Hneq].
    { rewrite Hmd. pose proof (canonical_not_link root sp sp Hcs (reflexivity _) Hsne t) as H.
      by rewrite Hs in H. }
    unfold moved. rewrite !shape_modify_other.
    + by apply (canonical_not_link root dp).
    + intros H. apply Hpre. by etrans.
    + intros H. apply Hneq. by apply (anti_symm prefix).
  - apply shape_dir. unfold moved. rewrite shape_modify_other; [by apply shape_dir|].
    intros H. apply prefix_length in H.
    destruct dp using rev_ind; [done|]. rewrite removelast_last, length_app in H.
    simpl in H. lia.
Qed.

End move_facts.
Section move_item_facts.
Implicit Types s : State.

Lemma path_resolve_run p s :
  path_resolve p s =
    match resolve (fs (world s)) (cwd (world s)) p with
    | Ok q => (Ok (abs q), s)
    | Raise e => (Raise e, s)
    end.
Proof. unfold path_resolve. unfold_monad. by case_match. Qed.

(** [move_item] up to the point where the tree changes. *)
Lemma move_item_run source dest s c sp dp b :
  container (self s) = Some c →
  resolve (fs (world s)) (cwd (world s))
    (joinpath (project_dir (self s)) (parse source)) = Ok sp →
  resolve (fs (world s)) (cwd (world s))
    (joinpath (project_dir (self s)) (parse dest)) = Ok dp →
  resolve (fs (world s)) (cwd (world s)) (project_dir (self s)) = Ok b →
  Py.startswith (str (abs sp)) (str (abs b)) = true →
  Py.startswith (str (abs dp)) (str (abs b)) = true →
  move_item source dest s =
    if negb (exists_ (fs (world s)) (cwd (world s)) (abs sp))
    then (Ok (PError "Source file not found"), s)
    else if exists_ (fs (world s)) (cwd (world s)) (abs dp)
    then (Ok (PError "Destination already exists"), s)
    else
      match (path_mkdir_parents (parent (abs dp));;
             shutil_move (abs sp) (abs dp);;
             mret (PStatus ("Moved " +:+ source +:+ " to " +:+ dest))) s with
      | (Raise e, s') => (Ok (PError (str_of_exn e)), s')
      | r => r
      end.
Proof.
  intros Hc Hs Hd Hb Hps Hpd.
  unfold move_item. rewrite (require_container_some _ _ _ Hc).
  rewrite bind_run, get_safe_path_run, get_safe_path_eq. cbv zeta.
  rewrite Hs, Hb, Hps. rewrite bind_run. unfold gets at 1.
  rewrite bind_run, path_resolve_run, Hd, bind_run, path_resolve_run, Hb, Hpd.
  cbn [negb]. rewrite bind_run. unfold path_exists at 1. rewrite bind_run.
  unfold gets at 1. unfold mret at 1, M_ret at 1, ret at 1.
  destruct (exists_ _ _ (abs sp)); cbn [negb]; [|done].
  rewrite bind_run. unfold path_exists at 1. rewrite bind_run.
  unfold gets at 1. unfold mret at 1, M_ret at 1, ret at 1.
  destruct (exists_ _ _ (abs dp)); [done|]. done.
Qed.

End move_item_facts.

Lemma shutil_move_run sp dp s root' :
  is_dir (fs (world s)) (cwd (world s)) (abs dp) = false →
  OS.rename (fs (world s)) (cwd (world s)) (abs sp) (abs dp) = Ok root' →
  shutil_move (abs sp) (abs dp) s = (Ok (), with_fs root' s).
Proof.
  intros Hd Hr. unfold shutil_move, update_fs. unfold_monad.
  rewrite Hd. cbn [andb]. by rewrite Hr.
Qed.

(** C7, as amended: for every pair of guarded paths, [move] fails with an
    error, changing nothing, when [src] is missing or when [dest] already
    exists (it never overwrites [dest]); otherwise, provided [dest] does
    not lie inside [src] and nothing but directories stands on the way to
    the parent of [dest], it creates the parent directories of [dest],
    succeeds, and afterwards [src] is absent and [dest] is present, as the
    file or the directory [src] was. *)
Theorem C7_move_item source dest s c sp dp b :
  container (self s) = Some c →
  resolve (fs (world s)) (cwd (world s))
    (joinpath (project_dir (self s)) (parse source)) = Ok sp →
  resolve (fs (world s)) (cwd (world s))
    (joinpath (project_dir (self s)) (parse dest)) = Ok dp →
  resolve (fs (world s)) (cwd (world s)) (project_dir (self s)) = Ok b →
  Py.startswith (str (abs sp)) (str (abs b)) = true →
  Py.startswith (str (abs dp)) (str (abs b)) = true →
  let root := fs (world s) in
  let here := cwd (world s) in
  (exists_ root here (abs sp) = false →
   move_item source dest s = (Ok (PError "Source file not found"), s)) ∧
  (exists_ root here (abs sp) = true → exists_ root here (abs dp) = true →
   move_item source dest s = (Ok (PError "Destination already exists"), s)) ∧
  (exists_ root here (abs sp) = true → exists_ root here (abs dp) = false →
   ¬ sp `prefix_of` dp → clear_way root (removelast dp) →
   ∃ s',
     move_item source dest s
     = (Ok (PStatus ("Moved " +:+ source +:+ " to " +:+ dest)), s') ∧
     self s' = self s ∧
     is_dir (fs (world s')) (cwd (world s')) (parent (abs dp)) = true ∧
     exists_ (fs (world s')) (cwd (world s')) (abs sp) = false ∧
     exists_ (fs (world s')) (cwd (world s')) (abs dp) = true ∧
     shape_of (lookup_path (fs (world s')) dp) = shape_of (lookup_path root sp)).
Proof.
  intros Hc Hs Hd Hb Hps Hpd root here.
  pose proof (move_item_run _ _ _ _ _ _ _ Hc Hs Hd Hb Hps Hpd) as Hrun.
  fold root here in Hrun. split_and!.
  - intros Hes. by rewrite Hrun, Hes.
  - intros Hes Hed. by rewrite Hrun, Hes, Hed.
  - intros Hes Hed Hpre Hway. rewrite Hrun, Hes, Hed. cbn [negb]. clear Hrun.
    pose proof (resolve_canonical _ _ _ _ Hs) as Hcs.
    pose proof (resolve_canonical _ _ _ _ Hd) as Hcd.
    fold root in Hcs, Hcd.
    rewrite exists_canonical in Hes, Hed by done.
    apply bool_decide_eq_true in Hes as [n0 Hn0].
    apply bool_decide_eq_false in Hed.
    assert (lookup_path root dp = None) as Hdn
      by (destruct (lookup_path root dp); [destruct Hed; by eexists|done]).
    assert (dp ≠ []) as Hdne by (intros ->; done).
    destruct (mkdir_parents_go_ok (length (removelast dp)) root here (removelast dp))
      as (root1 & Hmk & Hdir1 & Hshape1); [done|by apply canonical_removelast|done|].
    pose proof (mkdir_parents_go_same_links _ _ _ _ _ Hmk) as Hl1.
    assert (lookup_path root1 dp = None) as Hdn1.
    { apply shape_absent. rewrite Hshape1, decide_False; [by rewrite Hdn|].
      intros [H _]. apply prefix_length in H.
      destruct dp using rev_ind; [done|]. rewrite removelast_last, length_app in H.
      simpl in H. lia. }
    assert (shape_of (lookup_path root1 sp) = shape_of (lookup_path root sp)) as Hsh.
    { rewrite Hshape1, decide_False; [done|]. intros [_ H]. congruence. }
    destruct (lookup_path root1 sp) as [n1|] eqn:Hn1;
      [|by rewrite Hn0 in Hsh; destruct n0].
    pose proof (canonical_same_links _ _ _ Hl1 Hcs) as Hcs1.
    pose proof (canonical_same_links _ _ _ Hl1 Hcd) as Hcd1.
    pose proof (rename_canonical root1 here sp dp n1 Hcs1 Hcd1 Hn1 Hdir1 Hdn1 Hpre) as Hren.
    destruct (moved_tree root1 sp dp n1 Hcs1 Hcd1 Hn1 Hdir1 Hdn1 Hpre)
      as (Hms & Hmd & Hls & Hld & Hlp).
    set (moved := modify (λ _, Some n1) dp (modify (λ _, None) sp root1)) in *.
    rewrite bind_run, path_mkdir_parents_run.
    change (parent (abs dp)) with (abs (removelast dp)).
    unfold OS.mkdir_parents. cbn [parts abs]. fold root here. rewrite Hmk.
    rewrite bind_run, (shutil_move_run sp dp (with_fs root1 s) moved);
      cbn [with_fs world self fs cwd set_fs]; [| |done].
    + eexists. split; [done|]. cbn [with_fs world self fs cwd set_fs].
      split_and!; try done.
      * rewrite is_dir_canonical; [done|]. by apply canonical_removelast.
      * rewrite exists_canonical, Hls by done. by apply bool_decide_eq_false; intros [].
      * rewrite exists_canonical, Hld by done. by apply bool_decide_eq_true.
      * by rewrite Hld, <-Hsh.
    + fold here. by rewrite is_dir_canonical, Hdn1.
Qed.

Lemma C7_move_item_witness :
  let s := Demo.after_acquire in
  let root := fs (world s) in
  let here := cwd (world s) in
  let sp := ["ws"; "run"; "b.txt"] in
  let dp := ["ws"; "run"; "a_folder"; "c"; "d.txt"] in
  resolve root here (joinpath (project_dir (self s)) (parse "b.txt")) = Ok sp ∧
  resolve root here (joinpath (project_dir (self s)) (parse "a_folder/c/d.txt")) = Ok dp ∧
  exists_ root here (abs sp) = true ∧
  exists_ root here (abs dp) = false ∧
  ∃ s',
    move_item "b.txt" "a_folder/c/d.txt" s
    = (Ok (PStatus "Moved b.txt to a_folder/c/d.txt"), s') ∧
    self s' = self s ∧
    is_dir (fs (world s')) (cwd (world s')) (parent (abs dp)) = true ∧
    exists_ (fs (world s')) (cwd (world s')) (abs sp) = false ∧
    exists_ (fs (world s')) (cwd (world s')) (abs dp) = true ∧
    shape_of (lookup_path (fs (world s')) dp) = SFile "hello".
Proof.
  intros s root here sp dp.
  assert (container (self s) = Some (Docker.snapshot "run" Demo.ready_sandbox)) as Hc
    by reflexivity.
  assert (resolve root here (joinpath (project_dir (self s)) (parse "b.txt")) = Ok sp)
    as Hs by (vm_compute; reflexivity).
  assert (resolve root here (joinpath (project_dir (self s)) (parse "a_folder/c/d.txt"))
          = Ok dp) as Hd by (vm_compute; reflexivity).
  assert (resolve root here (project_dir (self s)) = Ok ["ws"; "run"]) as Hb
    by (vm_compute; reflexivity).
  assert (Py.startswith (str (abs sp)) (str (abs ["ws"; "run"])) = true) as Hps
    by (vm_compute; reflexivity).
  assert (Py.startswith (str (abs dp)) (str (abs ["ws"; "run"])) = true) as Hpd
    by (vm_compute; reflexivity).
  assert (exists_ root here (abs sp) = true) as Hes by (vm_compute; reflexivity).
  assert (exists_ root here (abs dp) = false) as Hed by (vm_compute; reflexivity).
  assert (¬ sp `prefix_of` dp) as Hpre.
  { intros [k Hk]. discriminate Hk. }
  assert (clear_way root (removelast dp)) as Hway.
  { intros q [k Hk]. cbn in Hk.
    repeat (destruct q as [|? q];
            [first [left; vm_compute; reflexivity|right; vm_compute; reflexivity]
            |injection Hk as <- Hk]).
    destruct q; [|discriminate Hk]. left; vm_compute; reflexivity. }
  destruct (C7_move_item "b.txt" "a_folder/c/d.txt" s _ sp dp _ Hc Hs Hd Hb Hps Hpd)
    as (_ & _ & H3).
  split_and!; [exact Hs|exact Hd|exact Hes|exact Hed|].
  exact (H3 Hes Hed Hpre Hway).
Defined.

(** C7 as stated fails when [dest] lies inside [src]: both paths pass the
    guard, [a_folder] exists and [a_folder/b] does not, yet the move
    answers with an error and moves nothing. *)
Lemma C7_move_into_itself_fails :
  let s := Demo.after_acquire in
  let root := fs (world s) in
  let here := cwd (world s) in
  (_get_safe_path "a_folder" s).1 = Ok (abs ["ws"; "run"; "a_folder"]) ∧
  (_get_safe_path "a_folder/b" s).1 = Ok (abs ["ws"; "run"; "a_folder"; "b"]) ∧
  exists_ root here (abs ["ws"; "run"; "a_folder"]) = true ∧
  exists_ root here (abs ["ws"; "run"; "a_folder"; "b"]) = false ∧
  (move_item "a_folder" "a_folder/b" s).1
  = Ok (PError
      "Cannot move a directory '/ws/run/a_folder' into itself '/ws/run/a_folder/b'.") ∧
  exists_ (fs (world (move_item "a_folder" "a_folder/b" s).2)) here
    (abs ["ws"; "run"; "a_folder"]) = true ∧
  exists_ (fs (world (move_item "a_folder" "a_folder/b" s).2)) here
    (abs ["ws"; "run"; "a_folder"; "b"]) = false.
Proof. split_and!; vm_compute; reflexivity. Qed.

(* ===================================================================== *)
(** * What a computation leaves alone                                     *)
(* ===================================================================== *)

Section preserves_facts.
Context {X : Type} (f : State → X).

Lemma preserves_ret {A} (a : A) : preserves f (mret a : M A).
Proof. by intros s. Qed.

Lemma preserves_raise {A} e : preserves f (raise e : M A).
Proof. by intros s. Qed.

Lemma preserves_gets {A} (g : State → A) : preserves f (gets g).
Proof. by intros s. Qed.

Lemma preserves_lift {A} (o : outcome A) : preserves f (lift_outcome o).
Proof. by intros s. Qed.

Lemma preserves_bind {A B} (m : M A) (k : A → M B) :
  preserves f m → (∀ a, preserves f (k a)) → preserves f (m ≫= k).
Proof.
  intros Hm Hk s. unfold mbind, M_bind, bind. specialize (Hm s).
  destruct (m s) as [[a|e] s1]; [|done]. simpl in Hm. by rewrite Hk.
Qed.

Lemma preserves_try {A} (m : M A) handled h :
  preserves f m → (∀ e, preserves f (h e)) → preserves f (try_except m handled h).
Proof.
  intros Hm Hh s. unfold try_except. specialize (Hm s).
  destruct (m s) as [[a|e] s1]; [done|]. simpl in Hm.
  destruct (handled e); [|done]. by rewrite Hh.
Qed.

Lemma preserves_ignore {A} (m : M A) : preserves f m → preserves f (ignore m).
Proof. intros. apply preserves_bind; [done|]. intros. apply preserves_ret. Qed.

Lemma preserves_require func : preserves f func → preserves f (require_container func).
Proof.
  intros Hf. unfold require_container. apply preserves_bind; [apply preserves_gets|].
  intros o. destruct (container o); [|apply preserves_ret].
  apply preserves_try; [done|]. intros. apply preserves_ret.
Qed.

Lemma preserves_mapM {A B} (g : A → M B) (l : list A) :
  (∀ x, preserves f (g x)) → preserves f (mapM g l).
Proof.
  intros Hg. induction l as [|x l IH]; [apply preserves_ret|].
  cbn [mapM]. apply preserves_bind; [done|]. intros y.
  apply preserves_bind; [done|]. intros k. apply preserves_ret.
Qed.

End preserves_facts.

Ltac preserves_step :=
  match goal with
  | |- preserves _ (mret _) => apply preserves_ret
  | |- preserves _ (raise _) => apply preserves_raise
  | |- preserves _ (gets _) => apply preserves_gets
  | |- preserves _ (lift_outcome _) => apply preserves_lift
  | |- preserves _ (_ ≫= _) => apply preserves_bind; [|intros ?]
  | |- preserves _ (try_except _ _ _) => apply preserves_try; [|intros ?]
  | |- preserves _ (ignore _) => apply preserves_ignore
  | |- preserves _ (require_container _) => apply preserves_require
  | |- preserves _ (mapM _ _) => apply preserves_mapM; intros ?
  | |- preserves _ (if ?b then _ else _) => destruct b
  | |- preserves _ (match ?x with _ => _ end) => destruct x
  | |- preserves _ (let '(_, _) := ?x in _) => destruct x
  end.


(* ===================================================================== *)
(** * Further theorems on reading and writing                             *)
(* ===================================================================== *)

Section reading_facts.
Implicit Types s : State.

Lemma preserves_get_safe_path {X} (f : State → X) p : preserves f (_get_safe_path p).
Proof. unfold _get_safe_path, path_resolve. repeat preserves_step. Qed.

(** X1: listing a directory, reading a file and rendering a file never
    change anything: the file system, the daemon (no request is sent to
    it) and the orchestrator are afterwards what they were, whatever the
    path and whatever the answer. *)
Theorem reading_changes_nothing path s :
  (list_files path s).2 = s ∧
  (read_file path s).2 = s ∧
  (read_file_formatted path s).2 = s.
Proof.
  assert (preserves id (list_files path)) as H1.
  { unfold list_files, path_exists, path_iterdir, path_is_dir.
    repeat (preserves_step || apply preserves_get_safe_path). }
  assert (preserves id (read_file path)) as H2.
  { unfold read_file, path_is_file, read_text.
    repeat (preserves_step || apply preserves_get_safe_path). }
  assert (preserves id (read_file_formatted path)) as H3.
  { unfold read_file_formatted, path_is_file, read_text.
    repeat (preserves_step || apply preserves_get_safe_path). }
  split_and!; [apply H1|apply H2|apply H3].
Qed.
End reading_facts.

Section not_a_file.
Implicit Types s : State.

Lemma get_safe_path_canonical path s t :
  _get_safe_path path s = (Ok (abs t), s) → canonical (readlink (fs (world s))) t.
Proof.
  intros H. assert ((_get_safe_path path s).1 = Ok (abs t)) as H1 by by rewrite H.
  apply get_safe_path_ok in H1 as (t' & b & [= <-] & Ht & _).
  by eapply resolve_canonical.
Qed.

Lemma path_is_file_run p s :
  path_is_file p s = (Ok (is_file (fs (world s)) (cwd (world s)) p), s).
Proof. done. Qed.

(** X2: a path that does not lead to a regular file (a directory, or
    nothing at all) is answered with an error and nothing is changed:
    [read_file] and [read_file_formatted] say "File not found or is a
    directory", [replace_code] says "File not found". *)
Theorem not_a_file_refused path s c t :
  container (self s) = Some c →
  _get_safe_path path s = (Ok (abs t), s) →
  is_file_node (lookup_path (fs (world s)) t) = false →
  read_file path s = (Ok (PError "File not found or is a directory"), s) ∧
  read_file_formatted path s = (Ok (PError "File not found or is a directory"), s) ∧
  ∀ search_block replace_block,
    replace_code path search_block replace_block s = (Ok (PError "File not found"), s).
Proof.
  intros Hc Hg Hf.
  pose proof (get_safe_path_canonical _ _ _ Hg) as Hcan.
  assert (is_file (fs (world s)) (cwd (world s)) (abs t) = false) as Hnf
    by by rewrite is_file_canonical.
  split_and!; [| |intros a r];
    unfold read_file, read_file_formatted, replace_code;
    rewrite (require_container_some _ _ _ Hc), bind_run, Hg, bind_run,
      path_is_file_run, Hnf; done.
Qed.

Lemma not_a_file_refused_witness :
  let s := Demo.after_acquire in
  let t := ["ws"; "run"; "a_folder"] in
  container (self s) = Some (Docker.snapshot "run" Demo.ready_sandbox) ∧
  _get_safe_path "a_folder" s = (Ok (abs t), s) ∧
  is_file_node (lookup_path (fs (world s)) t) = false ∧
  read_file "a_folder" s = (Ok (PError "File not found or is a directory"), s).
Proof.
  split_and!; [done|by vm_compute|done|].
  apply (not_a_file_refused "a_folder" Demo.after_acquire
           (Docker.snapshot "run" Demo.ready_sandbox) ["ws"; "run"; "a_folder"]);
    [done|by vm_compute|done].
Defined.
End not_a_file.

(** [clear_way] in a tree that is given: the prefixes are tried one by one. *)
Ltac clear_way_concrete :=
  let q := fresh "q" in
  let k := fresh "k" in
  let Hk := fresh "Hk" in
  intros q [k Hk]; cbn in Hk;
  repeat (destruct q as [|? q];
          [first [left; vm_compute; reflexivity|right; vm_compute; reflexivity]
          |injection Hk as <- Hk]);
  destruct q; [|discriminate Hk];
  first [left; vm_compute; reflexivity|right; vm_compute; reflexivity].

Section writing_facts.
Implicit Types s : State.
Implicit Types root : node.

Lemma with_fs_same s : with_fs (fs (world s)) s = s.
Proof. by destruct s as [o []]. Qed.

Lemma get_safe_path_same_links path s root' tp :
  same_links (fs (world s)) root' →
  _get_safe_path path s = (Ok tp, s) →
  _get_safe_path path (with_fs root' s) = (Ok tp, with_fs root' s).
Proof.
  intros Hl H. rewrite get_safe_path_run, get_safe_path_eq.
  assert ((_get_safe_path path s).1 = Ok tp) as H1 by by rewrite H.
  rewrite get_safe_path_eq in H1. cbn zeta in *.
  cbn [with_fs world self set_fs fs cwd].
  by rewrite !(resolve_same_links _ _ _ _ Hl), H1.
Qed.

(** [os.mkdir] on a name that is taken. *)
Lemma mkdir_canonical_taken root cwd p :
  canonical (readlink root) p →
  is_Some (lookup_path root p) →
  OS.mkdir root cwd (abs p) = Raise (OS.eexist p).
Proof.
  intros Hc [n Hn]. unfold OS.mkdir. unfold_monad.
  destruct (decide (p = [])) as [->|Hp].
  - unfold OS.locate. cbn [parts abs last]. by rewrite stat_root.
  - rewrite locate_canonical_ok, Hn; [done..|].
    apply canonical_parent_dir; [done|by eexists].
Qed.

Lemma mkdir_parents_go_taken n root cwd p :
  canonical (readlink root) p →
  is_Some (lookup_path root p) →
  OS.mkdir_parents_go n root cwd (abs p) =
    if is_dir_node (lookup_path root p) then Ok root else Raise (OS.eexist p).
Proof.
  intros Hc Hs.
  assert (∀ X (a b : X), (if bool_decide (exn_class_of (OS.eexist p) = FileNotFoundError)
                          then a else b) = b) as Hcl by done.
  destruct n; cbn [OS.mkdir_parents_go];
    rewrite mkdir_canonical_taken, Hcl, is_dir_canonical by done;
    by destruct (is_dir_node _).
Qed.

(** [open(p, "w")] on a canonical path whose parent is a directory and
    which is not a directory itself. *)
Lemma open_write_canonical_ok root cwd q content :
  canonical (readlink root) q → q ≠ [] →
  is_dir_node (lookup_path root (removelast q)) = true →
  is_dir_node (lookup_path root q) = false →
  OS.open_write root cwd (abs q) content
  = Ok (modify (λ _, Some (File content)) q root).
Proof.
  intros Hc Hq Hd Hnd. unfold OS.open_write. cbn [OS.open_write_go]. unfold_monad.
  rewrite locate_canonical_ok by done.
  destruct (lookup_path root q) as [[| |]|] eqn:Hl; try done.
  destruct Hc as [_ Hc]. specialize (Hc q (reflexivity _) Hq).
  unfold readlink in Hc. by rewrite Hl in Hc.
Qed.

Lemma open_write_canonical_dir root cwd q content :
  canonical (readlink root) q →
  is_dir_node (lookup_path root q) = true →
  OS.open_write root cwd (abs q) content = Raise (OS.eisdir q).
Proof.
  intros Hc Hd. unfold OS.open_write. cbn [OS.open_write_go]. unfold_monad.
  destruct (decide (q = [])) as [->|Hq].
  - unfold OS.locate. cbn [parts abs last]. by rewrite stat_root.
  - rewrite locate_canonical_ok; [|done..|].
    + by destruct (lookup_path root q) as [[| |]|].
    + apply canonical_parent_dir; [done|]. by destruct (lookup_path root q).
Qed.

Lemma written_eq content :
  match content with
  | Some c => if bool_decide (c = "") then "" else c
  | None => ""
  end = written content.
Proof. destruct content as [c|]; [|done]. by case_bool_decide. Qed.

(** X3: with a type that is neither ["file"] nor ["folder"],
    [write_file_folder] changes nothing and answers with an error; when a
    container is held and the path passes the guard, the error is "Invalid
    type. Must be 'file' or 'folder'". *)
Theorem write_invalid_type path kind content s :
  kind ≠ "folder" → kind ≠ "file" →
  (write_file_folder path kind content s).2 = s ∧
  (∃ msg, (write_file_folder path kind content s).1 = Ok (PError msg)) ∧
  ∀ tp, is_Some (container (self s)) →
    _get_safe_path path s = (Ok tp, s) →
    (write_file_folder path kind content s).1
    = Ok (PError "Invalid type. Must be 'file' or 'folder'").
Proof.
  intros H1 H2. unfold write_file_folder.
  rewrite !bool_decide_false by done.
  destruct (container (self s)) as [c|] eqn:Hc.
  - rewrite (require_container_some _ _ _ Hc), bind_run, get_safe_path_run.
    destruct (_get_safe_path path s).1 as [tp|e] eqn:Hg.
    + split_and!; [done|by eexists|done].
    + split_and!; [done|by eexists|]. by intros ? _ [=].
  - rewrite (require_container_none _ _ Hc). split_and!; [done|by eexists|].
    by intros ? [].
Qed.

Lemma write_invalid_type_witness :
  let s := Demo.after_acquire in
  "symlink" ≠ "folder" ∧ "symlink" ≠ "file" ∧
  (write_file_folder "x" "symlink" None s).2 = s.
Proof.
  split_and!; [done..|].
  apply (write_invalid_type "x" "symlink" None Demo.after_acquire); done.
Defined.

(** X4: [write_file_folder(path, "folder")] on a path that passes the
    guard, with nothing but directories on the way, succeeds: the path is
    a directory afterwards, the missing directories on the way have been
    made, and every other entry is what it was.  Asking again succeeds
    again and changes nothing. *)
Theorem folder_created path content s c t :
  container (self s) = Some c →
  _get_safe_path path s = (Ok (abs t), s) →
  clear_way (fs (world s)) t →
  ∃ s',
    write_file_folder path "folder" content s
    = (Ok (PStatus ("Folder " +:+ path +:+ " created")), s') ∧
    self s' = self s ∧
    dirs_made (fs (world s)) (fs (world s')) t ∧
    is_dir (fs (world s')) (cwd (world s')) (abs t) = true ∧
    write_file_folder path "folder" content s'
    = (Ok (PStatus ("Folder " +:+ path +:+ " created")), s').
Proof.
  intros Hc Hg Hway.
  pose proof (get_safe_path_canonical _ _ _ Hg) as Hcan.
  destruct (mkdir_parents_go_ok (length t) (fs (world s)) (cwd (world s)) t)
    as (root' & Hgo & Hmade); [done..|].
  pose proof (mkdir_parents_go_same_links _ _ _ _ _ Hgo) as Hl.
  pose proof (canonical_same_links _ _ _ Hl Hcan) as Hcan'.
  exists (with_fs root' s).
  assert (write_file_folder path "folder" content s
          = (Ok (PStatus ("Folder " +:+ path +:+ " created")), with_fs root' s)) as H1.
  { unfold write_file_folder.
    rewrite (require_container_some _ _ _ Hc), bind_run, Hg.
    rewrite bool_decide_true by done. rewrite bind_run, path_mkdir_parents_run.
    unfold OS.mkdir_parents. cbn [parts abs]. by rewrite Hgo. }
  split_and!; [done|done|done| |].
  - cbn [with_fs world set_fs fs cwd]. rewrite is_dir_canonical by done. by destruct Hmade.
  - unfold write_file_folder.
    rewrite (require_container_some _ _ c) by done.
    rewrite bind_run, (get_safe_path_same_links _ _ _ _ Hl Hg).
    rewrite bool_decide_true by done. rewrite bind_run, path_mkdir_parents_run.
    unfold OS.mkdir_parents. cbn [parts abs with_fs world set_fs fs cwd].
    rewrite mkdir_parents_go_taken; [|done|].
    + destruct Hmade as [-> _]. done.
    + destruct Hmade as [Hd _]. by destruct (lookup_path root' t).
Qed.

Lemma folder_created_witness :
  let s := Demo.after_acquire in
  let t := ["ws"; "run"; "x"; "y"] in
  _get_safe_path "x/y" s = (Ok (abs t), s) ∧
  ∃ s',
    write_file_folder "x/y" "folder" None s
    = (Ok (PStatus "Folder x/y created"), s') ∧
    self s' = self s ∧
    dirs_made (fs (world s)) (fs (world s')) t ∧
    is_dir (fs (world s')) (cwd (world s')) (abs t) = true ∧
    write_file_folder "x/y" "folder" None s'
    = (Ok (PStatus "Folder x/y created"), s').
Proof.
  split; [by vm_compute|].
  apply (folder_created "x/y" None Demo.after_acquire
           (Docker.snapshot "run" Demo.ready_sandbox) ["ws"; "run"; "x"; "y"]);
    [done|by vm_compute|].
  clear_way_concrete.
Defined.

End writing_facts.

Section writing_more.
Implicit Types s : State.
Implicit Types root : node.

(** X5: a folder is not made over a file, and a file is not written over
    a directory.  [write_file_folder(path, "folder")] on an existing file
    answers with the [FileExistsError] of [mkdir], and
    [write_file_folder(path, "file", ..)] on an existing directory with
    the [IsADirectoryError] of [open]; in both cases nothing is changed. *)
Theorem write_kind_clash path content s c t :
  container (self s) = Some c →
  _get_safe_path path s = (Ok (abs t), s) →
  (is_file_node (lookup_path (fs (world s)) t) = true →
   write_file_folder path "folder" content s
   = (Ok (PError ("[Errno 17] File exists: '" +:+ str (abs t) +:+ "'")), s)) ∧
  (is_dir_node (lookup_path (fs (world s)) t) = true →
   write_file_folder path "file" content s
   = (Ok (PError ("[Errno 21] Is a directory: '" +:+ str (abs t) +:+ "'")), s)).
Proof.
  intros Hc Hg. pose proof (get_safe_path_canonical _ _ _ Hg) as Hcan.
  split; intros Hk; unfold write_file_folder;
    rewrite (require_container_some _ _ _ Hc), bind_run, Hg.
  - rewrite bool_decide_true by done. rewrite bind_run, path_mkdir_parents_run.
    unfold OS.mkdir_parents. cbn [parts abs].
    rewrite mkdir_parents_go_taken; [|done|by destruct (lookup_path _ t)].
    by destruct (lookup_path _ t) as [[| |]|].
  - rewrite bool_decide_false by done. rewrite bool_decide_true by done.
    rewrite bind_run, path_mkdir_parents_run.
    unfold OS.mkdir_parents. change (parent (abs t)) with (abs (removelast t)).
    cbn [parts abs].
    assert (is_dir_node (lookup_path (fs (world s)) (removelast t)) = true) as Hp.
    { destruct (decide (t = [])) as [->|Ht]; [done|].
      apply canonical_parent_dir; [done|]. by destruct (lookup_path _ t). }
    rewrite mkdir_parents_go_taken, Hp;
      [|by apply canonical_removelast|by destruct (lookup_path _ (removelast t))].
    rewrite with_fs_same, bind_run, write_text_run.
    by rewrite open_write_canonical_dir.
Qed.

Lemma write_kind_clash_witness :
  let s := Demo.after_acquire in
  _get_safe_path "b.txt" s = (Ok (abs ["ws"; "run"; "b.txt"]), s) ∧
  write_file_folder "b.txt" "folder" None s
  = (Ok (PError "[Errno 17] File exists: '/ws/run/b.txt'"), s).
Proof.
  assert (_get_safe_path "b.txt" Demo.after_acquire
          = (Ok (abs ["ws"; "run"; "b.txt"]), Demo.after_acquire)) as Hg by by vm_compute.
  split; [exact Hg|].
  exact (proj1 (write_kind_clash "b.txt" None Demo.after_acquire
                  (Docker.snapshot "run" Demo.ready_sandbox) ["ws"; "run"; "b.txt"]
                  eq_refl Hg) eq_refl).
Defined.

(** X6: [write_file_folder(path, "file", content)] on a path that passes
    the guard and is not a directory, with nothing but directories on the
    way to its parent, succeeds.  Afterwards the file holds [content] (the
    empty text when no content is given), the missing directories on the
    way have been made, and every other entry of the tree is what it was:
    no other file is touched. *)
Theorem file_written path content s c t :
  container (self s) = Some c →
  _get_safe_path path s = (Ok (abs t), s) →
  t ≠ [] →
  clear_way (fs (world s)) (removelast t) →
  is_dir_node (lookup_path (fs (world s)) t) = false →
  ∃ s',
    write_file_folder path "file" content s
    = (Ok (PStatus ("File " +:+ path +:+ " created")), s') ∧
    self s' = self s ∧
    lookup_path (fs (world s')) t = Some (File (written content)) ∧
    ∀ q, q ≠ t →
      shape_of (lookup_path (fs (world s')) q) =
        if decide (q `prefix_of` removelast t ∧ lookup_path (fs (world s)) q = None)
        then SDir else shape_of (lookup_path (fs (world s)) q).
Proof.
  intros Hc Hg Ht Hway Hnd. set (root := fs (world s)) in *.
  pose proof (get_safe_path_canonical _ _ _ Hg) as Hcan.
  destruct (mkdir_parents_go_ok (length (removelast t)) root (cwd (world s)) (removelast t))
    as (root1 & Hgo & Hmade); [done|by apply canonical_removelast|done|].
  pose proof (mkdir_parents_go_same_links _ _ _ _ _ Hgo) as Hl.
  pose proof (canonical_same_links _ _ _ Hl Hcan) as Hcan1.
  assert (¬ t `prefix_of` removelast t) as Hlen.
  { intros Hpre%prefix_length. destruct t using rev_ind; [done|].
    rewrite removelast_last, length_app in Hpre. simpl in Hpre. lia. }
  assert (shape_of (lookup_path root1 t) = shape_of (lookup_path root t)) as Hsh.
  { destruct Hmade as [_ ->]. rewrite decide_False; [done|]. by intros [? _]. }
  assert (is_dir_node (lookup_path root1 t) = false) as Hnd1.
  { destruct (lookup_path root1 t) as [[| |]|], (lookup_path root t) as [[| |]|];
      simplify_eq/=; done. }
  assert (is_dir_node (lookup_path root1 (removelast t)) = true) as Hp1 by by destruct Hmade.
  set (root2 := modify (λ _, Some (File (written content))) t root1).
  exists (with_fs root2 s).
  split_and!; [|done|by apply lookup_modify_eq|].
  - unfold write_file_folder.
    rewrite (require_container_some _ _ _ Hc), bind_run, Hg.
    rewrite bool_decide_false by done. rewrite bool_decide_true by done.
    rewrite bind_run, path_mkdir_parents_run.
    unfold OS.mkdir_parents. change (parent (abs t)) with (abs (removelast t)).
    cbn [parts abs]. fold root. rewrite Hgo, bind_run, write_text_run.
    cbn [with_fs world set_fs fs cwd]. rewrite written_eq.
    by rewrite open_write_canonical_ok.
  - intros q Hq. cbn [with_fs world set_fs fs]. unfold root2.
    destruct (decide (t `prefix_of` q)) as [[r ->]|Htq].
    + destruct r as [|x r]; [by rewrite app_nil_r in Hq|].
      rewrite lookup_modify_below by done. cbn [lookup_path].
      rewrite decide_False.
      * rewrite lookup_path_app.
        by destruct (lookup_path root t) as [[| |]|].
      * intros [Hpre _]. destruct Hlen. etrans; [|done]. by apply prefix_app_r.
    + rewrite shape_modify_other by done. by destruct Hmade as [_ ->].
Qed.

Lemma file_written_witness :
  let s := Demo.after_acquire in
  let t := ["ws"; "run"; "n"; "a.txt"] in
  _get_safe_path "n/a.txt" s = (Ok (abs t), s) ∧
  ∃ s',
    write_file_folder "n/a.txt" "file" None s
    = (Ok (PStatus "File n/a.txt created"), s') ∧
    self s' = self s ∧
    lookup_path (fs (world s')) t = Some (File "") ∧
    ∀ q, q ≠ t →
      shape_of (lookup_path (fs (world s')) q) =
        if decide (q `prefix_of` removelast t ∧ lookup_path (fs (world s)) q = None)
        then SDir else shape_of (lookup_path (fs (world s)) q).
Proof.
  split; [by vm_compute|].
  apply (file_written "n/a.txt" None Demo.after_acquire
           (Docker.snapshot "run" Demo.ready_sandbox) ["ws"; "run"; "n"; "a.txt"]);
    [done|by vm_compute|done| |done].
  clear_way_concrete.
Defined.

End writing_more.

Section listing_more.
Implicit Types s : State.

(** X7: listing a path that leads to a file, not to a directory, answers
    with the [NotADirectoryError] of [iterdir] as an error, and changes
    nothing (the project directory being given in canonical form). *)
Theorem listing_a_file subpath s c b t content :
  container (self s) = Some c →
  project_dir (self s) = abs b →
  resolve (fs (world s)) (cwd (world s)) (project_dir (self s)) = Ok b →
  resolve (fs (world s)) (cwd (world s))
    (joinpath (project_dir (self s)) (parse subpath)) = Ok t →
  b `prefix_of` t →
  lookup_path (fs (world s)) t = Some (File content) →
  list_files subpath s
  = (Ok (PError ("[Errno 20] Not a directory: '" +:+ str (abs t) +:+ "'")), s).
Proof.
  intros Hc Hpd Hb Ht Hpre Hfile.
  by rewrite (list_files_run _ _ _ _ _ Hc Hpd Hb Ht Hpre), Hfile.
Qed.

Lemma listing_a_file_witness :
  let s := Demo.after_acquire in
  lookup_path (fs (world s)) ["ws"; "run"; "b.txt"] = Some (File "hello") ∧
  list_files "b.txt" s
  = (Ok (PError "[Errno 20] Not a directory: '/ws/run/b.txt'"), s).
Proof.
  split; [done|].
  apply (listing_a_file "b.txt" Demo.after_acquire
           (Docker.snapshot "run" Demo.ready_sandbox) ["ws"; "run"] ["ws"; "run"; "b.txt"]
           "hello"); try done; try (by vm_compute). by exists ["b.txt"].
Defined.

End listing_more.

(* ===================================================================== *)
(** * Splitting, joining and stripping                                    *)
(* ===================================================================== *)

Section split_facts.
Implicit Types (sep c : ascii) (x y txt : string) (l : list string).

Lemma split_sep_free sep x : Py.contains_char sep x = false → Py.split sep x = [x].
Proof.
  induction x as [|c x IH]; [done|]. cbn [Py.contains_char Py.split].
  destruct (decide (sep = c)) as [->|Hc]; [done|]. intros H.
  rewrite decide_False by done. by rewrite IH.
Qed.

Lemma split_app_sep sep x txt :
  Py.contains_char sep x = false →
  Py.split sep (x +:+ String sep txt) = x :: Py.split sep txt.
Proof.
  induction x as [|c x IH]; intros H.
  - rewrite sapp_nil_l. cbn [Py.split]. by rewrite decide_True.
  - cbn [Py.contains_char] in H. destruct (decide (sep = c)) as [->|Hc]; [done|].
    rewrite sapp_cons. cbn [Py.split]. rewrite decide_False by done. by rewrite IH.
Qed.

Lemma join_cons_cons (sp : string) x y l :
  Py.join sp (x :: y :: l) = x +:+ sp +:+ Py.join sp (y :: l).
Proof. done. Qed.

(** [sep.join(l).split(sep) == l] for parts without the separator. *)
Lemma split_join sep l :
  l ≠ [] → Forall (λ x, Py.contains_char sep x = false) l →
  Py.split sep (Py.join (String sep "") l) = l.
Proof.
  induction l as [|x l IH]; [done|]. intros _ [Hx Hl]%Forall_cons.
  destruct l as [|y l]; [by apply split_sep_free|].
  rewrite join_cons_cons, sapp_cons, sapp_nil_l, split_app_sep by done.
  by rewrite IH.
Qed.

(** The parts of a split hold no separator. *)
Lemma split_parts_sep_free sep txt :
  Forall (λ x, Py.contains_char sep x = false) (Py.split sep txt).
Proof.
  induction txt as [|c txt IH]; [by repeat constructor|]. cbn [Py.split].
  destruct (decide (c = sep)) as [->|Hc]; [by constructor|].
  destruct (Py.split sep txt) as [|w ws]; [repeat constructor|].
  - cbn. by rewrite decide_False.
  - apply Forall_cons in IH as [Hw Hws]. constructor; [|done].
    cbn. by rewrite decide_False.
Qed.

Lemma split_max_0 sep txt : Py.split_max sep 0 txt = [txt].
Proof. by destruct txt. Qed.

Lemma split_max_app_sep sep n x txt :
  Py.contains_char sep x = false →
  Py.split_max sep (S n) (x +:+ String sep txt) = x :: Py.split_max sep n txt.
Proof.
  induction x as [|c x IH]; intros H.
  - rewrite sapp_nil_l. cbn [Py.split_max]. by rewrite decide_True.
  - cbn [Py.contains_char] in H. destruct (decide (sep = c)) as [->|Hc]; [done|].
    rewrite sapp_cons. cbn [Py.split_max]. rewrite decide_False by done. by rewrite IH.
Qed.

(** Whatever [split] with a bound returns: at most one part more than the
    bound, the separator only in a last part that used up the bound, and
    the text is the parts joined. *)
Lemma split_max_inv sep n txt :
  ∃ front back,
    Py.split_max sep n txt = front ++ [back] ∧
    length front ≤ n ∧
    Forall (λ x, Py.contains_char sep x = false) front ∧
    Py.join (String sep "") (front ++ [back]) = txt.
Proof.
  revert n; induction txt as [|c txt IH]; intros n.
  { exists [], "". by destruct n; split_and!; try done; simpl; lia. }
  destruct n as [|n].
  { exists [], (String c txt). split_and!; try done. }
  cbn [Py.split_max]. destruct (decide (c = sep)) as [->|Hc].
  - destruct (IH n) as (front & back & -> & Hlen & Hfree & Hjoin).
    exists ("" :: front), back. split_and!; [done|simpl; lia|by constructor|].
    change ("" :: front) with ([""] ++ front). rewrite <-app_assoc.
    rewrite join_app by (done || by destruct front).
    by rewrite Hjoin.
  - destruct (IH (S n)) as (front & back & -> & Hlen & Hfree & Hjoin).
    destruct front as [|w ws]; cbn [app].
    + exists [], (String c back). split_and!; try done. simpl in *. by subst.
    + apply Forall_cons in Hfree as [Hw Hws].
      exists (String c w :: ws), back. split_and!; [done|done| |].
      * constructor; [|done]. cbn. by rewrite decide_False.
      * rewrite <-Hjoin. cbn [app Py.join]. destruct (ws ++ [back]) eqn:E; [by destruct ws|].
        by rewrite sapp_cons.
Qed.

End split_facts.

Section strip_facts.
Implicit Types (c : ascii) (x y txt : string).

Lemma rstrip_cons c txt :
  Py.isspace c = false → Py.rstrip (String c txt) = String c (Py.rstrip txt).
Proof. intros H. cbn [Py.rstrip]. destruct (Py.rstrip txt); by rewrite ?H. Qed.

(** Text that does not strip to nothing keeps what stands before it. *)
Lemma rstrip_app_inked x y :
  Py.rstrip y ≠ "" → Py.rstrip (x +:+ y) = x +:+ Py.rstrip y.
Proof.
  intros Hy. induction x as [|c x IH]; [by rewrite !sapp_nil_l|].
  rewrite !sapp_cons. cbn [Py.rstrip]. rewrite IH.
  destruct (x +:+ Py.rstrip y) eqn:E; [|done].
  destruct x; [by rewrite sapp_nil_l in E|by rewrite sapp_cons in E].
Qed.

Lemma rstrip_app_blank txt c :
  Py.isspace c = true → Py.rstrip (txt +:+ String c "") = Py.rstrip txt.
Proof.
  intros Hc. induction txt as [|d txt IH].
  - rewrite sapp_nil_l. cbn. by rewrite Hc.
  - rewrite sapp_cons. cbn [Py.rstrip]. by rewrite IH.
Qed.

Lemma lstrip_inked txt : starts_blank txt = false → Py.lstrip txt = txt.
Proof. destruct txt as [|c txt]; [done|]. cbn. by intros ->. Qed.

Lemma lstrip_rstrip txt : Py.lstrip (Py.rstrip txt) = Py.rstrip (Py.lstrip txt).
Proof.
  induction txt as [|c txt IH]; [done|].
  destruct (Py.isspace c) eqn:Hc.
  - cbn [Py.lstrip]. rewrite Hc, <-IH. cbn [Py.rstrip].
    destruct (Py.rstrip txt) as [|d r] eqn:E; [by rewrite Hc|].
    cbn [Py.lstrip]. by rewrite Hc.
  - rewrite rstrip_cons by done. cbn [Py.lstrip]. rewrite Hc.
    by rewrite rstrip_cons.
Qed.

Lemma lstrip_idemp txt : Py.lstrip (Py.lstrip txt) = Py.lstrip txt.
Proof.
  induction txt as [|c txt IH]; [done|]. cbn [Py.lstrip].
  destruct (Py.isspace c) eqn:Hc; [done|]. cbn [Py.lstrip]. by rewrite Hc.
Qed.

(** [strip] is idempotent, and a text stripped on the right strips to the
    same. *)
Lemma strip_idemp txt : Py.strip (Py.strip txt) = Py.strip txt.
Proof.
  unfold Py.strip. by rewrite lstrip_rstrip, rstrip_idemp, lstrip_idemp.
Qed.

Lemma strip_rstrip txt : Py.strip (Py.rstrip txt) = Py.strip txt.
Proof. unfold Py.strip. by rewrite lstrip_rstrip, rstrip_idemp. Qed.

Lemma contains_char_rstrip c txt :
  Py.contains_char c txt = false → Py.contains_char c (Py.rstrip txt) = false.
Proof.
  induction txt as [|d txt IH]; [done|]. cbn [Py.contains_char Py.rstrip].
  destruct (decide (c = d)) as [->|Hd]; [done|]. intros H.
  destruct (Py.rstrip txt) eqn:E.
  - destruct (Py.isspace d); cbn; [done|]. by rewrite decide_False.
  - cbn [Py.contains_char]. rewrite decide_False by done. by apply IH.
Qed.

Lemma contains_char_lstrip c txt :
  Py.contains_char c txt = false → Py.contains_char c (Py.lstrip txt) = false.
Proof.
  induction txt as [|d txt IH]; [done|]. cbn [Py.contains_char Py.lstrip].
  destruct (decide (c = d)) as [->|Hd]; [done|]. intros H.
  destruct (Py.isspace d); [by apply IH|]. cbn. by rewrite decide_False.
Qed.

Lemma contains_char_strip c txt :
  Py.contains_char c txt = false → Py.contains_char c (Py.strip txt) = false.
Proof. intros. by apply contains_char_rstrip, contains_char_lstrip. Qed.

End strip_facts.

(* ===================================================================== *)
(** * Theorems on searching                                               *)
(* ===================================================================== *)

Section search_facts.
Implicit Types (s : State) (h : hit) (hits : list hit).

Lemma grep_line_eq h :
  grep_line h = h.1.1 +:+ String ":" (h.1.2 +:+ String ":" h.2).
Proof. unfold grep_line. by rewrite !sapp_cons, !sapp_nil_l. Qed.

Lemma grep_output_one h : grep_output [h] = grep_line h +:+ newline.
Proof. done. Qed.

Lemma grep_output_more h h' hits :
  grep_output (h :: h' :: hits)
  = grep_line h +:+ String "010" (grep_output (h' :: hits)).
Proof.
  unfold grep_output. rewrite !fmap_cons, join_cons_cons.
  unfold newline at 1. by rewrite !sapp_assoc, sapp_cons, sapp_nil_l.
Qed.

Lemma join_cons_ne (sp : string) x (l : list string) :
  l ≠ [] → Py.join sp (x :: l) = x +:+ sp +:+ Py.join sp l.
Proof. by destruct l. Qed.

Lemma map_last_ne {A} (f : A → A) (l : list A) : l ≠ [] → map_last f l ≠ [].
Proof. destruct l as [|x [|y l]]; done. Qed.

Lemma map_last_more {A} (f : A → A) x y (l : list A) :
  map_last f (x :: y :: l) = x :: map_last f (y :: l).
Proof. done. Qed.

Lemma sapp_inked x y : y ≠ "" → x +:+ y ≠ "".
Proof. by destruct x, y. Qed.

(** Stripping the output of [grep] on the right strips its last line. *)
Lemma rstrip_grep_output h hits :
  Py.rstrip (grep_output (h :: hits))
  = Py.join newline (grep_line <$> map_last (λ h, (h.1, Py.rstrip h.2)) (h :: hits)) ∧
  Py.rstrip (grep_output (h :: hits)) ≠ "".
Proof.
  revert h; induction hits as [|h' hits IH]; intros h.
  - rewrite grep_output_one. cbn [map_last fmap list_fmap Py.join]. unfold newline.
    rewrite !grep_line_eq. cbn [fst snd]. rewrite !sapp_assoc, !sapp_cons, sapp_assoc, sapp_cons.
    assert (∀ y, Py.rstrip (String ":" y) = String ":" (Py.rstrip y)) as Hc
      by (intros; by apply rstrip_cons).
    rewrite rstrip_app_inked by by rewrite Hc.
    rewrite Hc. rewrite rstrip_app_inked by by rewrite Hc.
    rewrite Hc, rstrip_app_blank by done.
    split; [done|]. by apply sapp_inked.
  - destruct (IH h') as [Heq Hne]. rewrite grep_output_more.
    change (String "010" (grep_output (h' :: hits)))
      with (String "010" ("" +:+ grep_output (h' :: hits))).
    rewrite <-sapp_cons, <-sapp_assoc, rstrip_app_inked by done.
    split; [|by apply sapp_inked].
    rewrite Heq, map_last_more, fmap_cons, join_cons_ne, sapp_assoc; [done|].
    intros H%fmap_nil_inv. by apply map_last_ne in H.
Qed.

Lemma starts_blank_grep_output h hits :
  starts_blank h.1.1 = false → starts_blank (grep_output (h :: hits)) = false.
Proof.
  intros Hf.
  assert (∀ y, starts_blank (grep_line h +:+ y) = false) as H.
  { intros y. rewrite grep_line_eq. destruct (h.1.1) as [|c f]; [done|].
    by rewrite !sapp_cons. }
  destruct hits; [by rewrite grep_output_one|by rewrite grep_output_more].
Qed.

Lemma parse_match_grep_line h :
  Py.contains_char ":" h.1.1 = false → Py.contains_char ":" h.1.2 = false →
  parse_match (grep_line h) = Some (match_of h).
Proof.
  intros Hf Hl. unfold parse_match.
  by rewrite grep_line_eq, !split_max_app_sep, split_max_0.
Qed.

Lemma contains_char_cons_ne c d txt :
  c ≠ d → Py.contains_char c (String d txt) = Py.contains_char c txt.
Proof. intros. cbn. by rewrite decide_False. Qed.

Lemma contains_char_grep_line c h :
  c ≠ ":"%char →
  Py.contains_char c h.1.1 = false → Py.contains_char c h.1.2 = false →
  Py.contains_char c h.2 = false →
  Py.contains_char c (grep_line h) = false.
Proof.
  intros Hc Hf Hl Ht. rewrite grep_line_eq.
  by rewrite contains_char_sapp, contains_char_cons_ne, contains_char_sapp,
    contains_char_cons_ne, Hf, Hl, Ht by done.
Qed.

Lemma contains_char_grep_line_inv c h :
  c ≠ ":"%char →
  Py.contains_char c (grep_line h) = false →
  Py.contains_char c h.1.1 = false ∧ Py.contains_char c h.1.2 = false ∧
  Py.contains_char c h.2 = false.
Proof.
  intros Hc. rewrite grep_line_eq.
  rewrite contains_char_sapp, contains_char_cons_ne, contains_char_sapp,
    contains_char_cons_ne by done.
  intros [? [? ?]%orb_false_elim]%orb_false_elim. done.
Qed.

Lemma grep_line_not_empty h : grep_line h ≠ "".
Proof. rewrite grep_line_eq. by apply sapp_inked. Qed.

(** A line that parses is a line of a hit. *)
Lemma parse_match_inv line m :
  parse_match line = Some m →
  ∃ h, line = grep_line h ∧ m = match_of h ∧
    Py.contains_char ":" h.1.1 = false ∧ Py.contains_char ":" h.1.2 = false.
Proof.
  unfold parse_match.
  destruct (split_max_inv ":" 2 line) as (front & back & -> & Hlen & Hfree & Hjoin).
  destruct front as [|f [|l [|? ?]]]; simpl in Hlen; try done; try lia.
  intros [= <-]. exists (f, l, back). apply Forall_cons in Hfree as [Hf [Hl _]%Forall_cons].
  by split_and!.
Qed.

Lemma keep_grep_lines hits :
  Forall (λ h, Py.contains_char ":" h.1.1 = false ∧ Py.contains_char ":" h.1.2 = false) hits →
  omap keep_line (grep_line <$> hits) = match_of <$> hits.
Proof.
  induction 1 as [|h hits [Hf Hl] _ IH]; [done|].
  rewrite !fmap_cons. cbn [omap list_omap]. unfold keep_line at 1.
  rewrite bool_decide_false by apply grep_line_not_empty.
  rewrite parse_match_grep_line by done. by rewrite <-IH.
Qed.

Lemma Forall_map_last {A} (P : A → Prop) (f : A → A) (l : list A) :
  (∀ x, P x → P (f x)) → Forall P l → Forall P (map_last f l).
Proof.
  intros Hf. induction 1 as [|x l Hx Hl IH]; [done|].
  destruct l as [|y l]; [by repeat constructor; apply Hf|].
  rewrite map_last_more. by constructor.
Qed.

Lemma match_of_map_last hits :
  match_of <$> map_last (λ h, (h.1, Py.rstrip h.2)) hits = match_of <$> hits.
Proof.
  induction hits as [|h hits IH]; [done|].
  destruct hits as [|h' hits].
  - cbn [map_last fmap list_fmap]. unfold match_of. cbn [fst snd].
    by rewrite strip_rstrip.
  - rewrite map_last_more, !fmap_cons. by rewrite IH.
Qed.

(** The matches read off the output of [grep]. *)
Lemma search_lines hits :
  Forall hit_ok hits →
  omap keep_line (Py.split "010" (Py.strip (grep_output hits))) = match_of <$> hits.
Proof.
  intros Hok. destruct hits as [|h hits]; [by vm_compute|].
  unfold Py.strip. rewrite lstrip_inked.
  2:{ apply starts_blank_grep_output. apply Forall_cons in Hok as [Hh _]. apply Hh. }
  destruct (rstrip_grep_output h hits) as [-> _].
  set (f := λ h : hit, (h.1, Py.rstrip h.2)).
  assert (Forall hit_ok (map_last f (h :: hits))) as Hok'.
  { apply Forall_map_last; [|done]. intros [[a b] t] (?&?&?&?&?&?).
    split_and!; try done. by apply contains_char_rstrip. }
  change newline with (String "010" ""). rewrite split_join.
  - rewrite keep_grep_lines, match_of_map_last; [done|].
    eapply Forall_impl; [done|]. intros ? (?&?&_). done.
  - intros H%fmap_nil_inv. by apply map_last_ne in H.
  - apply Forall_fmap. eapply Forall_impl; [done|].
    intros [[a b] t] (_ & _ & Ha & Hb & Ht & _). cbn [fst snd] in *.
    unfold compose. by apply contains_char_grep_line.
Qed.

Lemma search_content_run term s c :
  container (self s) = Some c →
  search_content term s =
    match Docker.exec_run c (grep_cmd term) false s with
    | (Ok (code, result), s') =>
        (Ok (PMatches
          (if negb (bool_decide (code = 0%Z)) && bool_decide (result = "") then []
           else omap keep_line (Py.split "010" (Py.strip result)))), s')
    | (Raise e, s') => (Ok (PError (str_of_exn e)), s')
    end.
Proof.
  intros Hc. unfold search_content.
  rewrite (require_container_some _ _ _ Hc), bind_run, (self_container_some _ _ _ Hc), bind_run.
  fold (grep_cmd term).
  destruct (Docker.exec_run c (grep_cmd term) false s) as [[[code result]|e] s']; [|done].
  by destruct (negb _ && _).
Qed.

(** X8: when [grep] prints one line [file:line:text] per hit,
    [search_content] returns one match per hit, in the order printed, with
    the file, the line number, and the text without the blanks around it;
    colons in the text are kept. *)
Theorem search_content_reads_hits term s c code hits s' :
  container (self s) = Some c →
  Docker.exec_run c (grep_cmd term) false s = (Ok (code, grep_output hits), s') →
  Forall hit_ok hits →
  search_content term s = (Ok (PMatches (match_of <$> hits)), s').
Proof.
  intros Hc Hrun Hok. rewrite (search_content_run _ _ _ Hc), Hrun.
  rewrite (bool_decide_false (grep_output hits = "")), andb_false_r.
  - by rewrite search_lines.
  - by apply sapp_inked.
Qed.

Lemma search_content_reads_hits_witness :
  let s := Scenes.searching in
  ∃ s',
    Docker.exec_run (Docker.snapshot "run" Demo.ready_sandbox) (grep_cmd "x") false s
    = (Ok (0%Z, grep_output Scenes.two_hits), s') ∧
    Forall hit_ok Scenes.two_hits ∧
    search_content "x" s
    = (Ok (PMatches [MkMatch "./b.txt" "1" "hello";
                     MkMatch "./src/a.ts" "12" "const x = 1;"]), s').
Proof.
  eexists.
  assert (Docker.exec_run (Docker.snapshot "run" Demo.ready_sandbox) (grep_cmd "x") false
            Scenes.searching
          = (Ok (0%Z, grep_output Scenes.two_hits),
             (Docker.exec_run (Docker.snapshot "run" Demo.ready_sandbox) (grep_cmd "x") false
                Scenes.searching).2)) as Hrun by by vm_compute.
  assert (Forall hit_ok Scenes.two_hits) as Hok by (repeat constructor).
  split_and!; [exact Hrun|exact Hok|].
  exact (search_content_reads_hits "x" Scenes.searching _ _ _ _ eq_refl Hrun Hok).
Defined.

(** X9: whatever the command prints, every match that [search_content]
    returns is well formed: no colon in its file and line fields, no
    newline in any field, and no blank around its content. *)
Theorem search_content_matches_ok term s ms s' :
  search_content term s = (Ok (PMatches ms), s') → Forall match_ok ms.
Proof.
  intros H. pose proof H as H0.
  apply require_container_inv in H0 as [[c Hc] _]; [|done].
  rewrite (search_content_run _ _ _ Hc) in H.
  destruct (Docker.exec_run c (grep_cmd term) false s) as [[[code result]|e] s1]; [|done].
  injection H as <- _. destruct (negb _ && _); [done|].
  apply Forall_forall. intros m Hm.
  apply list_elem_of_omap in Hm as (line & Hline & Hkeep).
  unfold keep_line in Hkeep. case_bool_decide; [done|].
  apply parse_match_inv in Hkeep as ([[f l] t] & -> & -> & Hf & Hl). cbn in Hf, Hl.
  pose proof (split_parts_sep_free "010" (Py.strip result)) as Hfree.
  rewrite Forall_forall in Hfree. apply Hfree in Hline.
  apply contains_char_grep_line_inv in Hline as (Hnf & Hnl & Hnt); [|done].
  unfold match_ok, match_of. cbn [sm_file sm_line sm_content fst snd] in *.
  split_and!; try done; [by apply contains_char_strip|apply strip_idemp].
Qed.

Lemma search_content_matches_ok_witness :
  let s := Scenes.searching in
  let ms := [MkMatch "./b.txt" "1" "hello"; MkMatch "./src/a.ts" "12" "const x = 1;"] in
  (search_content "x" s).1 = Ok (PMatches ms) ∧ Forall match_ok ms.
Proof.
  split; [by vm_compute|].
  apply (search_content_matches_ok "x" Scenes.searching _ (search_content "x" Scenes.searching).2).
  by vm_compute.
Defined.

End search_facts.

Section search_more.
Implicit Types (s : State).

Lemma split_max_length sep n txt :
  length (Py.split_max sep n txt) ≤ length (Py.split sep txt).
Proof.
  revert n; induction txt as [|c txt IH]; intros n; [by destruct n|].
  destruct n as [|n]; cbn [Py.split_max Py.split].
  { destruct (decide (c = sep)); [simpl; lia|].
    destruct (Py.split sep txt); simpl; lia. }
  destruct (decide (c = sep)); [simpl; specialize (IH n); lia|].
  specialize (IH (S n)).
  destruct (Py.split_max sep (S n) txt), (Py.split sep txt); simpl in *; lia.
Qed.

(** A line with at most one colon is not a hit. *)
Lemma keep_line_few_colons line :
  length (Py.split ":" line) ≤ 2 → keep_line line = None.
Proof.
  intros H. unfold keep_line, parse_match. case_bool_decide; [done|].
  pose proof (split_max_length ":" 2 line) as Hlen.
  destruct (Py.split_max ":" 2 line) as [|? [|? [|? ?]]]; try done. simpl in Hlen. lia.
Qed.

(** X10: the lines of the output that are not hits are passed over in
    silence.  When no line of the output has two colons, as with a
    diagnostic of [grep], [search_content] answers with the empty list,
    whatever the exit code: a search that failed reads like a search that
    found nothing. *)
Theorem search_content_swallows_diagnostics term s c code out s' :
  container (self s) = Some c →
  Docker.exec_run c (grep_cmd term) false s = (Ok (code, out), s') →
  Forall (λ line, length (Py.split ":" line) ≤ 2) (Py.split "010" (Py.strip out)) →
  search_content term s = (Ok (PMatches []), s').
Proof.
  intros Hc Hrun Hlines. rewrite (search_content_run _ _ _ Hc), Hrun.
  destruct (negb _ && _); [done|]. do 3 f_equal.
  induction Hlines as [|line lines Hline _ IH]; [done|].
  cbn [omap list_omap]. by rewrite keep_line_few_colons.
Qed.

Lemma search_content_swallows_diagnostics_witness :
  let s := Scenes.searching_badly in
  ∃ s',
    Docker.exec_run (Docker.snapshot "run" Demo.ready_sandbox) (grep_cmd "[") false s
    = (Ok (2%Z, Scenes.grep_error), s') ∧
    search_content "[" s = (Ok (PMatches []), s').
Proof.
  eexists.
  assert (Docker.exec_run (Docker.snapshot "run" Demo.ready_sandbox) (grep_cmd "[") false
            Scenes.searching_badly
          = (Ok (2%Z, Scenes.grep_error),
             (Docker.exec_run (Docker.snapshot "run" Demo.ready_sandbox) (grep_cmd "[") false
                Scenes.searching_badly).2)) as Hrun by by vm_compute.
  split; [exact Hrun|].
  apply (search_content_swallows_diagnostics "[" Scenes.searching_badly _ _ _ _
           eq_refl Hrun).
  vm_compute. repeat constructor.
Defined.

End search_more.

(* ===================================================================== *)
(** * The requests sent to the daemon, and what a result tells            *)
(* ===================================================================== *)

Section sends_facts.
Context (P : ApiCall → Prop).

Lemma sends_ret {A} (a : A) : sends P (mret a : M A).
Proof. intros s. exists []. by rewrite app_nil_r. Qed.

Lemma sends_raise {A} e : sends P (raise e : M A).
Proof. intros s. exists []. by rewrite app_nil_r. Qed.

Lemma sends_gets {A} (g : State → A) : sends P (gets g).
Proof. intros s. exists []. by rewrite app_nil_r. Qed.

Lemma sends_lift {A} (o : outcome A) : sends P (lift_outcome o).
Proof. intros s. exists []. by rewrite app_nil_r. Qed.

Lemma sends_modify_self f : sends P (modify_self f).
Proof. intros s. exists []. by rewrite app_nil_r. Qed.

Lemma sends_modify_world f :
  (∀ w, api_log (f w) = api_log w) → sends P (modify_world f).
Proof. intros Hf s. exists []. cbn. by rewrite Hf, app_nil_r. Qed.

Lemma sends_call c : P c → sends P (Docker.call c).
Proof. intros Hc s. exists [c]. split; [done|by constructor]. Qed.

Lemma sends_bind {A B} (m : M A) (k : A → M B) :
  sends P m → (∀ a, sends P (k a)) → sends P (m ≫= k).
Proof.
  intros Hm Hk s. unfold mbind, M_bind, bind. destruct (Hm s) as (l1 & H1 & HP1).
  destruct (m s) as [[a|e] s1]; [|by exists l1].
  destruct (Hk a s1) as (l2 & H2 & HP2). exists (l1 ++ l2).
  cbn [snd] in H1. rewrite H2, H1, app_assoc. split; [done|by apply Forall_app].
Qed.

Lemma sends_try {A} (m : M A) handled h :
  sends P m → (∀ e, sends P (h e)) → sends P (try_except m handled h).
Proof.
  intros Hm Hh s. unfold try_except. destruct (Hm s) as (l1 & H1 & HP1).
  destruct (m s) as [[a|e] s1]; [by exists l1|].
  destruct (handled e); [|by exists l1].
  destruct (Hh e s1) as (l2 & H2 & HP2). exists (l1 ++ l2).
  cbn [snd] in H1. rewrite H2, H1, app_assoc. split; [done|by apply Forall_app].
Qed.

Lemma sends_ignore {A} (m : M A) : sends P m → sends P (ignore m).
Proof. intros. apply sends_bind; [done|]. intros. apply sends_ret. Qed.

End sends_facts.

Ltac sends_step :=
  match goal with
  | |- sends _ (mret _) => apply sends_ret
  | |- sends _ (raise _) => apply sends_raise
  | |- sends _ (gets _) => apply sends_gets
  | |- sends _ (lift_outcome _) => apply sends_lift
  | |- sends _ (modify_self _) => apply sends_modify_self
  | |- sends _ (modify_world _) => apply sends_modify_world; by intros []
  | |- sends _ (Docker.call _) => apply sends_call
  | |- sends _ (_ ≫= _) => apply sends_bind; [|intros ?]
  | |- sends _ (try_except _ _ _) => apply sends_try; [|intros ?]
  | |- sends _ (ignore _) => apply sends_ignore
  | |- sends _ (if ?b then _ else _) => destruct b
  | |- sends _ (match ?x with _ => _ end) => destruct x
  | |- sends _ (let '(_, _) := ?x in _) => destruct x
  end.

Section ensures_facts.
Context {A : Type} (Q : A → State → Prop).

Lemma ensures_raise e : ensures Q (raise e).
Proof. by intros s a s'. Qed.

Lemma ensures_bind {B} (m : M B) (k : B → M A) :
  (∀ b, ensures Q (k b)) → ensures Q (m ≫= k).
Proof.
  intros Hk s a s'. unfold mbind, M_bind, bind.
  destruct (m s) as [[b|e] s1]; [apply Hk|done].
Qed.

Lemma ensures_try (m : M A) handled h :
  ensures Q m → (∀ e, ensures Q (h e)) → ensures Q (try_except m handled h).
Proof.
  intros Hm Hh s a s'. unfold try_except. specialize (Hm s).
  destruct (m s) as [[b|e] s1]; [apply Hm|].
  destruct (handled e); [apply Hh|done].
Qed.

End ensures_facts.

Section never_raises_facts.

Lemma never_raises_ret {A} (a : A) : never_raises (mret a : M A).
Proof. intros s. by exists a. Qed.

(** A [try] with an [except Exception] clause that returns. *)
Lemma never_raises_try_all {A} (m : M A) h :
  (∀ e, never_raises (h e)) → never_raises (try_except m (λ _, true) h).
Proof.
  intros Hh s. unfold try_except. destruct (m s) as [[a|e] s1]; [by exists a|].
  apply Hh.
Qed.

Lemma never_raises_require func : never_raises (require_container func).
Proof.
  intros s. unfold require_container. rewrite bind_run. unfold gets.
  destruct (container (self s)); [|by eexists].
  apply never_raises_try_all. intros e. apply never_raises_ret.
Qed.

End never_raises_facts.

(* ===================================================================== *)
(** * Further theorems on the life cycle                                  *)
(* ===================================================================== *)

Section requests_facts.
Implicit Types s : State.
Context (P : ApiCall → Prop).

Lemma sends_find_sandbox n : sends P (Docker.find_sandbox n).
Proof. unfold Docker.find_sandbox. repeat sends_step. Qed.

Lemma sends_put_sandbox n sb : sends P (Docker.put_sandbox n sb).
Proof. unfold Docker.put_sandbox. repeat sends_step. Qed.

Lemma sends_take_port : sends P Docker.take_port.
Proof. unfold Docker.take_port. repeat sends_step. Qed.

Lemma sends_containers_get id : P (ContainersGet id) → sends P (Docker.containers_get id).
Proof.
  intros. unfold Docker.containers_get.
  repeat (sends_step || apply sends_find_sandbox); done.
Qed.

Lemma sends_start c : P (ContainerStart (c_name c)) → sends P (Docker.start c).
Proof.
  intros. unfold Docker.start.
  repeat (sends_step || apply sends_find_sandbox || apply sends_put_sandbox
          || apply sends_take_port); done.
Qed.

Lemma sends_exec_run c cmd detach :
  P (ContainerExec (c_name c) cmd detach) → sends P (Docker.exec_run c cmd detach).
Proof.
  intros. unfold Docker.exec_run.
  repeat (sends_step || apply sends_find_sandbox || apply sends_put_sandbox); done.
Qed.

Lemma sends_host_port c : sends P (Docker.host_port c).
Proof. unfold Docker.host_port. repeat sends_step. Qed.

End requests_facts.

Section reuse_facts.
Implicit Types s : State.

Lemma sends_restart_previous_container :
  sends (λ c, is_provisioning c = false) restart_previous_container.
Proof.
  unfold restart_previous_container.
  repeat (sends_step || apply sends_containers_get || apply sends_start
          || apply sends_exec_run || apply sends_host_port); done.
Qed.

(** X11: once a container with the name of the session exists, whatever
    its state, [get_container] takes it as it is: no container is created
    and no bootstrap command is run.  In particular a bootstrap that
    failed is not tried again. *)
Theorem existing_container_not_provisioned s :
  is_Some (sandboxes (world s) !! run_id (self s)) →
  ∃ l, api_log (world (get_container s).2) = api_log (world s) ++ l ∧
    Forall (λ c, is_provisioning c = false) l.
Proof.
  intros [sb Hsb]. unfold get_container. rewrite bind_run. unfold gets at 1.
  unfold ignore. rewrite bind_run.
  destruct (Docker.containers_get (run_id (self s)) s) as [[c|e] s1] eqn:Hget.
  - apply containers_get_inv in Hget as (_ & _ & _ & ->). unfold mret, M_ret, ret.
    destruct (sends_restart_previous_container
                (MkState (self s) (log_call (ContainersGet (run_id (self s))) (world s))))
      as (l & Hl & HP).
    exists (ContainersGet (run_id (self s)) :: l). rewrite Hl. cbn [world api_log log_call].
    rewrite <-app_assoc. split; [done|by constructor].
  - exfalso. revert Hget.
    unfold Docker.containers_get, Docker.call, Docker.find_sandbox. unfold_monad.
    cbn [world log_call sandboxes self]. by rewrite Hsb.
Qed.

Lemma existing_container_not_provisioned_witness :
  let s := Demo.after_acquire in
  is_Some (sandboxes (world s) !! run_id (self s)) ∧
  ∃ l, api_log (world (get_container s).2) = api_log (world s) ++ l ∧
    Forall (λ c, is_provisioning c = false) l.
Proof.
  assert (is_Some (sandboxes (world Demo.after_acquire) !! run_id (self Demo.after_acquire)))
    as H by (by eexists).
  exact (conj H (existing_container_not_provisioned Demo.after_acquire H)).
Defined.

End reuse_facts.

Section provisioning_facts.
Implicit Types s : State.

Lemma sandbox_up_ready rid p w :
  ready_at rid p w → sandbox_up rid p w.
Proof. intros (sb & ? & ? & ? & ?). by exists sb. Qed.


Lemma containers_get_found id s sb :
  sandboxes (world s) !! id = Some sb →
  Docker.containers_get id s
  = (Ok (Docker.snapshot id sb), MkState (self s) (log_call (ContainersGet id) (world s))).
Proof.
  intros H. unfold Docker.containers_get, Docker.call, Docker.find_sandbox. unfold_monad.
  cbn [world log_call sandboxes self]. by rewrite H.
Qed.














End provisioning_facts.

Section provisioning_witnesses.


End provisioning_witnesses.

Section answers.
Implicit Types s : State.

(** The handler of the [except Exception] clauses. *)
Lemma ensures_error_handler (Q : payload → State → Prop) e :
  (∀ msg s, Q (PError msg) s) →
  ensures Q (mret (PError (str_of_exn e)) : M payload).
Proof. intros HQ s a s' [= <- <-]. apply HQ. Qed.

Section with_Q.
Context (Q : payload → State → Prop).
Hypothesis Q_error : ∀ msg s, Q (PError msg) s.
Hypothesis Q_info : ∀ n u s, holds_container n (self s) → Q (PInfo n u) s.

Lemma ensures_ensure_dev_server : ensures Q _ensure_dev_server_and_return_info.
Proof using Type*.
  unfold _ensure_dev_server_and_return_info.
  apply ensures_bind; intros c. apply ensures_bind; intros [code out].
  apply ensures_bind; intros _. apply ensures_bind; intros c'.
  intros s a s'. rewrite bind_run. unfold modify_self at 1.
  rewrite bind_run, host_port_run. destruct (c_host_port c'); [|done].
  intros [= <- <-]. apply Q_info. by exists c'.
Qed.

Lemma ensures_create_new_container : ensures Q create_new_container.
Proof using Type*.
  unfold create_new_container.
  apply ensures_try; [|intros; by apply ensures_error_handler].
  do 6 (apply ensures_bind; intros ?). apply ensures_ensure_dev_server.
Qed.

Lemma ensures_restart_previous_container : ensures Q restart_previous_container.
Proof using Type*.
  unfold restart_previous_container.
  apply ensures_try; [|intros; by apply ensures_error_handler].
  apply ensures_bind; intros o. apply ensures_bind; intros c.
  apply ensures_bind; intros _. apply ensures_bind; intros [code out].
  apply ensures_bind; intros _. apply ensures_bind; intros p.
  intros s a s'. rewrite bind_run. unfold modify_self at 1.
  intros [= <- <-]. apply Q_info. by exists c.
Qed.

Lemma ensures_get_container : ensures Q get_container.
Proof using Type*.
  intros s a s'. unfold get_container.
  destruct ((o ← gets self; ignore (Docker.containers_get (run_id o))) s) as [[[]|e] s1].
  - apply ensures_restart_previous_container.
  - destruct (is_class DockerNotFound e); [apply ensures_create_new_container|].
    intros [= <- <-]. apply Q_error.
Qed.

End with_Q.

Lemma never_raises_get_container : never_raises get_container.
Proof.
  intros s. unfold get_container.
  destruct ((o ← gets self; ignore (Docker.containers_get (run_id o))) s) as [[[]|e] s1].
  - apply never_raises_try_all. intros; apply never_raises_ret.
  - destruct (is_class DockerNotFound e); [|by eexists].
    apply never_raises_try_all. intros; apply never_raises_ret.
Qed.

(** X14: [get_container] never raises.  Whatever the daemon does (a
    container that cannot be created, started or found, a bootstrap
    command that fails, a port that is not published), the call returns,
    and what it returns is either the name and URL of the sandbox or an
    error message. *)
Theorem get_container_answers s :
  ∃ r, (get_container s).1 = Ok r ∧ is_answer r.
Proof.
  destruct (never_raises_get_container s) as [r Hr]. exists r. split; [done|].
  destruct (get_container s) as [o s'] eqn:H. cbn in Hr. subst o.
  by apply (ensures_get_container (λ r _, is_answer r)) in H.
Qed.

(** X15: when [get_container] answers with a name and a URL, a container
    of that name runs and publishes a host port, the URL is
    [http://localhost:] followed by that port, and the orchestrator holds
    the container, so that the operations on the workspace are open. *)
Theorem acquired_session s n u s' :
  get_container s = (Ok (PInfo n u), s') →
  holds_container n (self s') ∧
  ∃ p, sandbox_up n p (world s') ∧ u = localhost_url p.
Proof.
  intros H. pose proof H as H'.
  apply first_acquire_ready in H' as (-> & _ & p & Hready & ->).
  split; [|exists p; split; [by apply sandbox_up_ready|done]].
  by apply (ensures_get_container
              (λ r s, match r with PInfo n _ => holds_container n (self s) | _ => True end))
    in H.
Qed.

Lemma acquired_session_witness :
  let s := Demo.before_acquire in
  let s' := (get_container s).2 in
  get_container s = (Ok (PInfo "run" "http://localhost:32768"), s') ∧
  holds_container "run" (self s') ∧
  ∃ p, sandbox_up "run" p (world s') ∧ "http://localhost:32768" = localhost_url p.
Proof.
  assert (get_container Demo.before_acquire
          = (Ok (PInfo "run" "http://localhost:32768"),
             (get_container Demo.before_acquire).2)) as H
    by (vm_compute; reflexivity).
  exact (conj H (acquired_session _ _ _ _ H)).
Defined.

(** X16: no decorated operation ever raises: whatever goes wrong inside
    (a path refused by the guard, a failing system call, a container that
    is gone), the operation returns, an error then being the payload
    [{"error": str(e)}]. *)
Theorem decorated_never_raise op :
  is_delete op = false → never_raises (perform op).
Proof. destruct op; try done; intros _; apply never_raises_require. Qed.

Lemma decorated_never_raise_witness :
  is_delete (OpRead "../../etc/passwd") = false ∧
  ∃ a, (perform (OpRead "../../etc/passwd") Demo.after_acquire).1 = Ok a.
Proof.
  split; [done|]. by apply (decorated_never_raise (OpRead "../../etc/passwd")).
Defined.

End answers.

Section reuse_more.
Implicit Types s : State.

(** A container of the session that runs and publishes its port is
    answered with, whether the dev server is alive in it or not. *)
Lemma running_acquire s sb p :
  sandboxes (world s) !! run_id (self s) = Some sb →
  sb_running sb = true →
  sb_port sb = Some p →
  ∃ s', get_container s = (Ok (PInfo (run_id (self s)) (localhost_url p)), s').
Proof.
  intros Hsb Hrun Hport.
  unfold get_container, restart_previous_container, Docker.containers_get,
    Docker.exec_run, Docker.call, Docker.find_sandbox, Docker.host_port, Docker.start,
    Docker.put_sandbox.
  unfold_monad. cbn [world log_call sandboxes self]. rewrite Hsb.
  cbn [world log_call sandboxes self]. rewrite Hsb.
  unfold Docker.snapshot. rewrite Hrun. cbn [c_status c_name c_host_port].
  rewrite bool_decide_true by done. cbn [negb world log_call sandboxes self].
  rewrite Hsb, Hrun. cbn [negb]. rewrite bool_decide_true by done.
  rewrite Hport. destruct (sb_vite sb).
  - rewrite bool_decide_true by done. cbn [negb]. by eexists.
  - rewrite bool_decide_false by done. cbn [negb world log_call sandboxes self].
    rewrite Hsb, Hrun. cbn [negb andb]. rewrite bool_decide_false by done.
    rewrite bool_decide_true by done. by eexists.
Qed.



Lemma start_stopped c s sb p pool :
  sandboxes (world s) !! c_name c = Some sb →
  sb_running sb = false →
  port_pool (world s) = p :: pool →
  ∃ s',
    Docker.start c s = (Ok (), s') ∧ self s' = self s ∧
    sandboxes (world s') !! c_name c = Some (MkSandbox true false (Some p) (sb_log sb)).
Proof.
  intros Hsb Hrun Hpool.
  unfold Docker.start, Docker.call, Docker.find_sandbox, Docker.put_sandbox,
    Docker.take_port.
  unfold_monad. cbn [world log_call sandboxes self port_pool].
  rewrite Hsb, Hrun. cbn [world log_call sandboxes self port_pool]. rewrite Hpool.
  eexists. split; [done|]. cbn [self world set_sandboxes sandboxes].
  by rewrite lookup_insert_eq.
Qed.

Lemma exec_probe_run c s sb :
  sandboxes (world s) !! c_name c = Some sb →
  sb_running sb = true →
  Docker.exec_run c Docker.probe_cmd false s
  = (Ok (if sb_vite sb then 0%Z else 1%Z, ""),
     MkState (self s) (log_call (ContainerExec (c_name c) Docker.probe_cmd false) (world s))).
Proof.
  intros Hsb Hrun. unfold Docker.exec_run, Docker.call, Docker.find_sandbox.
  unfold_monad. cbn [world log_call sandboxes self]. rewrite Hsb, Hrun. cbn [negb].
  by rewrite bool_decide_true.
Qed.

(** The detached launch in a container that runs: the call returns, and
    the container keeps running on its port. *)
Lemma exec_dev_run c s sb :
  sandboxes (world s) !! c_name c = Some sb →
  sb_running sb = true →
  ∃ r s' sb',
    Docker.exec_run c Docker.dev_cmd true s = (Ok r, s') ∧ self s' = self s ∧
    sandboxes (world s') !! c_name c = Some sb' ∧
    sb_running sb' = true ∧ sb_port sb' = sb_port sb.
Proof.
  intros Hsb Hrun. unfold Docker.exec_run, Docker.call, Docker.find_sandbox,
    Docker.put_sandbox.
  unfold_monad. cbn [world log_call sandboxes self]. rewrite Hsb, Hrun. cbn [negb].
  rewrite bool_decide_false by done. cbn [andb]. rewrite bool_decide_true by done.
  do 3 eexists. split; [done|]. cbn [self world set_sandboxes sandboxes].
  rewrite lookup_insert_eq. by split_and!.
Qed.

(** X18: a container of the session that is stopped is started, but this
    call of [get_container] answers with the error ['5173/tcp']: the port
    is read from the attributes fetched before the start, which list no
    port.  The orchestrator does not hold the container yet; the container
    now runs and publishes a port, and the next call answers with the name
    and the URL of that port, the orchestrator then holding the
    container. *)
Theorem stopped_container_started s sb p pool :
  sandboxes (world s) !! run_id (self s) = Some sb →
  sb_running sb = false →
  port_pool (world s) = p :: pool →
  ∃ s1 s2,
    get_container s = (Ok (PError "'5173/tcp'"), s1) ∧
    self s1 = self s ∧
    sandbox_up (run_id (self s)) p (world s1) ∧
    get_container s1 = (Ok (PInfo (run_id (self s)) (localhost_url p)), s2) ∧
    holds_container (run_id (self s)) (self s2).
Proof.
  intros Hsb Hrun Hpool.
  set (rid := run_id (self s)) in *.
  set (c := Docker.snapshot rid sb).
  assert (c_name c = rid) as Hname by done.
  assert (c_status c = "exited" ∧ c_host_port c = None) as [Hstatus Hnoport].
  { unfold c, Docker.snapshot. by rewrite Hrun. }
  set (s0 := MkState (self s) (log_call (ContainersGet rid) (world s))).
  set (s0' := MkState (self s0) (log_call (ContainersGet rid) (world s0))).
  destruct (start_stopped c s0' sb p pool) as (s1 & Hstart & Hself1 & Hsb1); [done..|].
  pose proof (exec_probe_run c s1 _ Hsb1 eq_refl) as Hprobe. cbn [sb_vite] in Hprobe.
  set (s2 := MkState (self s1) (log_call (ContainerExec (c_name c) Docker.probe_cmd false)
                                  (world s1))) in *.
  destruct (exec_dev_run c s2 _ Hsb1 eq_refl)
    as (r & s3 & sb3 & Hdev & Hself3 & Hsb3 & Hrun3 & Hport3).
  cbn [sb_port] in Hport3.
  assert (get_container s = (Ok (PError "'5173/tcp'"), s3)) as H1.
  { unfold get_container. rewrite bind_run. unfold gets at 1. unfold ignore.
    rewrite bind_run. fold rid. rewrite (containers_get_found _ _ _ Hsb). fold s0.
    cbv beta iota.
    unfold mret, M_ret, ret. unfold restart_previous_container, try_except.
    rewrite bind_run. unfold gets at 1. rewrite bind_run.
    change (run_id (self s0)) with rid.
    rewrite (containers_get_found rid s0 sb) by done. fold s0' c.
    rewrite bind_run, Hstatus. rewrite bool_decide_false by done. cbn [negb].
    rewrite Hstart, bind_run, Hprobe, bind_run.
    rewrite bool_decide_false by done. cbn [negb]. unfold ignore at 1.
    rewrite bind_run, Hdev. unfold ret. rewrite bind_run, host_port_run, Hnoport.
    done. }
  assert (self s3 = self s) as Hself by (by rewrite Hself3; cbn; rewrite Hself1).
  assert (run_id (self s3) = rid) as Hrid by by rewrite Hself.
  rewrite Hname in Hsb3.
  destruct (running_acquire s3 sb3 p) as [s4 H2]; [by rewrite Hrid|done..|].
  rewrite Hrid in H2. exists s3, s4. split_and!; [done|done| |exact H2|].
  - by exists sb3.
  - by apply (ensures_get_container
                (λ r s, match r with PInfo n _ => holds_container n (self s) | _ => True end))
      in H2.
Qed.

Lemma stopped_container_started_witness :
  let s := Scenes.with_sandbox Scenes.stopped_sandbox in
  ∃ s1 s2,
    get_container s = (Ok (PError "'5173/tcp'"), s1) ∧
    self s1 = self s ∧
    sandbox_up "run" "32768" (world s1) ∧
    get_container s1 = (Ok (PInfo "run" "http://localhost:32768"), s2) ∧
    holds_container "run" (self s2).
Proof.
  apply (stopped_container_started (Scenes.with_sandbox Scenes.stopped_sandbox)
           Scenes.stopped_sandbox "32768" ["32769"]); done.
Defined.

End reuse_more.


(* ===================================================================== *)
(** * Further theorems on deleting, moving and replacing                  *)
(* ===================================================================== *)

Section delete_facts.
Implicit Types s : State.

Lemma exec_run_gone c cmd detach s :
  sandboxes (world s) !! c_name c = None →
  Docker.exec_run c cmd detach s
  = (Raise (Docker.not_found ("No such container: " +:+ c_name c)),
     MkState (self s) (log_call (ContainerExec (c_name c) cmd detach) (world s))).
Proof.
  intros H. unfold Docker.exec_run, Docker.call, Docker.find_sandbox. unfold_monad.
  cbn [world log_call sandboxes self]. by rewrite H.
Qed.

(** X19: an error of the daemon escapes [delete_item].  When the
    container held has been removed, [delete_item] raises the [NotFound]
    of the SDK, where [run_command] with the same command line returns it
    as an error payload. *)
Theorem delete_item_lets_errors_escape path s c :
  container (self s) = Some c →
  sandboxes (world s) !! c_name c = None →
  let e := Docker.not_found ("No such container: " +:+ c_name c) in
  (delete_item path s).1 = Raise e ∧
  (run_command ("rm -rf " +:+ path) s).1 = Ok (PError (str_of_exn e)).
Proof.
  intros Hc Hsb. split.
  - unfold delete_item. rewrite bind_run, (self_container_some _ _ _ Hc), bind_run.
    by rewrite exec_run_gone.
  - unfold run_command.
    rewrite (require_container_some _ _ _ Hc), bind_run, (self_container_some _ _ _ Hc),
      bind_run.
    by rewrite exec_run_gone.
Qed.

Lemma delete_item_lets_errors_escape_witness :
  let s := Scenes.container_gone in
  (delete_item "b.txt" s).1
  = Raise (Docker.not_found "No such container: run") ∧
  (run_command "rm -rf b.txt" s).1
  = Ok (PError "404 Client Error: Not Found (No such container: run)").
Proof.
  apply (delete_item_lets_errors_escape "b.txt" Scenes.container_gone
           (Docker.snapshot "run" Demo.ready_sandbox)); done.
Defined.

End delete_facts.

Section move_more.
Implicit Types s : State.

(** X20: [move_item] checks both ends.  A source outside the workspace is
    refused by the guard ("Access Denied: Path outside workspace"); with
    the source accepted, a destination that the same test puts outside is
    refused with "Access denied: Destination outside workspace".  Nothing
    is moved or created in either case. *)
Theorem move_outside_refused source dest s c :
  container (self s) = Some c →
  ((_get_safe_path source s).1 = Raise access_denied →
   move_item source dest s
   = (Ok (PError "Access Denied: Path outside workspace"), s)) ∧
  (∀ sp dp b,
     _get_safe_path source s = (Ok sp, s) →
     resolve (fs (world s)) (cwd (world s))
       (joinpath (project_dir (self s)) (parse dest)) = Ok dp →
     resolve (fs (world s)) (cwd (world s)) (project_dir (self s)) = Ok b →
     Py.startswith (str (abs dp)) (str (abs b)) = false →
     move_item source dest s
     = (Ok (PError "Access denied: Destination outside workspace"), s)).
Proof.
  intros Hc. split.
  - intros H. unfold move_item.
    by rewrite (require_container_some _ _ _ Hc), bind_run, get_safe_path_run, H.
  - intros sp dp b Hs Hd Hb Hout. unfold move_item.
    rewrite (require_container_some _ _ _ Hc), bind_run, Hs, bind_run.
    unfold gets at 1. rewrite bind_run, path_resolve_run, Hd, bind_run,
      path_resolve_run, Hb.
    by rewrite Hout.
Qed.

Lemma move_outside_refused_witness :
  let s := Demo.after_acquire in
  (_get_safe_path "../other/x" s).1 = Raise access_denied ∧
  move_item "../other/x" "y" s
  = (Ok (PError "Access Denied: Path outside workspace"), s) ∧
  move_item "b.txt" "../other/x" s
  = (Ok (PError "Access denied: Destination outside workspace"), s).
Proof.
  assert ((_get_safe_path "../other/x" Demo.after_acquire).1 = Raise access_denied) as H
    by by vm_compute.
  split_and!; [exact H| |].
  - exact (proj1 (move_outside_refused "../other/x" "y" Demo.after_acquire _ eq_refl) H).
  - apply (proj2 (move_outside_refused "b.txt" "../other/x" Demo.after_acquire _ eq_refl)
             (abs ["ws"; "run"; "b.txt"]) ["ws"; "other"; "x"] ["ws"; "run"]);
      by vm_compute.
Defined.

End move_more.

Section replace_more.
Implicit Types s : State.

(** X21: an empty search block never matches once: in a file that is not
    empty it is found between all characters, so [replace_code] reports it
    as ambiguous, with one more match than the file has characters, and
    leaves the file alone. *)
Theorem empty_search_block_ambiguous path repl s content :
  read_file path s = (Ok (PContent content), s) →
  content ≠ "" →
  replace_code path "" repl s
  = (Ok (PError (ambiguous_msg (S (Py.len content)))), s).
Proof.
  intros Hread Hne.
  apply (replace_code_ambiguous path "" repl s content Hread).
  destruct content; [done|]. cbn. lia.
Qed.

Lemma empty_search_block_ambiguous_witness :
  let s := Demo.with_file "f.txt" "abc" in
  read_file "f.txt" s = (Ok (PContent "abc"), s) ∧
  replace_code "f.txt" "" "X" s
  = (Ok (PError "Ambiguous match: Block found 4 times. Include more surrounding lines in search_block."),
     s).
Proof.
  assert (read_file "f.txt" (Demo.with_file "f.txt" "abc")
          = (Ok (PContent "abc"), Demo.with_file "f.txt" "abc")) as H by by vm_compute.
  split; [exact H|].
  exact (empty_search_block_ambiguous "f.txt" "X" _ "abc" H ltac:(done)).
Defined.

Lemma contains_char_replace_go c old new budget k txt :
  Py.contains_char c txt = false → Py.contains_char c new = false →
  Py.contains_char c (Py.replace_go old new budget k txt) = false.
Proof.
  intros Ht Hn. revert budget k Ht. induction txt as [|d txt IH]; intros budget k Ht; [done|].
  cbn [Py.contains_char] in Ht. destruct (decide (c = d)) as [->|Hd]; [done|].
  cbn [Py.replace_go]. destruct k as [|k]; [|by apply IH].
  destruct (Py.budget_left budget && Py.startswith (String d txt) old).
  - rewrite contains_char_sapp, Hn. by apply IH.
  - cbn [Py.contains_char]. rewrite decide_False by done. by apply IH.
Qed.

Lemma contains_char_interleave c new budget txt :
  Py.contains_char c txt = false → Py.contains_char c new = false →
  Py.contains_char c (Py.interleave new budget txt) = false.
Proof.
  intros Ht Hn. revert budget Ht. induction txt as [|d txt IH]; intros budget Ht.
  - cbn. by destruct (Py.budget_left budget).
  - cbn [Py.contains_char] in Ht. destruct (decide (c = d)) as [->|Hd]; [done|].
    cbn [Py.interleave]. destruct (Py.budget_left budget).
    + rewrite contains_char_sapp, Hn. cbn [Py.contains_char orb].
      rewrite decide_False by done. by apply IH.
    + cbn [Py.contains_char]. by rewrite decide_False.
Qed.

Lemma contains_char_replace c txt old new budget :
  Py.contains_char c txt = false → Py.contains_char c new = false →
  Py.contains_char c (Py.replace txt old new budget) = false.
Proof.
  intros. unfold Py.replace.
  destruct old; [by apply contains_char_interleave|by apply contains_char_replace_go].
Qed.

(** X22: [replace_code] rewrites the whole file, not only the block.  The
    file is read with universal newlines and written back as read, so
    after a replacement it holds the text with every ["\r\n"] and ["\r"]
    turned into ["\n"]: unless the replacement brings one, no carriage
    return is left in the file. *)
Theorem replace_code_rewrites_line_ends path search repl s c t raw msg s' :
  container (self s) = Some c →
  _get_safe_path path s = (Ok (abs t), s) →
  lookup_path (fs (world s)) t = Some (File raw) →
  replace_code path search repl s = (Ok (PStatus msg), s') →
  let stored := Py.replace (OS.universal_newlines raw) search repl (Some 1) in
  lookup_path (fs (world s')) t = Some (File stored) ∧
  (Py.contains_char "013" repl = false → Py.contains_char "013" stored = false).
Proof.
  intros Hc Hg Hraw Hrep stored.
  assert ((_get_safe_path path s).1 = Ok (abs t)) as Hg1 by by rewrite Hg.
  apply get_safe_path_ok in Hg1 as (t' & b & [= <-] & Ht & Hb & Hpre).
  pose proof (read_file_at _ _ _ _ _ _ Hc Ht Hb Hpre Hraw) as Hread.
  rewrite (replace_code_run _ _ _ _ _ _ Hread Ht) in Hrep.
  case_bool_decide; [done|]. case_bool_decide; [done|].
  destruct (OS.open_write _ _ _ _) as [root'|e] eqn:Hw; [|done].
  injection Hrep as _ <-.
  apply open_write_canonical in Hw as (_ & _ & _ & Hl); [|by eapply resolve_canonical].
  split; [done|]. intros Hr. apply contains_char_replace; [|done].
  apply universal_newlines_go_no_cr.
Qed.

Lemma replace_code_rewrites_line_ends_witness :
  let s := Demo.with_file "f.txt" Scenes.dos_text in
  let s' := (replace_code "f.txt" "b" "c" s).2 in
  let t := ["ws"; "run"; "f.txt"] in
  lookup_path (fs (world s)) t = Some (File Scenes.dos_text) ∧
  replace_code "f.txt" "b" "c" s = (Ok (PStatus replaced_msg), s') ∧
  lookup_path (fs (world s')) t
  = Some (File ("a" +:+ String "010" ("c" +:+ String "010" ""))).
Proof.
  assert (replace_code "f.txt" "b" "c" (Demo.with_file "f.txt" Scenes.dos_text)
          = (Ok (PStatus replaced_msg),
             (replace_code "f.txt" "b" "c" (Demo.with_file "f.txt" Scenes.dos_text)).2)) as H
    by by vm_compute.
  split_and!; [done|exact H|].
  apply (replace_code_rewrites_line_ends "f.txt" "b" "c"
           (Demo.with_file "f.txt" Scenes.dos_text)
           (Docker.snapshot "run" Demo.ready_sandbox) ["ws"; "run"; "f.txt"]
           Scenes.dos_text replaced_msg _ eq_refl ltac:(by vm_compute) eq_refl H).
Defined.

End replace_more.

(* ===================================================================== *)
(** * Further theorems on the constructor                                 *)
(* ===================================================================== *)

Section constructor_facts.

Lemma initial_setup_run s :
  initial_setup s
  = (if bool_decide (image ∈ images (world s)) then Ok ()
     else Raise (Exn NotImplementedError ""),
     MkState (self s) (log_call (ImagesGet image) (world s))).
Proof.
  unfold initial_setup, try_except, Docker.images_get, Docker.images_create, Docker.call.
  unfold_monad. cbn [world log_call images self]. by case_bool_decide.
Qed.

(** X23: the constructor makes the project directory, with the missing
    directories on the way, and then looks for the image.  With the image
    present it yields an orchestrator that holds no container.  With the
    image missing it raises [NotImplementedError], since the image
    collection of the SDK has no [create]: no orchestrator is made, and the
    directory stays.  No container is touched either way. *)
Theorem session_constructed rid root w q :
  joinpath root (parse rid) = abs q →
  canonical (readlink (fs w)) q →
  clear_way (fs w) q →
  ∃ w',
    init rid root w
    = (if bool_decide (image ∈ images w)
       then Ok (MkOrchestrator rid root (abs q) None)
       else Raise (Exn NotImplementedError ""), w') ∧
    dirs_made (fs w) (fs w') q ∧
    api_log w' = api_log w ++ [ImagesGet image] ∧
    sandboxes w' = sandboxes w.
Proof.
  intros Hq Hcan Hway.
  destruct (mkdir_parents_go_ok (length q) (fs w) (cwd w) q) as (root' & Hgo & Hmade);
    [done..|].
  unfold init. cbn [project_dir]. rewrite Hq, bind_run, path_mkdir_parents_run.
  unfold OS.mkdir_parents. cbn [parts abs world fs cwd]. rewrite Hgo.
  rewrite initial_setup_run. cbn [with_fs world self set_fs images].
  eexists. split; [by case_bool_decide|]. by split_and!.
Qed.

Lemma session_constructed_witness :
  let w := Demo.the_world Demo.root_dir in
  ∃ w',
    init "run" (parse "/ws") w = (Ok Demo.fresh, w') ∧
    dirs_made (fs w) (fs w') ["ws"; "run"] ∧
    api_log w' = api_log w ++ [ImagesGet image] ∧
    sandboxes w' = sandboxes w.
Proof.
  apply (session_constructed "run" (parse "/ws") (Demo.the_world Demo.root_dir) ["ws"; "run"]).
  - by vm_compute.
  - apply (resolve_canonical _ [] (abs ["ws"; "run"])). by vm_compute.
  - clear_way_concrete.
Defined.

End constructor_facts.

(* ===================================================================== *)
(** * What the path guard lets through, exactly                           *)
(* ===================================================================== *)

Section guard_text.
Implicit Types (x y txt : string) (b t q : list string).

Lemma startswith_refl txt : Py.startswith txt txt = true.
Proof. induction txt as [|c txt IH]; [done|]. cbn. by rewrite decide_True. Qed.

Lemma str_abs_slashed q : q ≠ [] → str (abs q) = slashed q.
Proof.
  intros Hq. unfold str. cbn [absolute parts abs]. rewrite sapp_cons, sapp_nil_l.
  induction q as [|x q IH]; [done|]. destruct q as [|y q].
  - cbn. by rewrite sapp_nil_r.
  - rewrite join_cons_cons. cbn [slashed] in *. rewrite <-IH by done.
    by rewrite sapp_cons, sapp_nil_l.
Qed.

Lemma slashed_slash_led q : slash_led (slashed q).
Proof. by destruct q. Qed.

(** A name is a prefix of a name followed by more names exactly when it
    is a prefix of that name. *)
Lemma startswith_name x y txt :
  no_slash x → slash_led txt →
  Py.startswith (y +:+ txt) x = Py.startswith y x.
Proof.
  revert y; induction x as [|a x IH]; intros y Hx Htxt; [by destruct (y +:+ txt), y|].
  unfold no_slash in Hx. cbn [Py.contains_char] in Hx.
  destruct (decide ("/"%char = a)) as [|Ha]; [done|].
  destruct y as [|c y].
  - rewrite sapp_nil_l. destruct txt as [|d txt]; [done|]. cbn in Htxt. subst d.
    cbn. by rewrite decide_False.
  - rewrite sapp_cons. cbn [Py.startswith]. destruct (decide (a = c)); [|done].
    by apply IH.
Qed.

(** A name followed by more names is a prefix of another such text
    exactly when the names are the same and the rest is a prefix. *)
Lemma startswith_names x y txt txt' :
  no_slash x → no_slash y → slash_led txt →
  Py.startswith (y +:+ txt) (x +:+ String "/" txt')
  = bool_decide (x = y) && Py.startswith txt (String "/" txt').
Proof.
  revert y; induction x as [|a x IH]; intros y Hx Hy Htxt.
  - rewrite sapp_nil_l. destruct y as [|c y].
    + by rewrite sapp_nil_l.
    + unfold no_slash in Hy. cbn [Py.contains_char] in Hy.
      destruct (decide ("/"%char = c)) as [|Hc]; [done|].
      rewrite sapp_cons. cbn [Py.startswith]. by rewrite decide_False.
  - unfold no_slash in Hx. cbn [Py.contains_char] in Hx.
    destruct (decide ("/"%char = a)) as [|Ha]; [done|].
    rewrite sapp_cons. destruct y as [|c y].
    + rewrite sapp_nil_l. destruct txt as [|d txt]; [done|]. cbn in Htxt. subst d.
      cbn. by rewrite decide_False.
    + unfold no_slash in Hy. cbn [Py.contains_char] in Hy.
      destruct (decide ("/"%char = c)) as [|Hc]; [done|].
      rewrite sapp_cons. cbn [Py.startswith].
      destruct (decide (a = c)) as [->|Hac].
      * rewrite IH by done. f_equal. apply bool_decide_ext. naive_solver.
      * rewrite bool_decide_false; [done|]. naive_solver.
Qed.

Lemma passes_for_inside_cons x b t :
  b ≠ [] →
  passes_for_inside (x :: b) (x :: t) ↔ passes_for_inside b t.
Proof.
  intros Hb. split.
  - intros [[k Hk]|(b0 & x0 & y & rest & H1 & H2 & Hext)].
    + left. exists k. by injection Hk.
    + destruct b0 as [|z b0]; simplify_eq/=. right. by exists b0, x0, y, rest.
  - intros [[k ->]|(b0 & x0 & y & rest & -> & -> & Hext)].
    + left. by exists k.
    + right. by exists (x :: b0), x0, y, rest.
Qed.

Lemma slashed_passes b t :
  b ≠ [] → Forall no_slash b → Forall no_slash t →
  Py.startswith (slashed t) (slashed b) = true ↔ passes_for_inside b t.
Proof.
  intros Hb Hsb. revert t. induction Hsb as [|x b Hx Hsb IH]; [done|]. clear Hb.
  intros t Hst. destruct t as [|y t].
  { split; [done|]. intros [[k Hk]|(b0 & ? & ? & ? & _ & H & _)]; [done|by destruct b0]. }
  apply Forall_cons in Hst as [Hy Hst]. cbn [slashed Py.startswith].
  rewrite decide_True by done.
  destruct b as [|x' b].
  - cbn [slashed]. rewrite sapp_nil_r, startswith_name
      by (done || apply slashed_slash_led).
    split.
    + intros H. destruct (decide (x = y)) as [->|Hxy].
      * left. by exists t.
      * right. by exists [], x, y, t.
    + intros [[k Hk]|(b0 & x0 & y0 & rest & H1 & H2 & [_ Hext])].
      * injection Hk as ->. apply startswith_refl.
      * destruct b0 as [|? [|? ?]]; simplify_eq/=. done.
  - cbn [slashed] in *. rewrite startswith_names by (done || apply slashed_slash_led).
    rewrite andb_true_iff, bool_decide_eq_true. split.
    + intros [-> H]. apply passes_for_inside_cons; [done|]. by apply IH.
    + intros H. assert (x = y) as ->.
      { destruct H as [[k Hk]|(b0 & x0 & y0 & rest & H1 & H2 & _)]; [by injection Hk|].
        destruct b0 as [|? ?]; simplify_eq/=. done. }
      split; [done|]. apply IH; [done..|]. by apply passes_for_inside_cons in H.
Qed.

(** The text of [b] is a prefix of the text of [t] exactly for the
    locations that pass for being inside [b]. *)
Lemma str_abs_passes b t :
  Forall plain b → Forall no_slash b → Forall no_slash t →
  Py.startswith (str (abs t)) (str (abs b)) = true ↔ passes_for_inside b t.
Proof.
  intros Hpb Hsb Hst. destruct b as [|x b].
  { split; [intros _; left; apply prefix_nil|intros _].
    unfold str. cbn [absolute parts abs Py.join]. by rewrite sapp_cons. }
  rewrite (str_abs_slashed (x :: b)) by done.
  destruct t as [|y t]; [|by rewrite str_abs_slashed, slashed_passes].
  apply Forall_cons in Hpb as [(Hx & _) _].
  split.
  - unfold str. cbn [absolute parts abs Py.join slashed]. rewrite sapp_cons, sapp_nil_l.
    cbn [Py.startswith]. rewrite decide_True by done.
    destruct x; [done|]. by rewrite sapp_cons.
  - intros [[k Hk]|(b0 & ? & ? & ? & _ & H & _)]; [done|by destruct b0].
Qed.

End guard_text.

Section guard_names.

(** The names that come out of a resolution have no slash when the names
    that go in have none: the names of a link target are split at the
    slashes. *)
Lemma parse_no_slash txt : Forall no_slash (parts (parse txt)).
Proof.
  unfold parse. cbn [parts]. apply Forall_forall. intros x [_ Hx]%list_elem_of_filter.
  pose proof (split_parts_sep_free "/" txt) as H. rewrite Forall_forall in H.
  by apply H.
Qed.

Lemma Forall_removelast {A} (P : A → Prop) (l : list A) :
  Forall P l → Forall P (removelast l).
Proof.
  intros H. destruct l as [|x l] using rev_ind; [done|].
  rewrite removelast_last. by apply Forall_app in H as [? _].
Qed.

Lemma realpath_go_no_slash rl fuel cur rest q :
  Forall no_slash cur → Forall no_slash rest →
  realpath_go rl fuel cur rest = Ok q → Forall no_slash q.
Proof.
  revert cur rest q. induction fuel as [|fuel IHf]; intros cur rest; revert cur;
    induction rest as [|x rest IH]; intros cur q Hcur Hrest;
    try (rewrite realpath_go_nil; by intros [= <-]);
    apply Forall_cons in Hrest as [Hx Hrest]; rewrite realpath_go_cons;
    (destruct (decide (x = "" ∨ x = ".")); [by apply IH|]);
    (destruct (decide (x = "..")); [apply IH; [by apply Forall_removelast|done]|]);
    (destruct (Py.contains_char "000" x); [done|]);
    (destruct (rl (cur ++ [x])) as [target|];
       [|apply IH; [apply Forall_app; by repeat constructor|done]]).
  - done.
  - destruct (realpath_go rl fuel _ _) as [cur'|] eqn:Hgo; [|done].
    apply IH; [|done]. eapply IHf; [| |done]; [|apply parse_no_slash].
    by destruct (absolute (parse target)).
Qed.

Lemma resolve_no_slash root cwd p q :
  Forall no_slash cwd → Forall no_slash (parts p) →
  resolve root cwd p = Ok q → Forall no_slash q.
Proof.
  intros Hcwd Hp. unfold resolve. apply realpath_go_no_slash; [done|].
  unfold full_parts. destruct (absolute p); [done|]. by apply Forall_app.
Qed.

(** X24: what the guard lets through, exactly.  When the names of the
    working directory and of the project directory hold no slash, a path
    that resolves to [t], with the project directory resolving to [b], is
    returned by the guard in two cases and refused with [PermissionError]
    in all others: [t] is [b] or lies inside [b]; or [t] leaves the way to
    [b] at the last name of [b] for a name that extends it (as
    [/ws/run2/x] does for [/ws/run]). *)
Theorem guard_exact path s t b :
  Forall no_slash (cwd (world s)) →
  Forall no_slash (parts (project_dir (self s))) →
  resolve (fs (world s)) (cwd (world s))
    (joinpath (project_dir (self s)) (parse path)) = Ok t →
  resolve (fs (world s)) (cwd (world s)) (project_dir (self s)) = Ok b →
  (passes_for_inside b t → _get_safe_path path s = (Ok (abs t), s)) ∧
  (¬ passes_for_inside b t → _get_safe_path path s = (Raise access_denied, s)).
Proof.
  intros Hcwd Hpd Ht Hb.
  assert (Forall no_slash t) as Hst.
  { apply (resolve_no_slash _ _ _ _ Hcwd) in Ht; [done|]. unfold joinpath.
    destruct (absolute (parse path)); [apply parse_no_slash|].
    cbn [parts]. apply Forall_app. split; [done|apply parse_no_slash]. }
  assert (Forall no_slash b) as Hsb by by apply (resolve_no_slash _ _ _ _ Hcwd Hpd) in Hb.
  assert (Forall plain b) as Hpb by by apply resolve_canonical in Hb as [? _].
  pose proof (str_abs_passes b t Hpb Hsb Hst) as Hiff.
  rewrite get_safe_path_run, get_safe_path_eq. cbn zeta. rewrite Ht, Hb.
  destruct (Py.startswith (str (abs t)) (str (abs b))).
  - split; [done|]. intros H. destruct H. by apply Hiff.
  - split; [|done]. intros H%Hiff. done.
Qed.

Lemma guard_exact_witness :
  let s := Demo.after_acquire in
  passes_for_inside ["ws"; "run"] ["ws"; "run2"; "secret.txt"] ∧
  _get_safe_path "../run2/secret.txt" s = (Ok (abs ["ws"; "run2"; "secret.txt"]), s) ∧
  ¬ passes_for_inside ["ws"; "run"] ["ws"; "other"] ∧
  _get_safe_path "../other" s = (Raise access_denied, s).
Proof.
  assert (passes_for_inside ["ws"; "run"] ["ws"; "run2"; "secret.txt"]) as H1.
  { right. by exists ["ws"], "run", "run2", ["secret.txt"]. }
  assert (¬ passes_for_inside ["ws"; "run"] ["ws"; "other"]) as H2.
  { intros [[k Hk]|(b0 & x & y & rest & Hb & Ht & [_ Hext])]; [done|].
    destruct b0 as [|? [|? [|? ?]]]; by simplify_eq/=. }
  split_and!; [exact H1| |exact H2|].
  - apply (proj1 (guard_exact "../run2/secret.txt" Demo.after_acquire
                    ["ws"; "run2"; "secret.txt"] ["ws"; "run"]
                    ltac:(done) ltac:(by repeat constructor)
                    ltac:(by vm_compute) ltac:(by vm_compute)) H1).
  - apply (proj2 (guard_exact "../other" Demo.after_acquire
                    ["ws"; "other"] ["ws"; "run"]
                    ltac:(done) ltac:(by repeat constructor)
                    ltac:(by vm_compute) ltac:(by vm_compute)) H2).
Defined.

End guard_names.

(* ===================================================================== *)
(** * From a listing to the files                                         *)
(* ===================================================================== *)

Section listing_to_file.
Implicit Types (s : State) (q t b : list string).

(** A canonical location resolves to itself. *)
Lemma realpath_go_canonical_id rl fuel cur rest :
  canonical rl (cur ++ rest) → Forall no_nul rest →
  realpath_go rl fuel cur rest = Ok (cur ++ rest).
Proof.
  revert cur; induction rest as [|x rest IH]; intros cur Hc Hn.
  { by rewrite realpath_go_nil, app_nil_r. }
  apply Forall_cons in Hn as [Hx Hn].
  destruct (canonical_app_plain _ _ _ _ Hc) as ((Hx1 & Hx2 & Hx3) & Hrl & Hc').
  rewrite realpath_go_cons. rewrite decide_False by (by intros [?|?]).
  rewrite decide_False by done. unfold no_nul in Hx. rewrite Hx, Hrl.
  rewrite IH by done. by rewrite <-app_assoc.
Qed.

Lemma realpath_go_no_nul rl fuel cur rest q :
  Forall no_nul cur →
  realpath_go rl fuel cur rest = Ok q → Forall no_nul q.
Proof.
  revert cur rest q. induction fuel as [|fuel IHf]; intros cur rest; revert cur;
    induction rest as [|x rest IH]; intros cur q Hcur;
    try (rewrite realpath_go_nil; by intros [= <-]);
    rewrite realpath_go_cons;
    (destruct (decide (x = "" ∨ x = ".")); [by apply IH|]);
    (destruct (decide (x = "..")); [apply IH; by apply Forall_removelast|]);
    (destruct (Py.contains_char "000" x) eqn:Hx; [done|]);
    (destruct (rl (cur ++ [x])) as [target|];
       [|apply IH; apply Forall_app; by repeat constructor]).
  - done.
  - destruct (realpath_go rl fuel _ _) as [cur'|] eqn:Hgo; [|done].
    apply IH. eapply IHf; [|done]. by destruct (absolute (parse target)).
Qed.

Lemma resolve_no_nul root cwd p q : resolve root cwd p = Ok q → Forall no_nul q.
Proof. unfold resolve. by apply realpath_go_no_nul. Qed.

Lemma filter_all {A} (P : A → Prop) `{!∀ x, Decision (P x)} (l : list A) :
  Forall P l → filter P l = l.
Proof.
  induction 1 as [|x l Hx _ IH]; [done|]. rewrite filter_cons, decide_True by done.
  by rewrite IH.
Qed.

(** [Path(str(p)) == p] for a relative path of names. *)
Lemma parse_str_relative q :
  q ≠ [] → Forall plain q → Forall no_slash q →
  parse (str (MkPath false q)) = MkPath false q.
Proof.
  intros Hq Hp Hs. unfold str. cbn [absolute parts].
  destruct q as [|x q]; [done|]. unfold parse. f_equal.
  - apply Forall_cons in Hp as [(Hx & _) _]. apply Forall_cons in Hs as [Hsx _].
    destruct x as [|c x]; [done|]. unfold no_slash in Hsx. cbn [Py.contains_char] in Hsx.
    destruct (decide ("/"%char = c)) as [|Hc]; [done|].
    destruct q; [|rewrite join_cons_cons, sapp_cons]; cbn; by rewrite decide_False.
  - rewrite split_join by done. apply filter_all.
    apply (Forall_impl _ _ _ Hp). by intros y (? & ? & _).
Qed.

(** X25: the path of a listed file leads back to the file.  With the
    project directory given in canonical form, a regular file [x] in a
    directory of the project appears in the listing of that directory as
    an entry of type ["file"] named [x]; the path of the entry, given back
    to the orchestrator, passes the guard and designates that very file;
    and whenever reading the file gives a text, [read_file] on the path of
    the entry answers with this text as the content. *)
Theorem listed_path_leads_back subpath s c b t es x content :
  container (self s) = Some c →
  project_dir (self s) = abs b →
  Forall no_slash (cwd (world s)) → Forall no_slash b →
  resolve (fs (world s)) (cwd (world s)) (project_dir (self s)) = Ok b →
  resolve (fs (world s)) (cwd (world s))
    (joinpath (project_dir (self s)) (parse subpath)) = Ok t →
  b `prefix_of` t →
  lookup_path (fs (world s)) t = Some (Dir es) →
  es !! x = Some (File content) →
  file_name x →
  ∃ items e,
    list_files subpath s = (Ok (PEntries items), s) ∧
    e ∈ items ∧ fe_name e = x ∧ fe_type e = "file" ∧
    _get_safe_path (fe_path e) s = (Ok (abs (t ++ [x])), s) ∧
    ∀ text s',
      read_text (abs (t ++ [x])) s = (Ok text, s') →
      read_file (fe_path e) s = (Ok (PContent text), s').
Proof.
  intros Hc Hpd Hcwd Hsb Hb Ht Hpre Hdir Hx (Hplain & Hslash & Hnul).
  set (root := fs (world s)) in *. set (here := cwd (world s)) in *.
  destruct (list_files_sorted_children subpath s c b t es Hc Hpd Hb Ht Hpre Hdir)
    as (items & Hlist & _ & Hperm).
  pose proof (resolve_canonical _ _ _ _ Ht) as Hcan.
  assert (lookup_path root (t ++ [x]) = Some (File content)) as Hfile
    by by rewrite lookup_path_snoc, Hdir.
  assert (canonical (readlink root) (t ++ [x])) as Hcanx.
  { apply canonical_snoc; [done..|]. unfold readlink. by rewrite Hfile. }
  assert (fe_type (entry_of root here b t x) = "file") as Htype.
  { unfold entry_of. cbn [fe_type]. by rewrite is_dir_canonical, Hfile. }
  assert (entry_of root here b t x ∈ items) as Hin.
  { rewrite Hperm. apply list_elem_of_fmap. exists x. split; [done|].
    apply list_elem_of_fmap. exists (x, File content). split; [done|].
    by apply elem_of_map_to_list. }
  assert (_get_safe_path (fe_path (entry_of root here b t x)) s
          = (Ok (abs (t ++ [x])), s)) as Hguard.
  { clear Hin Htype Hperm Hlist. destruct Hpre as [k ->]. unfold entry_of. cbn [fe_path].
    rewrite <-app_assoc, drop_app_length.
    assert (Forall no_slash (b ++ k)) as Hst.
    { apply (resolve_no_slash _ _ _ _ Hcwd) in Ht; [done|]. rewrite Hpd. unfold joinpath.
      destruct (absolute (parse subpath)); [apply parse_no_slash|].
      cbn [parts abs]. apply Forall_app. split; [done|apply parse_no_slash]. }
    assert (Forall no_nul (b ++ k)) as Hnt by by apply resolve_no_nul in Ht.
    apply Forall_app in Hst as [_ Hsk]. apply Forall_app in Hnt as [Hnb Hnk].
    destruct Hcan as [Hpl _]. apply Forall_app in Hpl as [_ Hpk].
    assert (parse (str (MkPath false (k ++ [x]))) = MkPath false (k ++ [x])) as Hparse.
    { apply parse_str_relative; [by destruct k|apply Forall_app..];
        (split; [done|by apply Forall_singleton]). }
    rewrite get_safe_path_run, get_safe_path_eq. cbv zeta. fold root here.
    rewrite Hparse, Hb, Hpd. unfold joinpath. cbn [absolute parts abs].
    unfold resolve, full_parts. cbn [absolute parts]. rewrite app_assoc.
    rewrite (realpath_go_canonical_id _ _ [] ((b ++ k) ++ [x]));
      [|done|apply Forall_app; split; [by apply Forall_app|by apply Forall_singleton]].
    cbn [app]. by rewrite str_abs_prefix by (rewrite <-app_assoc; by apply prefix_app_r). }
  exists items, (entry_of root here b t x). split_and!; [done..|].
  intros text s' Hread. unfold read_file.
  rewrite (require_container_some _ _ _ Hc). unfold try_except.
  rewrite bind_run, Hguard, bind_run, path_is_file_run.
  fold root here. rewrite is_file_canonical, Hfile by done. cbn [is_file_node negb].
  by rewrite bind_run, Hread.
Qed.

Lemma listed_path_leads_back_witness :
  let s := Demo.after_acquire in
  ∃ items e,
    list_files "." s = (Ok (PEntries items), s) ∧
    e ∈ items ∧ fe_name e = "b.txt" ∧ fe_type e = "file" ∧
    _get_safe_path (fe_path e) s = (Ok (abs ["ws"; "run"; "b.txt"]), s) ∧
    ∀ text s',
      read_text (abs ["ws"; "run"; "b.txt"]) s = (Ok text, s') →
      read_file (fe_path e) s = (Ok (PContent text), s').
Proof.
  apply (listed_path_leads_back "." Demo.after_acquire
           (Docker.snapshot "run" Demo.ready_sandbox) ["ws"; "run"] ["ws"; "run"]
           (<["b.txt" := File "hello"]> (<["a_folder" := Dir ∅]> ∅)) "b.txt" "hello").
  - done.
  - by vm_compute.
  - constructor.
  - by repeat constructor.
  - by vm_compute.
  - by vm_compute.
  - done.
  - by vm_compute.
  - by vm_compute.
  - by split_and!.
Defined.

End listing_to_file.

(* ===================================================================== *)
(** * A move that fails half way, and a session opened again              *)
(* ===================================================================== *)

Section move_inside.
Implicit Types (s : State) (root : node) (sp dp k : list string).

Lemma with_sep_abs q : q ≠ [] → with_sep (abs q) = str (abs q) +:+ "/".
Proof. by destruct q. Qed.

Lemma with_sep_inside sp k :
  sp ≠ [] → k ≠ [] →
  Py.startswith (with_sep (abs (sp ++ k))) (with_sep (abs sp)) = true.
Proof.
  intros Hsp Hk. rewrite !with_sep_abs by (done || by destruct sp).
  unfold str. cbn [absolute parts abs]. rewrite join_app by done.
  rewrite !sapp_assoc. rewrite <-(sapp_assoc "/" (Py.join "/" sp) _).
  rewrite <-(sapp_assoc _ "/" _). apply startswith_sapp.
Qed.

(** [shutil.move] of a directory to a place inside it. *)
Lemma shutil_move_inside sp k s :
  canonical (readlink (fs (world s))) (sp ++ k) →
  sp ≠ [] → k ≠ [] →
  is_dir_node (lookup_path (fs (world s)) sp) = true →
  is_dir_node (lookup_path (fs (world s)) (removelast (sp ++ k))) = true →
  lookup_path (fs (world s)) (sp ++ k) = None →
  shutil_move (abs sp) (abs (sp ++ k)) s
  = (Raise (Exn ShutilError
       ("Cannot move a directory '" +:+ str (abs sp) +:+ "' into itself '"
        +:+ str (abs (sp ++ k)) +:+ "'.")), s).
Proof.
  intros Hcan Hsp Hk Hdir Hparent Hnone. set (root := fs (world s)) in *.
  assert (canonical (readlink root) sp) as Hcans
    by (eapply canonical_prefix; [done|by apply prefix_app_r]).
  assert (is_dir root (cwd (world s)) (abs (sp ++ k)) = false) as Hd
    by by rewrite is_dir_canonical, Hnone.
  assert (is_dir root (cwd (world s)) (abs sp) = true) as Hds
    by by rewrite is_dir_canonical.
  assert (OS.rename root (cwd (world s)) (abs sp) (abs (sp ++ k)) = Raise (OS.einval sp))
    as Hren.
  { unfold OS.rename. unfold_monad.
    rewrite (locate_canonical_ok _ _ sp); [|done..|].
    2:{ apply canonical_parent_dir; [done|]. by destruct (lookup_path root sp). }
    rewrite (locate_canonical_ok _ _ (sp ++ k)) by (done || by destruct sp).
    destruct (lookup_path root sp) as [n|]; [|done].
    rewrite decide_False.
    2:{ intros H. apply (f_equal length) in H. rewrite length_app in H.
        destruct k; [done|]. simpl in H. lia. }
    rewrite bool_decide_true; [done|]. by apply prefix_app_r. }
  unfold shutil_move, update_fs, try_except. unfold_monad. fold root.
  rewrite Hd. cbn [andb]. fold root. rewrite Hren. cbn [is_oserror OS.einval exn_class_of].
  by rewrite Hds, with_sep_inside.
Qed.

(** X26: a directory is not moved into itself, and the refusal comes late.
    With the source an existing directory and the destination a free place
    inside it, [move_item] first makes the missing parent directories of
    the destination, inside the source, and then answers with the error of
    [shutil.move], "Cannot move a directory .. into itself ..": the source
    stays where it is, and the directories made stay too. *)
Theorem move_into_itself_refused source dest s c sp k b :
  container (self s) = Some c →
  resolve (fs (world s)) (cwd (world s))
    (joinpath (project_dir (self s)) (parse source)) = Ok sp →
  resolve (fs (world s)) (cwd (world s))
    (joinpath (project_dir (self s)) (parse dest)) = Ok (sp ++ k) →
  resolve (fs (world s)) (cwd (world s)) (project_dir (self s)) = Ok b →
  Py.startswith (str (abs sp)) (str (abs b)) = true →
  Py.startswith (str (abs (sp ++ k))) (str (abs b)) = true →
  sp ≠ [] → k ≠ [] →
  is_dir_node (lookup_path (fs (world s)) sp) = true →
  lookup_path (fs (world s)) (sp ++ k) = None →
  clear_way (fs (world s)) (removelast (sp ++ k)) →
  ∃ s',
    move_item source dest s
    = (Ok (PError ("Cannot move a directory '" +:+ str (abs sp) +:+ "' into itself '"
                   +:+ str (abs (sp ++ k)) +:+ "'.")), s') ∧
    self s' = self s ∧
    dirs_made (fs (world s)) (fs (world s')) (removelast (sp ++ k)) ∧
    is_dir_node (lookup_path (fs (world s')) sp) = true.
Proof.
  intros Hc Hs Hd Hb Hps Hpd Hsp Hk Hdir Hnone Hway.
  set (root := fs (world s)) in *. set (dp := sp ++ k) in *.
  pose proof (resolve_canonical _ _ _ _ Hs) as Hcans.
  pose proof (resolve_canonical _ _ _ _ Hd) as Hcand.
  destruct (mkdir_parents_go_ok (length (removelast dp)) root (cwd (world s)) (removelast dp))
    as (root1 & Hgo & Hmade); [done|by apply canonical_removelast|done|].
  pose proof (mkdir_parents_go_same_links _ _ _ _ _ Hgo) as Hl.
  assert (¬ dp `prefix_of` removelast dp) as Hlen.
  { intros Hpre%prefix_length. destruct dp using rev_ind; [by destruct sp|].
    rewrite removelast_last, length_app in Hpre. simpl in Hpre. lia. }
  assert (lookup_path root1 dp = None) as Hnone1.
  { apply shape_absent. destruct Hmade as [_ ->]. rewrite decide_False by (by intros [? _]).
    by apply shape_absent. }
  assert (is_dir_node (lookup_path root1 sp) = true) as Hdir1.
  { apply shape_dir. destruct Hmade as [_ ->]. case_decide; [done|]. by apply shape_dir. }
  exists (with_fs root1 s).
  split_and!; [|done|done|done].
  rewrite (move_item_run _ _ _ _ _ _ _ Hc Hs Hd Hb Hps Hpd).
  rewrite !exists_canonical by done. fold root dp. rewrite Hnone.
  rewrite bool_decide_true by (by destruct (lookup_path root sp)).
  rewrite bool_decide_false by (by intros [? ?]). cbn [negb].
  rewrite bind_run, path_mkdir_parents_run. unfold OS.mkdir_parents.
  change (parent (abs dp)) with (abs (removelast dp)). cbn [parts abs]. fold root.
  rewrite Hgo, bind_run. unfold dp in *.
  rewrite (shutil_move_inside sp k (with_fs root1 s)); try done.
  - by apply (canonical_same_links _ _ _ Hl).
  - by destruct Hmade.
Qed.

Lemma move_into_itself_refused_witness :
  let s := Demo.after_acquire in
  ∃ s',
    move_item "a_folder" "a_folder/x/y" s
    = (Ok (PError
         "Cannot move a directory '/ws/run/a_folder' into itself '/ws/run/a_folder/x/y'."),
       s') ∧
    self s' = self s ∧
    dirs_made (fs (world s)) (fs (world s')) ["ws"; "run"; "a_folder"; "x"] ∧
    is_dir_node (lookup_path (fs (world s')) ["ws"; "run"; "a_folder"]) = true.
Proof.
  apply (move_into_itself_refused "a_folder" "a_folder/x/y" Demo.after_acquire
           (Docker.snapshot "run" Demo.ready_sandbox)
           ["ws"; "run"; "a_folder"] ["x"; "y"] ["ws"; "run"]);
    try done; try (by vm_compute).
  clear_way_concrete.
Defined.

End move_inside.

Section reopening.

(** X27: a session can be opened again.  When the project directory
    exists already, the constructor leaves the file system as it is
    (nothing in the directory is removed or reset) and, the image being
    present, yields an orchestrator that holds no container; the only
    request sent is the look-up of the image. *)
Theorem session_reopened rid root w q :
  joinpath root (parse rid) = abs q →
  canonical (readlink (fs w)) q →
  is_dir_node (lookup_path (fs w) q) = true →
  image ∈ images w →
  init rid root w
  = (Ok (MkOrchestrator rid root (abs q) None), log_call (ImagesGet image) w).
Proof.
  intros Hq Hcan Hdir Himg.
  unfold init. cbn [project_dir]. rewrite Hq, bind_run, path_mkdir_parents_run.
  unfold OS.mkdir_parents. cbn [parts abs world fs cwd].
  rewrite mkdir_parents_go_taken, Hdir by (done || by destruct (lookup_path (fs w) q)).
  rewrite initial_setup_run. cbn [with_fs world self set_fs images].
  rewrite bool_decide_true by done. by destruct w.
Qed.

Lemma session_reopened_witness :
  let w := Demo.the_world Demo.root_dir in
  init "run" (parse "/ws") w = (Ok Demo.fresh, log_call (ImagesGet image) w).
Proof.
  apply (session_reopened "run" (parse "/ws") (Demo.the_world Demo.root_dir) ["ws"; "run"]).
  - by vm_compute.
  - apply (resolve_canonical _ [] (abs ["ws"; "run"])). by vm_compute.
  - done.
  - by apply list_elem_of_here.
Defined.

End reopening.
